(** * Peripheral protocol core of the bare-metal ESP32-C3 firmware

    A shallow embedding of [main/drivers/i2c.c] (the bit-banged two-wire bus
    master) and of the SSD1306 display driver built on it, together with the
    properties the specification states about them.

    Conventions.
    - C integers are [Z].  A [uint8_t] is a [Z] in [0, 256) and every
      narrowing conversion is written out with [u8]; a [uint32_t] likewise
      with [u32].  Signed [int] arithmetic is plain [Z] arithmetic: signed
      overflow is undefined in C, so the model describes the executions in
      which it does not occur.
    - The file-scope variables of the two drivers and the memory-mapped
      registers they touch form one [machine] record that every function
      threads through the state monad [M].
    - Every volatile access and every busy-wait loop is logged, in program
      order, in the [trace] of the machine. *)

From Stdlib Require Import ZArith Lia Bool.
From stdpp Require Import base list strings.

Local Open Scope Z_scope.

(** ** Machine integers *)

Definition u8 (z : Z) : Z := z mod 256.
Definition u32 (z : Z) : Z := z mod 2 ^ 32.

(** The values of a [uint8_t]. *)
Definition is_byte (b : Z) : Prop := 0 <= b < 256.

(** [1 << n] on [int]. *)
Definition BIT (n : Z) : Z := Z.shiftl 1 n.

(** ** Register map ([i2c.c], lines 5-24) *)

Definition GPIO_BASE : Z := 0x60004000.
Definition IO_MUX_BASE : Z := 0x60009000.

Definition GPIO_ENABLE_REG : Z := GPIO_BASE + 0x0020.
Definition GPIO_OUT_REG : Z := GPIO_BASE + 0x0004.
Definition GPIO_OUT_W1TS_REG : Z := GPIO_BASE + 0x0008.
Definition GPIO_OUT_W1TC_REG : Z := GPIO_BASE + 0x000C.
Definition GPIO_IN_REG : Z := GPIO_BASE + 0x003C.

Definition GPIO_PIN_MUX_REG (n : Z) : Z := IO_MUX_BASE + 0x0004 + n * 4.

Definition FUN_IE : Z := BIT 9.
Definition FUN_DRV_SHIFT : Z := 10.
Definition MCU_SEL_SHIFT : Z := 12.
Definition FUN_WPU : Z := BIT 7.
Definition FUN_WPD : Z := BIT 8.

(** ** The machine *)

(** One entry per volatile access or busy-wait loop. *)
Inductive event : Type :=
| MmioWrite (addr val : Z)
| MmioRead (addr val : Z)
| BusyWait (iterations : Z).

Record machine : Type := mkMachine {
  (* hardware *)
  regs : Z -> Z;                (* register contents, by address *)
  gpio_in : nat -> Z;           (* value GPIO_IN_REG returns at its k-th read *)
  in_count : nat;               (* reads of GPIO_IN_REG so far *)
  trace : list event;
  (* i2c.c *)
  i2c_delay_cycles : Z;
  scl_gpio : Z;
  sda_gpio : Z;
  (* ssd1306.c *)
  ssd1306_buffer : list Z;
  ssd1306_i2c_addr : Z
}.

Definition upd (r : Z -> Z) (a v : Z) : Z -> Z :=
  fun x => if x =? a then v else r x.

(** Effect of a store on the register file.  The output latch is written
    through its write-1-to-set and write-1-to-clear aliases; any other
    address holds what was last stored to it. *)
Definition mmio_store (a v : Z) (r : Z -> Z) : Z -> Z :=
  if a =? GPIO_OUT_W1TS_REG then upd r GPIO_OUT_REG (Z.lor (r GPIO_OUT_REG) v)
  else if a =? GPIO_OUT_W1TC_REG then
    upd r GPIO_OUT_REG (Z.land (r GPIO_OUT_REG) (Z.lnot v))
  else upd r a v.

(** ** State monad *)

Definition M (A : Type) : Type := machine -> A * machine.

#[global] Instance M_ret : MRet M := fun A (a : A) m => (a, m).
#[global] Instance M_bind : MBind M :=
  fun A B (f : A -> M B) (c : M A) m => let (a, m') := c m in f a m'.

Definition exec {A} (c : M A) (m : machine) : machine := snd (c m).
Definition eval {A} (c : M A) (m : machine) : A := fst (c m).

Definition get {A} (f : machine -> A) : M A := fun m => (f m, m).

Definition log (e : event) : M unit := fun m =>
  (tt, mkMachine (regs m) (gpio_in m) (in_count m) (trace m ++ [e])
         (i2c_delay_cycles m) (scl_gpio m) (sda_gpio m)
         (ssd1306_buffer m) (ssd1306_i2c_addr m)).

Definition set_regs (r : Z -> Z) : M unit := fun m =>
  (tt, mkMachine r (gpio_in m) (in_count m) (trace m)
         (i2c_delay_cycles m) (scl_gpio m) (sda_gpio m)
         (ssd1306_buffer m) (ssd1306_i2c_addr m)).

Definition set_in_count (k : nat) : M unit := fun m =>
  (tt, mkMachine (regs m) (gpio_in m) k (trace m)
         (i2c_delay_cycles m) (scl_gpio m) (sda_gpio m)
         (ssd1306_buffer m) (ssd1306_i2c_addr m)).

Definition set_i2c_statics (delay scl sda : Z) : M unit := fun m =>
  (tt, mkMachine (regs m) (gpio_in m) (in_count m) (trace m)
         delay scl sda (ssd1306_buffer m) (ssd1306_i2c_addr m)).

Definition set_ssd1306_buffer (fb : list Z) : M unit := fun m =>
  (tt, mkMachine (regs m) (gpio_in m) (in_count m) (trace m)
         (i2c_delay_cycles m) (scl_gpio m) (sda_gpio m)
         fb (ssd1306_i2c_addr m)).

Definition set_ssd1306_i2c_addr (a : Z) : M unit := fun m =>
  (tt, mkMachine (regs m) (gpio_in m) (in_count m) (trace m)
         (i2c_delay_cycles m) (scl_gpio m) (sda_gpio m)
         (ssd1306_buffer m) a).

(** [REG_WRITE] and [REG_READ] ([i2c.c], lines 27-28). *)
Definition REG_WRITE (addr val : Z) : M unit :=
  r ← get regs;
  set_regs (mmio_store addr val r);;
  log (MmioWrite addr val).

Definition REG_READ (addr : Z) : M Z :=
  if addr =? GPIO_IN_REG then
    k ← get in_count;
    v ← get (fun m => gpio_in m k);
    set_in_count (S k);;
    log (MmioRead addr v);;
    mret v
  else
    v ← get (fun m => regs m addr);
    log (MmioRead addr v);;
    mret v.

Definition REG_SET_BIT (addr bit : Z) : M unit :=
  v ← REG_READ addr;
  REG_WRITE addr (Z.lor v bit).

(** A counted empty loop over a volatile counter. *)
Definition busy_wait (n : Z) : M unit := log (BusyWait n).

(** ** [main/drivers/i2c.c] *)

Module I2C.

Record i2c_config_t : Type := {
  scl_pin : Z;
  sda_pin : Z;
  freq_hz : Z
}.

Definition i2c_delay : M unit :=
  n ← get i2c_delay_cycles;
  busy_wait n.

Definition gpio_set_opendrain (gpio_num : Z) : M unit :=
  if (gpio_num <? 0) || (gpio_num >? 21) then mret tt
  else
    let mux_reg := GPIO_PIN_MUX_REG gpio_num in
    mux_val ← REG_READ mux_reg;
    (* function select: GPIO *)
    let mux_val := u32 (Z.land mux_val (Z.lnot (Z.shiftl 0x7 MCU_SEL_SHIFT))) in
    let mux_val := Z.lor mux_val (Z.shiftl 1 MCU_SEL_SHIFT) in
    (* input enable, pull-up on, pull-down off *)
    let mux_val := Z.lor mux_val (Z.lor FUN_IE FUN_WPU) in
    let mux_val := u32 (Z.land mux_val (Z.lnot FUN_WPD)) in
    (* drive strength *)
    let mux_val := u32 (Z.land mux_val (Z.lnot (Z.shiftl 0x3 FUN_DRV_SHIFT))) in
    let mux_val := Z.lor mux_val (Z.shiftl 2 FUN_DRV_SHIFT) in
    REG_WRITE mux_reg mux_val;;
    REG_SET_BIT GPIO_ENABLE_REG (BIT gpio_num).

Definition scl_high : M unit :=
  p ← get scl_gpio; REG_WRITE GPIO_OUT_W1TS_REG (BIT p);; i2c_delay.

Definition scl_low : M unit :=
  p ← get scl_gpio; REG_WRITE GPIO_OUT_W1TC_REG (BIT p);; i2c_delay.

Definition sda_high : M unit :=
  p ← get sda_gpio; REG_WRITE GPIO_OUT_W1TS_REG (BIT p);; i2c_delay.

Definition sda_low : M unit :=
  p ← get sda_gpio; REG_WRITE GPIO_OUT_W1TC_REG (BIT p);; i2c_delay.

Definition sda_read : M bool :=
  p ← get sda_gpio;
  v ← REG_READ GPIO_IN_REG;
  mret (negb (Z.land v (BIT p) =? 0)).

Definition i2c_init (config : i2c_config_t) : M unit :=
  set_i2c_statics ((160000000 / freq_hz config) / 4)
                  (scl_pin config) (sda_pin config);;
  scl ← get scl_gpio;
  sda ← get sda_gpio;
  gpio_set_opendrain scl;;
  gpio_set_opendrain sda;;
  sda_high;;
  scl_high.

Definition i2c_start : M bool :=
  sda_high;; scl_high;; sda_low;; scl_low;; mret true.

Definition i2c_stop : M unit :=
  sda_low;; scl_high;; sda_high.

(** The loop [for (int i = 7; i >= 0; i--)] of [i2c_write_byte]; [n] is
    the number of iterations left, the loop variable is [n - 1]. *)
Fixpoint i2c_write_bits (data : Z) (n : nat) : M unit :=
  match n with
  | O => mret tt
  | S i =>
      (if negb (Z.land data (BIT (Z.of_nat i)) =? 0) then sda_high
       else sda_low);;
      scl_high;;
      scl_low;;
      i2c_write_bits data i
  end.

Definition i2c_write_byte (data : Z) : M bool :=
  i2c_write_bits data 8;;
  sda_high;;
  scl_high;;
  level ← sda_read;
  let ack := negb level in
  scl_low;;
  mret ack.

(** The loop [for (int i = 7; i >= 0; i--)] of [i2c_read_byte]; [n] is
    the number of iterations left, the loop variable is [n - 1], and [data]
    is the [uint8_t] assembled so far. *)
Fixpoint i2c_read_bits (n : nat) (data : Z) : M Z :=
  match n with
  | O => mret data
  | S i =>
      scl_high;;
      sda_read ≫= fun level : bool =>
      let data := if level then u8 (Z.lor data (BIT (Z.of_nat i))) else data in
      scl_low;;
      i2c_read_bits i data
  end.

Definition i2c_read_byte (ack : bool) : M Z :=
  sda_high;;
  data ← i2c_read_bits 8 0;
  (if ack then sda_low else sda_high);;
  scl_high;;
  scl_low;;
  sda_high;;
  mret data.

(** The payload loop shared by [i2c_write], [i2c_write_reg] and
    [ssd1306_send_data]: [for (i = 0; i < len; i++)] with [i] the index and
    [n] the iterations left.  The result tells whether the loop ran to its
    end; on a missing acknowledge it has issued the stop already.  An index
    past the end of [data] is an out-of-bounds read in C and reads 0 here. *)
Fixpoint i2c_write_bytes (data : list Z) (i n : nat) : M bool :=
  match n with
  | O => mret true
  | S n' =>
      ack ← i2c_write_byte (nth i data 0);
      if negb ack then i2c_stop;; mret false
      else i2c_write_bytes data (S i) n'
  end.

Definition i2c_write (addr : Z) (data : list Z) (len : nat) : M bool :=
  started ← i2c_start;
  if negb started then mret false
  else
    ack ← i2c_write_byte (u8 (Z.shiftl addr 1));
    if negb ack then i2c_stop;; mret false
    else
      sent ← i2c_write_bytes data 0 len;
      if negb sent then mret false
      else i2c_stop;; mret true.

Definition i2c_write_reg (addr reg : Z) (data : list Z) (len : nat) : M bool :=
  started ← i2c_start;
  if negb started then mret false
  else
    ack ← i2c_write_byte (u8 (Z.shiftl addr 1));
    if negb ack then i2c_stop;; mret false
    else
      ack ← i2c_write_byte reg;
      if negb ack then i2c_stop;; mret false
      else
        sent ← i2c_write_bytes data 0 len;
        if negb sent then mret false
        else i2c_stop;; mret true.

End I2C.

(** ** The SSD1306 display driver ([main/devices/ssd1306]) *)

Module SSD1306.

Import I2C.

Definition SSD1306_WIDTH : Z := 128.
Definition SSD1306_HEIGHT : Z := 64.

Definition SSD1306_I2C_ADDR_DEFAULT : Z := 0x3C.
Definition SSD1306_I2C_ADDR_ALT : Z := 0x3D.

Record ssd1306_config_t : Type := {
  i2c_addr : Z;
  scl_pin : Z;
  sda_pin : Z
}.

(* display control *)
Definition SSD1306_CMD_SET_CONTRAST : Z := 0x81.
Definition SSD1306_CMD_DISPLAY_ALL_ON_RESUME : Z := 0xA4.
Definition SSD1306_CMD_NORMAL_DISPLAY : Z := 0xA6.
Definition SSD1306_CMD_INVERT_DISPLAY : Z := 0xA7.
Definition SSD1306_CMD_DISPLAY_OFF : Z := 0xAE.
Definition SSD1306_CMD_DISPLAY_ON : Z := 0xAF.
(* addressing *)
Definition SSD1306_CMD_SET_DISPLAY_OFFSET : Z := 0xD3.
Definition SSD1306_CMD_SET_START_LINE : Z := 0x40.
Definition SSD1306_CMD_MEMORY_MODE : Z := 0x20.
Definition SSD1306_CMD_COLUMN_ADDR : Z := 0x21.
Definition SSD1306_CMD_PAGE_ADDR : Z := 0x22.
(* hardware configuration *)
Definition SSD1306_CMD_SET_COM_PINS : Z := 0xDA.
Definition SSD1306_CMD_SET_DISPLAY_CLK_DIV : Z := 0xD5.
Definition SSD1306_CMD_SET_PRECHARGE : Z := 0xD9.
Definition SSD1306_CMD_SET_VCOM_DETECT : Z := 0xDB.
Definition SSD1306_CMD_SET_MULTIPLEX : Z := 0xA8.
(* orientation *)
Definition SSD1306_CMD_SEG_REMAP : Z := 0xA0.
Definition SSD1306_CMD_COM_SCAN_DEC : Z := 0xC8.
(* power *)
Definition SSD1306_CMD_CHARGE_PUMP : Z := 0x8D.
(* control bytes *)
Definition SSD1306_CONTROL_CMD_SINGLE : Z := 0x80.
Definition SSD1306_CONTROL_DATA_STREAM : Z := 0x40.

(** [sizeof(ssd1306_buffer)]. *)
Definition BUFFER_SIZE : Z := SSD1306_WIDTH * SSD1306_HEIGHT / 8.

Definition ssd1306_send_command (cmd : Z) : M bool :=
  let data := [SSD1306_CONTROL_CMD_SINGLE; cmd] in
  addr ← get ssd1306_i2c_addr;
  i2c_write addr data 2.

Definition ssd1306_send_data (data : list Z) (len : nat) : M bool :=
  started ← i2c_start;
  if negb started then mret false
  else
    addr ← get ssd1306_i2c_addr;
    ack ← i2c_write_byte (u8 (Z.shiftl addr 1));
    if negb ack then i2c_stop;; mret false
    else
      ack ← i2c_write_byte SSD1306_CONTROL_DATA_STREAM;
      if negb ack then i2c_stop;; mret false
      else
        sent ← i2c_write_bytes data 0 len;
        if negb sent then mret false
        else i2c_stop;; mret true.

Definition ssd1306_clear : M unit :=
  set_ssd1306_buffer (replicate (Z.to_nat BUFFER_SIZE) 0).

Definition ssd1306_display : M unit :=
  ssd1306_send_command SSD1306_CMD_COLUMN_ADDR;;
  ssd1306_send_command 0;;
  ssd1306_send_command (u8 (SSD1306_WIDTH - 1));;
  ssd1306_send_command SSD1306_CMD_PAGE_ADDR;;
  ssd1306_send_command 0;;
  ssd1306_send_command (u8 (SSD1306_HEIGHT / 8 - 1));;
  fb ← get ssd1306_buffer;
  ssd1306_send_data fb (Z.to_nat BUFFER_SIZE);;
  mret tt.

Definition ssd1306_init (config : ssd1306_config_t) : M bool :=
  set_ssd1306_i2c_addr (i2c_addr config);;
  let i2c_cfg := {| I2C.scl_pin := scl_pin config;
                    I2C.sda_pin := sda_pin config;
                    I2C.freq_hz := 400000 |} in
  i2c_init i2c_cfg;;
  (* power-up delay *)
  busy_wait 100000;;
  ssd1306_send_command SSD1306_CMD_DISPLAY_OFF;;
  ssd1306_send_command SSD1306_CMD_SET_DISPLAY_CLK_DIV;;
  ssd1306_send_command 0x80;;
  ssd1306_send_command SSD1306_CMD_SET_MULTIPLEX;;
  ssd1306_send_command (u8 (SSD1306_HEIGHT - 1));;
  ssd1306_send_command SSD1306_CMD_SET_DISPLAY_OFFSET;;
  ssd1306_send_command 0x00;;
  ssd1306_send_command (u8 (Z.lor SSD1306_CMD_SET_START_LINE 0x00));;
  ssd1306_send_command SSD1306_CMD_CHARGE_PUMP;;
  ssd1306_send_command 0x14;;
  ssd1306_send_command SSD1306_CMD_MEMORY_MODE;;
  ssd1306_send_command 0x00;;
  ssd1306_send_command (u8 (Z.lor SSD1306_CMD_SEG_REMAP 0x01));;
  ssd1306_send_command SSD1306_CMD_COM_SCAN_DEC;;
  ssd1306_send_command SSD1306_CMD_SET_COM_PINS;;
  ssd1306_send_command 0x12;;
  ssd1306_send_command SSD1306_CMD_SET_CONTRAST;;
  ssd1306_send_command 0xCF;;
  ssd1306_send_command SSD1306_CMD_SET_PRECHARGE;;
  ssd1306_send_command 0xF1;;
  ssd1306_send_command SSD1306_CMD_SET_VCOM_DETECT;;
  ssd1306_send_command 0x40;;
  ssd1306_send_command SSD1306_CMD_DISPLAY_ALL_ON_RESUME;;
  ssd1306_send_command SSD1306_CMD_NORMAL_DISPLAY;;
  ssd1306_send_command SSD1306_CMD_DISPLAY_ON;;
  ssd1306_clear;;
  ssd1306_display;;
  mret true.

(** [color] is a [uint8_t]; [y / 8] is C's division, which truncates. *)
Definition ssd1306_set_pixel (x y color : Z) : M unit :=
  if (x <? 0) || (x >=? SSD1306_WIDTH) || (y <? 0) || (y >=? SSD1306_HEIGHT)
  then mret tt
  else
    let idx := Z.to_nat (x + (y ÷ 8) * SSD1306_WIDTH) in
    fb ← get ssd1306_buffer;
    if negb (color =? 0) then
      set_ssd1306_buffer
        (<[idx := u8 (Z.lor (nth idx fb 0) (BIT (Z.land y 7)))]> fb)
    else
      set_ssd1306_buffer
        (<[idx := u8 (Z.land (nth idx fb 0) (Z.lnot (BIT (Z.land y 7))))]> fb).

(** [for (int i = lo; ...; i++) body(i)], run [n] times.  A loop
    [for (i = lo; i < lo + w; i++)] runs [Z.to_nat w] times: not at all
    when [w] is zero or negative. *)
Fixpoint for_range (i : Z) (n : nat) (body : Z -> M unit) : M unit :=
  match n with
  | O => mret tt
  | S n' => body i;; for_range (i + 1) n' body
  end.

Definition ssd1306_fill_rect (x y w h color : Z) : M unit :=
  for_range x (Z.to_nat w) (fun i =>
    for_range y (Z.to_nat h) (fun j => ssd1306_set_pixel i j color)).

Definition ssd1306_set_contrast (contrast : Z) : M unit :=
  ssd1306_send_command SSD1306_CMD_SET_CONTRAST;;
  ssd1306_send_command contrast;;
  mret tt.

Definition ssd1306_display_on (on : bool) : M unit :=
  ssd1306_send_command
    (if on then SSD1306_CMD_DISPLAY_ON else SSD1306_CMD_DISPLAY_OFF);;
  mret tt.

Definition ssd1306_invert_display (invert : bool) : M unit :=
  ssd1306_send_command
    (if invert then SSD1306_CMD_INVERT_DISPLAY else SSD1306_CMD_NORMAL_DISPLAY);;
  mret tt.

Section Text.
(** The glyph table of [font5x7.h], which is not part of the sources at
    hand: [font5x7 g i] is column [i] of glyph [g]. *)
Variable font5x7 : Z -> Z -> Z.

Definition ssd1306_draw_char (x y c : Z) : M unit :=
  let c := if (c <? 32) || (c >? 126) then 32 else c in
  let glyph := font5x7 (c - 32) in
  for_range 0 5 (fun i =>
    let line := glyph i in
    for_range 0 7 (fun j =>
      if negb (Z.land line (BIT j) =? 0) then ssd1306_set_pixel (x + i) (y + j) 1
      else mret tt)).

(** The [while] loop of [ssd1306_draw_string], which runs until the
    character under [str] is NUL; [x] is the left margin the cursor
    returns to.  The end of the Rocq string stands for
    the terminating NUL, and a NUL inside it ends the loop as well. *)
Fixpoint draw_string_loop (x cursor_x y : Z) (str : string) : M unit :=
  match str with
  | EmptyString => mret tt
  | String ch rest =>
      let c := Z.of_nat (Ascii.nat_of_ascii ch) in
      if c =? 0 then mret tt
      else if c =? 10 then draw_string_loop x x (y + 8) rest
      else
        ssd1306_draw_char cursor_x y c;;
        let cursor_x := cursor_x + 6 in
        if cursor_x >=? SSD1306_WIDTH then draw_string_loop x x (y + 8) rest
        else draw_string_loop x cursor_x y rest
  end.

Definition ssd1306_draw_string (x y : Z) (str : string) : M unit :=
  draw_string_loop x x y str.

End Text.

End SSD1306.

(** ** [main/main.c]: the display part of [app_main] *)

Definition oled_config : SSD1306.ssd1306_config_t :=
  {| SSD1306.i2c_addr := SSD1306.SSD1306_I2C_ADDR_DEFAULT;
     SSD1306.scl_pin := 7;
     SSD1306.sda_pin := 6 |}.

(** The message [app_main] prints after trying to bring the display up. *)
Definition app_main_oled_message : M string :=
  SSD1306.ssd1306_init oled_config ≫= fun ok : bool =>
  if ok then mret "OLED initialized successfully!"%string
  else mret "OLED initialization failed!"%string.

(** ** Plain pin control ([gpio.c]) *)

Module GPIO.

Definition gpio_set_output (gpio_num : Z) : M unit :=
  if (gpio_num <? 0) || (gpio_num >? 21) then mret tt
  else
    let mux_reg := GPIO_PIN_MUX_REG gpio_num in
    mux_val ← REG_READ mux_reg;
    let mux_val := u32 (Z.land mux_val (Z.lnot (Z.shiftl 0x7 MCU_SEL_SHIFT))) in
    let mux_val := Z.lor mux_val (Z.shiftl 1 MCU_SEL_SHIFT) in
    let mux_val := u32 (Z.land mux_val (Z.lnot (Z.shiftl 0x3 FUN_DRV_SHIFT))) in
    let mux_val := Z.lor mux_val (Z.shiftl 2 FUN_DRV_SHIFT) in
    REG_WRITE mux_reg mux_val;;
    REG_SET_BIT GPIO_ENABLE_REG (BIT gpio_num).

Definition gpio_set_high (gpio_num : Z) : M unit :=
  if (gpio_num <? 0) || (gpio_num >? 21) then mret tt
  else REG_WRITE GPIO_OUT_W1TS_REG (BIT gpio_num).

Definition gpio_set_low (gpio_num : Z) : M unit :=
  if (gpio_num <? 0) || (gpio_num >? 21) then mret tt
  else REG_WRITE GPIO_OUT_W1TC_REG (BIT gpio_num).

Definition gpio_toggle (gpio_num : Z) : M unit :=
  if (gpio_num <? 0) || (gpio_num >? 21) then mret tt
  else
    current ← REG_READ GPIO_OUT_REG;
    if negb (Z.land current (BIT gpio_num) =? 0) then gpio_set_low gpio_num
    else gpio_set_high gpio_num.

End GPIO.

(** ** The console and the shell: their variables

    The file-scope variables of [console.c] and of [shell.c], next to the
    machine of the two drivers.  A [char] is a [Z] in [0, 256): the
    RISC-V ABI makes plain [char] unsigned.  A character array is a list
    of character codes, and a C string in it ends at its first 0. *)

Record system : Type := mkSystem {
  mach : machine;
  (* console.c *)
  buffer : list Z;              (* char buffer[64] *)
  buffer_pos : Z;
  (* shell.c *)
  input_buffer : list Z;        (* char input_buffer[64] *)
  input_pos : Z;
  display_lines : list (list Z);  (* char display_lines[8][22] *)
  current_line : Z;
  args_buffer : list Z          (* static char args_buffer[64] of shell_execute *)
}.

Definition Sys (A : Type) : Type := system -> A * system.

#[global] Instance Sys_ret : MRet Sys := fun A (a : A) s => (a, s).
#[global] Instance Sys_bind : MBind Sys :=
  fun A B (f : A -> Sys B) (c : Sys A) s => let (a, s') := c s in f a s'.

Definition sys_exec {A} (c : Sys A) (s : system) : system := snd (c s).
Definition sys_eval {A} (c : Sys A) (s : system) : A := fst (c s).

Definition gets {A} (f : system -> A) : Sys A := fun s => (f s, s).

(** A driver operation run on the machine of the system. *)
Definition lift {A} (c : M A) : Sys A := fun s =>
  let (a, m') := c (mach s) in
  (a, mkSystem m' (buffer s) (buffer_pos s) (input_buffer s) (input_pos s) (display_lines s) (current_line s) (args_buffer s)).

Definition set_buffer (v : list Z) : Sys unit := fun s =>
  (tt, mkSystem (mach s) v (buffer_pos s) (input_buffer s) (input_pos s) (display_lines s) (current_line s) (args_buffer s)).

Definition set_buffer_pos (v : Z) : Sys unit := fun s =>
  (tt, mkSystem (mach s) (buffer s) v (input_buffer s) (input_pos s) (display_lines s) (current_line s) (args_buffer s)).

Definition set_input_buffer (v : list Z) : Sys unit := fun s =>
  (tt, mkSystem (mach s) (buffer s) (buffer_pos s) v (input_pos s) (display_lines s) (current_line s) (args_buffer s)).

Definition set_input_pos (v : Z) : Sys unit := fun s =>
  (tt, mkSystem (mach s) (buffer s) (buffer_pos s) (input_buffer s) v (display_lines s) (current_line s) (args_buffer s)).

Definition set_display_lines (v : list (list Z)) : Sys unit := fun s =>
  (tt, mkSystem (mach s) (buffer s) (buffer_pos s) (input_buffer s) (input_pos s) v (current_line s) (args_buffer s)).

Definition set_current_line (v : Z) : Sys unit := fun s =>
  (tt, mkSystem (mach s) (buffer s) (buffer_pos s) (input_buffer s) (input_pos s) (display_lines s) v (args_buffer s)).

Definition set_args_buffer (v : list Z) : Sys unit := fun s =>
  (tt, mkSystem (mach s) (buffer s) (buffer_pos s) (input_buffer s) (input_pos s) (display_lines s) (current_line s) v).

(** The codes of the characters of a string literal, and the string a
    character array is passed as. *)
Fixpoint codes (s : string) : list Z :=
  match s with
  | EmptyString => []
  | String ch rest => Z.of_nat (Ascii.nat_of_ascii ch) :: codes rest
  end.

Fixpoint string_of_codes (l : list Z) : string :=
  match l with
  | [] => EmptyString
  | c :: rest => String (Ascii.ascii_of_nat (Z.to_nat c)) (string_of_codes rest)
  end.

(** [for (int i = lo; ...; i++) body(i)], run [n] times. *)
Fixpoint sys_for (i : Z) (n : nat) (body : Z -> Sys unit) : Sys unit :=
  match n with
  | O => mret tt
  | S n' => body i;; sys_for (i + 1) n' body
  end.

(** ** The console driver ([console.c]) *)

Module Console.

Definition USB_SERIAL_JTAG_BASE : Z := 0x60043000.
Definition USB_SERIAL_JTAG_EP1_REG : Z := USB_SERIAL_JTAG_BASE + 0x0000.
Definition USB_SERIAL_JTAG_EP1_CONF_REG : Z := USB_SERIAL_JTAG_BASE + 0x0004.
Definition USB_SERIAL_JTAG_WR_DONE : Z := BIT 0.

Definition BUFFER_SIZE : Z := 64.

Definition flush_buffer : Sys unit :=
  pos ← gets buffer_pos;
  if pos =? 0 then mret tt
  else
    sys_for 0 (Z.to_nat pos) (fun i =>
      buf ← gets buffer;
      lift (REG_WRITE USB_SERIAL_JTAG_EP1_REG (u32 (nth (Z.to_nat i) buf 0))));;
    lift (REG_WRITE USB_SERIAL_JTAG_EP1_CONF_REG USB_SERIAL_JTAG_WR_DONE);;
    set_buffer_pos 0;;
    lift (busy_wait 10000).

(** An index of 64 or more would write past the end of [buffer]; such a
    store is dropped here, and [console_putc] never makes one. *)
Definition console_putc (c : Z) : Sys unit :=
  pos ← gets buffer_pos;
  buf ← gets buffer;
  set_buffer (<[Z.to_nat pos := c]> buf);;
  set_buffer_pos (pos + 1);;
  pos ← gets buffer_pos;
  if pos >=? BUFFER_SIZE then flush_buffer else mret tt.

(** The [while] loop of [console_puts]: it runs until the character
    under [str] is 0, the end of the list standing for the terminator. *)
Fixpoint console_puts_loop (str : list Z) : Sys unit :=
  match str with
  | [] => mret tt
  | c :: rest =>
      if c =? 0 then mret tt
      else
        (if c =? 10 then console_putc 13 else mret tt);;
        console_putc c;;
        console_puts_loop rest
  end.

Definition console_puts (str : list Z) : Sys unit :=
  console_puts_loop str;;
  flush_buffer.

Definition console_init : Sys unit :=
  set_buffer_pos 0;;
  console_puts (codes "console initialized successfully!" ++ [10]).

End Console.

(** ** The shell ([shell.c]) *)

Module Shell.

Import Console.

Definition SHELL_MAX_LINE_LENGTH : Z := 64.
Definition SHELL_MAX_ARGS : Z := 8.
Definition MAX_LINES : Z := 8.

(** *** String utilities

    [s[i]] is [nth i s 0]: the end of a list stands for the terminator of
    a string literal. *)

(** The loop of [str_copy] and the store of the terminator after it.  The
    body runs only while [i < max_len - 1], so [max_len] steps are enough
    for the loop to end by its own test. *)
Fixpoint str_copy_loop (fuel i : nat) (dest src : list Z) (max_len : Z)
  : list Z :=
  match fuel with
  | O => <[i := 0]> dest
  | S fuel' =>
      if negb (nth i src 0 =? 0) && (Z.of_nat i <? max_len - 1)
      then str_copy_loop fuel' (S i) (<[i := nth i src 0]> dest) src max_len
      else <[i := 0]> dest
  end.

(** [str_copy(dest, src, max_len)]: the array [dest] afterwards. *)
Definition str_copy (dest src : list Z) (max_len : Z) : list Z :=
  str_copy_loop (Z.to_nat max_len) 0 dest src max_len.

(** [str_copy(dest + off, src, max_len)]. *)
Definition str_copy_at (dest : list Z) (off : nat) (src : list Z)
    (max_len : Z) : list Z :=
  take off dest ++ str_copy (drop off dest) src max_len.

(** The loop of [str_len]; it ends within [length s] steps, [s[len]]
    being 0 from there on. *)
Fixpoint str_len_loop (fuel : nat) (s : list Z) (len : nat) : nat :=
  match fuel with
  | O => len
  | S fuel' =>
      if negb (nth len s 0 =? 0) then str_len_loop fuel' s (S len) else len
  end.

Definition str_len (s : list Z) : Z :=
  Z.of_nat (str_len_loop (length s) s 0).

(** The loop of [str_equals]; it ends within [length s1] steps. *)
Fixpoint str_equals_loop (fuel : nat) (s1 s2 : list Z) (i : nat) : bool :=
  match fuel with
  | O => nth i s1 0 =? nth i s2 0
  | S fuel' =>
      if negb (nth i s1 0 =? 0) && negb (nth i s2 0 =? 0) then
        if negb (nth i s1 0 =? nth i s2 0) then false
        else str_equals_loop fuel' s1 s2 (S i)
      else nth i s1 0 =? nth i s2 0
  end.

Definition str_equals (s1 s2 : list Z) : bool :=
  str_equals_loop (length s1) s1 s2 0.

Section Display.
(** The glyph table of [font5x7.h], as for the display driver. *)
Variable font5x7 : Z -> Z -> Z.

Definition shell_refresh_display : Sys unit :=
  lift SSD1306.ssd1306_clear;;
  sys_for 0 (Z.to_nat MAX_LINES) (fun i =>
    lines ← gets display_lines;
    let line := nth (Z.to_nat i) lines [] in
    if negb (nth 0 line 0 =? 0) then
      lift (SSD1306.ssd1306_draw_string font5x7 0 (i * 8)
              (string_of_codes line))
    else mret tt);;
  lift SSD1306.ssd1306_display.

(** [current_line] is a [uint8_t]. *)
Definition shell_print (text : list Z) : Sys unit :=
  console_puts text;;
  console_puts [10];;
  gets current_line ≫= (fun cur : Z =>
    if cur >=? MAX_LINES then
      sys_for 0 (Z.to_nat (MAX_LINES - 1)) (fun i =>
        lines ← gets display_lines;
        let k := Z.to_nat i in
        set_display_lines
          (<[k := str_copy (nth k lines []) (nth (S k) lines []) 22]> lines));;
      set_current_line (u8 (MAX_LINES - 1))
    else mret tt);;
  cur ← gets current_line;
  lines ← gets display_lines;
  let k := Z.to_nat cur in
  set_display_lines (<[k := str_copy (nth k lines []) text 22]> lines);;
  set_current_line (u8 (cur + 1));;
  shell_refresh_display.

Definition shell_clear : Sys unit :=
  sys_for 0 (Z.to_nat MAX_LINES) (fun i =>
    lines ← gets display_lines;
    let k := Z.to_nat i in
    set_display_lines (<[k := <[0%nat := 0]> (nth k lines [])]> lines));;
  set_current_line 0;;
  shell_refresh_display.

(** *** Commands

    [argv] holds pointers into [args_buffer]: offsets here, [argc] being
    the length of the list, and [argv[i]] the characters of [args_buffer]
    from the offset on. *)

Definition cmd_help (argv : list nat) : Sys unit :=
  shell_print (codes "Available commands:");;
  shell_print (codes "  help  - Show help");;
  shell_print (codes "  clear - Clear screen");;
  shell_print (codes "  echo  - Echo text").

Definition cmd_clear (argv : list nat) : Sys unit :=
  shell_clear.

(** What a local array holds before it is written, which C leaves open. *)
Variables prompt_line0 message0 err_msg0 : list Z.

(** The inner loop of [cmd_echo], [n] being the characters of the argument
    still to copy. *)
Fixpoint echo_chars (n j : nat) (arg message : list Z) (pos : Z)
  : list Z * Z :=
  match n with
  | O => (message, pos)
  | S n' =>
      if pos <? SHELL_MAX_LINE_LENGTH - 2 then
        echo_chars n' (S j) arg (<[Z.to_nat pos := nth j arg 0]> message)
                   (pos + 1)
      else (message, pos)
  end.

(** The outer loop of [cmd_echo] over the arguments still to copy. *)
Fixpoint echo_args (buf : list Z) (args : list nat) (message : list Z)
    (pos : Z) : list Z * Z :=
  match args with
  | [] => (message, pos)
  | off :: rest =>
      if pos <? SHELL_MAX_LINE_LENGTH - 1 then
        let arg := drop off buf in
        let arg_len := str_len arg in
        let (message, pos) :=
          echo_chars (Z.to_nat arg_len) 0 arg message pos in
        let (message, pos) :=
          if negb (bool_decide (rest = []))
             && (pos <? SHELL_MAX_LINE_LENGTH - 1)
          then (<[Z.to_nat pos := 32]> message, pos + 1)
          else (message, pos) in
        echo_args buf rest message pos
      else (message, pos)
  end.

Definition cmd_echo (argv : list nat) : Sys unit :=
  if (length argv <? 2)%nat then shell_print (codes "Usage: echo <text>")
  else
    buf ← gets args_buffer;
    let (message, pos) := echo_args buf (drop 1 argv) message0 0 in
    shell_print (<[Z.to_nat pos := 0]> message).

Definition commands : list (list Z * (list nat -> Sys unit)) :=
  [(codes "help", cmd_help); (codes "clear", cmd_clear);
   (codes "echo", cmd_echo)].

(** *** Parsing *)

(** The loop that moves [cmdline] past the blanks it starts with. *)
Fixpoint skip_leading (cmdline : list Z) : list Z :=
  match cmdline with
  | [] => []
  | c :: rest => if c =? 32 then skip_leading rest else cmdline
  end.

(** The loop that moves [p], an offset into [buf], past blanks; it ends
    within [length buf] steps. *)
Fixpoint skip_spaces (fuel : nat) (buf : list Z) (p : nat) : nat :=
  match fuel with
  | O => p
  | S fuel' => if nth p buf 0 =? 32 then skip_spaces fuel' buf (S p) else p
  end.

(** The loop that moves [p] to the blank or terminator that ends an
    argument. *)
Fixpoint find_end (fuel : nat) (buf : list Z) (p : nat) : nat :=
  match fuel with
  | O => p
  | S fuel' =>
      if negb (nth p buf 0 =? 0) && negb (nth p buf 0 =? 32)
      then find_end fuel' buf (S p) else p
  end.

(** The loop that cuts [args_buffer] into arguments.  Every turn that
    does not leave the loop moves [p] forward, so it ends within
    [length buf + 1] turns. *)
Fixpoint parse_args (fuel : nat) (buf : list Z) (p : nat) (argv : list nat)
  : list Z * list nat :=
  match fuel with
  | O => (buf, argv)
  | S fuel' =>
      if negb (nth p buf 0 =? 0) && (Z.of_nat (length argv) <? SHELL_MAX_ARGS)
      then
        let p := skip_spaces (length buf) buf p in
        if nth p buf 0 =? 0 then (buf, argv)
        else
          let argv := argv ++ [p] in
          let p := find_end (length buf) buf p in
          if negb (nth p buf 0 =? 0)
          then parse_args fuel' (<[p := 0]> buf) (S p) argv
          else parse_args fuel' buf p argv
      else (buf, argv)
  end.

(** The loop over the command table: whether a command was found. *)
Fixpoint find_command (table : list (list Z * (list nat -> Sys unit)))
    (argv : list nat) : Sys bool :=
  match table with
  | [] => mret false
  | (name, handler) :: rest =>
      buf ← gets args_buffer;
      if str_equals (drop (nth 0 argv 0%nat) buf) name
      then handler argv;; mret true
      else find_command rest argv
  end.

Definition shell_execute (cmdline : list Z) : Sys unit :=
  let prompt_line := <[1%nat := 32]> (<[0%nat := 62]> prompt_line0) in
  let prompt_line :=
    str_copy_at prompt_line 2 cmdline (SHELL_MAX_LINE_LENGTH - 2) in
  shell_print prompt_line;;
  let cmdline := skip_leading cmdline in
  if nth 0 cmdline 0 =? 0 then mret tt
  else
    buf ← gets args_buffer;
    set_args_buffer (str_copy buf cmdline SHELL_MAX_LINE_LENGTH);;
    buf ← gets args_buffer;
    let (buf, argv) := parse_args (S (length buf)) buf 0 [] in
    set_args_buffer buf;;
    if (length argv =? 0)%nat then mret tt
    else
      find_command commands argv ≫= fun found : bool =>
      if negb found then
        let prefix := codes "command unknown: " in
        let prefix_len := str_len prefix in
        buf ← gets args_buffer;
        let arg0 := drop (nth 0 argv 0%nat) buf in
        let cmd_len := str_len arg0 in
        let total_len := prefix_len + cmd_len in
        if total_len <=? 21 then
          let err_msg := str_copy err_msg0 prefix SHELL_MAX_LINE_LENGTH in
          let err_msg :=
            str_copy_at err_msg (Z.to_nat prefix_len) arg0
                        (SHELL_MAX_LINE_LENGTH - prefix_len) in
          shell_print err_msg
        else
          shell_print prefix;;
          shell_print arg0
      else mret tt.

Definition shell_init : Sys unit :=
  set_input_pos 0;;
  set_current_line 0;;
  sys_for 0 (Z.to_nat MAX_LINES) (fun i =>
    lines ← gets display_lines;
    let k := Z.to_nat i in
    set_display_lines (<[k := <[0%nat := 0]> (nth k lines [])]> lines));;
  shell_print (codes "RISC-V Shell v1.0");;
  shell_print (codes "Type 'help'");;
  shell_print (codes ">").

(** [input_pos] is a [uint8_t]. *)
Definition shell_process_char (c : Z) : Sys unit :=
  if (c =? 8) || (c =? 127) then
    gets input_pos ≫= fun pos : Z =>
    if pos >? 0 then
      set_input_pos (u8 (pos - 1));;
      pos ← gets input_pos;
      buf ← gets input_buffer;
      set_input_buffer (<[Z.to_nat pos := 0]> buf);;
      console_putc 8;;
      console_putc 32;;
      console_putc 8
    else mret tt
  else if (c =? 10) || (c =? 13) then
    console_putc 10;;
    pos ← gets input_pos;
    buf ← gets input_buffer;
    set_input_buffer (<[Z.to_nat pos := 0]> buf);;
    (gets input_pos ≫= fun pos : Z =>
     if pos >? 0 then
       buf ← gets input_buffer;
       shell_execute buf
     else mret tt);;
    shell_print (codes ">");;
    set_input_pos 0;;
    buf ← gets input_buffer;
    set_input_buffer (<[0%nat := 0]> buf)
  else if (c >=? 32) && (c <=? 126) then
    gets input_pos ≫= fun pos : Z =>
    if pos <? SHELL_MAX_LINE_LENGTH - 1 then
      buf ← gets input_buffer;
      set_input_buffer (<[Z.to_nat pos := c]> buf);;
      set_input_pos (u8 (pos + 1));;
      pos ← gets input_pos;
      buf ← gets input_buffer;
      set_input_buffer (<[Z.to_nat pos := 0]> buf);;
      console_putc c
    else mret tt
  else mret tt.

End Display.

End Shell.
(** ** What a bus operation leaves behind

    The bus operations change the machine only through the events they
    emit: [after m w] is [m] once the events [w] have happened. *)

Definition drive (w : list event) (r : Z -> Z) : Z -> Z :=
  fold_left (fun r e =>
               match e with
               | MmioWrite a v => mmio_store a v r
               | _ => r
               end) w r.

Definition is_input_read (e : event) : bool :=
  match e with
  | MmioRead a _ => a =? GPIO_IN_REG
  | _ => false
  end.

Definition count_in (w : list event) : nat :=
  length (filter (fun e => is_input_read e = true) w).

Definition after (m : machine) (w : list event) : machine :=
  mkMachine (drive w (regs m)) (gpio_in m) (count_in w + in_count m)
            (trace m ++ w)
            (i2c_delay_cycles m) (scl_gpio m) (sda_gpio m)
            (ssd1306_buffer m) (ssd1306_i2c_addr m).

(** The events a computation added to the trace. *)
Definition emitted (m m' : machine) : list event :=
  drop (length (trace m)) (trace m').

(** A computation that only talks to the bus: it returns [a] and emits [w]. *)
Definition emits {A} (c : M A) (m : machine) (a : A) (w : list event) : Prop :=
  c m = (a, after m w).

(** ** Waveforms

    The event sequences of the bus protocol, for a clock pin [scl], a data
    pin [sda] and a half-bit delay of [d] iterations. *)

Section Waveforms.
Variables scl sda d : Z.

Definition release (pin : Z) : list event :=
  [MmioWrite GPIO_OUT_W1TS_REG (BIT pin); BusyWait d].

Definition pull_low (pin : Z) : list event :=
  [MmioWrite GPIO_OUT_W1TC_REG (BIT pin); BusyWait d].

(** Data falls while the clock is high, then the clock falls. *)
Definition start_wave : list event :=
  release sda ++ release scl ++ pull_low sda ++ pull_low scl.

(** With the clock high, data rises. *)
Definition stop_wave : list event :=
  pull_low sda ++ release scl ++ release sda.

(** One data bit: set the data line, pulse the clock high then low. *)
Definition bit_cell (b : bool) : list event :=
  (if b then release sda else pull_low sda) ++ release scl ++ pull_low scl.

(** The acknowledge slot: data released, clock pulsed once, the input
    register read (giving [v]) while the clock is high. *)
Definition ack_cell (v : Z) : list event :=
  release sda ++ release scl ++ [MmioRead GPIO_IN_REG v] ++ pull_low scl.

(** Bits [n-1] down to [0] of [data]. *)
Fixpoint bits_wave (data : Z) (n : nat) : list event :=
  match n with
  | O => []
  | S i => bit_cell (Z.testbit data (Z.of_nat i)) ++ bits_wave data i
  end.

Definition byte_wave (data v : Z) : list event :=
  bits_wave data 8 ++ ack_cell v.

(** A sensed input value acknowledges when the data line reads low. *)
Definition acked (v : Z) : bool := negb (Z.testbit v sda).

(** The bytes [bs] sent one after the other, [inp k] being the input
    register's value in the acknowledge slot of the first one; sending
    ends with the first byte that is not acknowledged.  The boolean tells
    whether every byte was acknowledged. *)
Fixpoint bytes_wave (bs : list Z) (inp : nat -> Z) (k : nat)
  : list event * bool :=
  match bs with
  | [] => ([], true)
  | b :: bs' =>
      if acked (inp k) then
        let (w, ok) := bytes_wave bs' inp (S k) in
        (byte_wave b (inp k) ++ w, ok)
      else (byte_wave b (inp k), false)
  end.

(** A whole write transaction carrying [bs]. *)
Definition transaction_wave (bs : list Z) (inp : nat -> Z) (k : nat)
  : list event :=
  start_wave ++ fst (bytes_wave bs inp k) ++ stop_wave.

End Waveforms.

(** [sends c bs m]: from [m], in a transaction already started, [c] sends
    the bytes [bs] up to the first one that is not acknowledged, then the
    stop, and returns whether all were acknowledged. *)
Definition sends (c : M bool) (bs : list Z) (m : machine) : Prop :=
  let scl := scl_gpio m in
  let sda := sda_gpio m in
  let d := i2c_delay_cycles m in
  let r := bytes_wave scl sda d bs (gpio_in m) (in_count m) in
  emits c m (snd r) (fst r ++ stop_wave scl sda d).

(** The payload the loop over [data[0 .. len-1]] reads. *)
Definition payload (data : list Z) (i len : nat) : list Z :=
  map (fun j => nth j data 0) (seq i len).


(** ** A bus monitor

    What a device on the two wires sees of the master, by the rules of the
    protocol: a start is the data line falling while the clock is high, a
    stop is the data line rising while the clock is high, and a bit is the
    level of the data line during a clock pulse, the pulse being complete
    when the clock falls again.  Eight bits, most significant first, make a
    byte; the ninth pulse is the acknowledge slot, where the data line is
    released and acknowledged means it is sensed low. *)

Inductive frame : Type :=
| FStart
| FStop
| FByte (value : Z) (ack : bool).

Record monitor : Type := mkMonitor {
  mon_scl : bool;               (* level the master drives on the clock *)
  mon_sda : bool;               (* level the master drives on data *)
  (* data level at the last rising clock edge, and the level sensed on the
     input register since, while the pulse is open *)
  mon_pulse : option (bool * option bool);
  mon_count : nat;              (* bits of the current byte seen so far *)
  mon_value : Z                 (* their value, most significant first *)
}.

Section Monitor.
Variables scl sda : Z.

(** Level of pin [p] after the store of [v] to [a]. *)
Definition level_after (a v p : Z) (old : bool) : bool :=
  if a =? GPIO_OUT_W1TS_REG then old || Z.testbit v p
  else if a =? GPIO_OUT_W1TC_REG then old && negb (Z.testbit v p)
  else old.

(** The monitor's reaction to the lines going to the levels [c'] (clock)
    and [s'] (data). *)
Definition mon_edge (st : monitor) (c' s' : bool) : list frame * monitor :=
  let c := mon_scl st in
  let s := mon_sda st in
  if c && c' then
    if eqb s s' then ([], st)
    else ([if s' then FStop else FStart], mkMonitor c' s' None 0 0)
  else if c' then
    (* rising clock edge *)
    ([], mkMonitor c' s' (Some (s', None)) (mon_count st) (mon_value st))
  else if c then
    (* falling clock edge *)
    match mon_pulse st with
    | Some (b, sensed) =>
        if (mon_count st <? 8)%nat then
          ([], mkMonitor c' s' None (S (mon_count st))
                 (2 * mon_value st + Z.b2z b))
        else
          ([FByte (mon_value st) (negb (default b sensed))],
           mkMonitor c' s' None 0 0)
    | None => ([], mkMonitor c' s' None (mon_count st) (mon_value st))
    end
  else ([], mkMonitor c' s' (mon_pulse st) (mon_count st) (mon_value st)).

Definition mon_step (st : monitor) (e : event) : list frame * monitor :=
  match e with
  | MmioWrite a v =>
      mon_edge st (level_after a v scl (mon_scl st))
                  (level_after a v sda (mon_sda st))
  | MmioRead a v =>
      if a =? GPIO_IN_REG then
        match mon_pulse st with
        | Some (b, _) =>
            ([], mkMonitor (mon_scl st) (mon_sda st)
                   (Some (b, Some (Z.testbit v sda)))
                   (mon_count st) (mon_value st))
        | None => ([], st)
        end
      else ([], st)
  | BusyWait _ => ([], st)
  end.

(** The frames the events [w] show, and the monitor after them. *)
Fixpoint mon_run (st : monitor) (w : list event) : list frame * monitor :=
  match w with
  | [] => ([], st)
  | e :: w' =>
      let (fs, st') := mon_step st e in
      let (fs', st'') := mon_run st' w' in
      (fs ++ fs', st'')
  end.

Definition observe (st : monitor) (w : list event) : list frame :=
  fst (mon_run st w).

(** The monitor between transactions: both lines high, nothing pending. *)
Definition mon_idle : monitor := mkMonitor true true None 0 0.

(** The monitor between the bytes of a transaction: clock low. *)
Definition mon_hold (s : bool) : monitor := mkMonitor false s None 0 0.

(** The frames of the bytes [bs] of one transaction, by the
    acknowledgements the input register gives from its [k]-th read on:
    a byte that is not acknowledged is the last one. *)
Fixpoint byte_frames (bs : list Z) (inp : nat -> Z) (k : nat) : list frame :=
  match bs with
  | [] => []
  | b :: bs' =>
      if acked sda (inp k) then FByte b true :: byte_frames bs' inp (S k)
      else [FByte b false]
  end.

End Monitor.

(** Both lines of the bus of [m] are released. *)
Definition bus_idle (m : machine) : Prop :=
  Z.testbit (regs m GPIO_OUT_REG) (scl_gpio m) = true /\
  Z.testbit (regs m GPIO_OUT_REG) (sda_gpio m) = true.

(** The pins are two different pins of the chip. *)
Definition valid_pins (m : machine) : Prop :=
  0 <= scl_gpio m <= 21 /\ 0 <= sda_gpio m <= 21 /\ scl_gpio m <> sda_gpio m.

(** The monitor of the bus of [m], at rest on the levels of its lines. *)
Definition mon_of (m : machine) : monitor :=
  mkMonitor (Z.testbit (regs m GPIO_OUT_REG) (scl_gpio m))
            (Z.testbit (regs m GPIO_OUT_REG) (sda_gpio m)) None 0 0.

(** What the monitor of the bus of [m] reports for the events [w] that
    follow the state [m]. *)
Definition frames_of (m : machine) (w : list event) : list frame :=
  observe (scl_gpio m) (sda_gpio m) (mon_of m) w.

(** The acknowledge bits of the byte frames in [fs] are all set. *)
Definition all_acked (fs : list frame) : bool :=
  forallb (fun f => match f with FByte _ a => a | _ => true end) fs.

Definition is_byte_frame (f : frame) : Prop :=
  match f with FByte _ _ => True | _ => False end.

(** [c], run from [m], is one closed write transaction: its events begin
    with the start condition and end with the stop condition, the monitor
    sees a start, byte frames only, and a stop, the result of [c] tells
    whether every byte was acknowledged, and the bus is idle again. *)
Definition closed_transaction (c : M bool) (m : machine) : Prop :=
  let scl := scl_gpio m in
  let sda := sda_gpio m in
  let d := i2c_delay_cycles m in
  let m' := exec c m in
  (exists body,
     emitted m m' = start_wave scl sda d ++ body ++ stop_wave scl sda d) /\
  (exists bytes,
     frames_of m (emitted m m') = FStart :: bytes ++ [FStop] /\
     Forall is_byte_frame bytes /\
     eval c m = all_acked bytes) /\
  bus_idle m'.

(** The device acknowledges the [n] bytes sent next. *)
Definition acks_next (m : machine) (n : nat) : Prop :=
  forall j, (j < n)%nat -> acked (sda_gpio m) (gpio_in m (in_count m + j)) = true.

(** ** The display on the wire *)

(** The commands [cmds], each sent with [ssd1306_send_command] and its
    result dropped, followed by [k]: the shape of [ssd1306_init] and of
    [ssd1306_display]. *)
Fixpoint send_then {A} (cmds : list Z) (k : M A) : M A :=
  match cmds with
  | [] => k
  | c :: cs => SSD1306.ssd1306_send_command c;; send_then cs k
  end.

(** The command bytes of [ssd1306_init] up to display-on, in program
    order. *)
Definition bringup_commands : list Z :=
  [0xAE; 0xD5; 0x80; 0xA8; 0x3F; 0xD3; 0x00; 0x40; 0x8D; 0x14; 0x20; 0x00;
   0xA1; 0xC8; 0xDA; 0x12; 0x81; 0xCF; 0xD9; 0xF1; 0xDB; 0x40; 0xA4; 0xA6;
   0xAF].

(** The command bytes of [ssd1306_display]: column range 0..127, page
    range 0..7. *)
Definition window_commands : list Z := [0x21; 0; 127; 0x22; 0; 7].

Section DisplayWaves.
Variables scl sda d : Z.
Variable addr : Z.            (* the 7-bit device address *)

Definition address_byte : Z := u8 (Z.shiftl addr 1).

(** One [ssd1306_send_command]. *)
Definition command_wave (cmd : Z) (inp : nat -> Z) (k : nat) : list event :=
  transaction_wave scl sda d [address_byte; 0x80; cmd] inp k.

(** Commands in sequence; each starts at the input read the one before
    it stopped at. *)
Fixpoint commands_wave (cmds : list Z) (inp : nat -> Z) (k : nat)
  : list event :=
  match cmds with
  | [] => []
  | c :: cs =>
      let w := command_wave c inp k in
      w ++ commands_wave cs inp (count_in w + k)
  end.

(** One [ssd1306_send_data]. *)
Definition data_wave (data : list Z) (inp : nat -> Z) (k : nat) : list event :=
  transaction_wave scl sda d (address_byte :: 0x40 :: data) inp k.

(** One [ssd1306_display] of the framebuffer [fb]. *)
Definition display_wave (fb : list Z) (inp : nat -> Z) (k : nat) : list event :=
  let w := commands_wave window_commands inp k in
  w ++ data_wave (payload fb 0 (Z.to_nat SSD1306.BUFFER_SIZE)) inp
                 (count_in w + k).

(** The frames of an acknowledged command transaction and of an
    acknowledged data transaction. *)
Definition command_txn (cmd : Z) : list frame :=
  [FStart; FByte address_byte true; FByte 0x80 true; FByte cmd true; FStop].

Definition data_txn (data : list Z) : list frame :=
  FStart :: FByte address_byte true :: FByte 0x40 true
         :: map (fun b => FByte b true) data ++ [FStop].
End DisplayWaves.

(** The number of transactions among the frames [fs]. *)
Fixpoint count_starts (fs : list frame) : nat :=
  match fs with
  | [] => 0
  | FStart :: fs' => S (count_starts fs')
  | _ :: fs' => count_starts fs'
  end.

(** The device on the bus of [m] acknowledges every byte. *)
Definition always_acks (m : machine) : Prop :=
  forall k, acked (sda_gpio m) (gpio_in m k) = true.

(** *** Pin configuration *)

(** The IO-MUX word [gpio_set_opendrain] writes back for the word [old]. *)
Definition opendrain_mux_value (old : Z) : Z :=
  let mux_val := u32 (Z.land old (Z.lnot (Z.shiftl 0x7 MCU_SEL_SHIFT))) in
  let mux_val := Z.lor mux_val (Z.shiftl 1 MCU_SEL_SHIFT) in
  let mux_val := Z.lor mux_val (Z.lor FUN_IE FUN_WPU) in
  let mux_val := u32 (Z.land mux_val (Z.lnot FUN_WPD)) in
  let mux_val := u32 (Z.land mux_val (Z.lnot (Z.shiftl 0x3 FUN_DRV_SHIFT))) in
  Z.lor mux_val (Z.shiftl 2 FUN_DRV_SHIFT).

(** The events of [gpio_set_opendrain p] on the registers [r]. *)
Definition opendrain_wave (p : Z) (r : Z -> Z) : list event :=
  if (p <? 0) || (p >? 21) then []
  else
    let mux := GPIO_PIN_MUX_REG p in
    let r' := mmio_store mux (opendrain_mux_value (r mux)) r in
    [MmioRead mux (r mux);
     MmioWrite mux (opendrain_mux_value (r mux));
     MmioRead GPIO_ENABLE_REG (r' GPIO_ENABLE_REG);
     MmioWrite GPIO_ENABLE_REG (Z.lor (r' GPIO_ENABLE_REG) (BIT p))].

(** The events of [i2c_init] for pins [scl], [sda] and delay [d]. *)
Definition i2c_init_wave (scl sda d : Z) (r : Z -> Z) : list event :=
  let w1 := opendrain_wave scl r in
  let w2 := opendrain_wave sda (drive w1 r) in
  w1 ++ w2 ++ release d sda ++ release d scl.

(** The machine once [ssd1306_init] has stored the configuration and
    [i2c_init] has stored the bus parameters. *)
Definition configured (config : SSD1306.ssd1306_config_t) (m : machine)
  : machine :=
  mkMachine (regs m) (gpio_in m) (in_count m) (trace m)
            ((160000000 / 400000) / 4)
            (SSD1306.scl_pin config) (SSD1306.sda_pin config)
            (ssd1306_buffer m) (SSD1306.i2c_addr config).

(** The first steps of [ssd1306_init]: the address stored, the bus set up
    at 400 kHz, the settle delay. *)
Definition ssd1306_init_setup (config : SSD1306.ssd1306_config_t) : M unit :=
  set_ssd1306_i2c_addr (SSD1306.i2c_addr config);;
  I2C.i2c_init {| I2C.scl_pin := SSD1306.scl_pin config;
                  I2C.sda_pin := SSD1306.sda_pin config;
                  I2C.freq_hz := 400000 |};;
  busy_wait 100000.

(** The machine of [ssd1306_init] when the settle delay is over. *)
Definition settled (config : SSD1306.ssd1306_config_t) (m : machine)
  : machine :=
  exec (ssd1306_init_setup config) m.

Definition with_buffer (fb : list Z) (m : machine) : machine :=
  exec (set_ssd1306_buffer fb) m.

(** A cleared framebuffer. *)
Definition blank : list Z := replicate (Z.to_nat SSD1306.BUFFER_SIZE) 0.

(** The command bytes among the frames [fs]: the third byte of every
    transaction that carries exactly three bytes, the second being the
    single-command control byte. *)
Fixpoint command_bytes (fs : list frame) : list Z :=
  match fs with
  | [] => []
  | FStart :: FByte _ _ :: FByte ctl _ :: FByte c _ :: FStop :: rest =>
      if ctl =? SSD1306.SSD1306_CONTROL_CMD_SINGLE then c :: command_bytes rest
      else command_bytes rest
  | _ :: rest => command_bytes rest
  end.

(** The machine at reset with [inp] on the input register: registers and
    zero-initialized variables all 0. *)
Definition power_on (inp : nat -> Z) : machine :=
  mkMachine (fun _ => 0) inp 0 [] 0 0 0 blank 0.

(** A device that acknowledges every byte, and one that is absent. *)
Definition device_present : nat -> Z := fun _ => 0.
Definition device_absent : nat -> Z := fun _ => 0xFFFFFFFF.

(** The board of [app_main] with a display that acknowledges, once the bus
    is set up: the machine the examples run on. *)
Definition bench : machine := settled oled_config (power_on device_present).

(** ** The framebuffer *)

(** A coordinate on the display. *)
Definition in_bounds (x y : Z) : Prop :=
  0 <= x < SSD1306.SSD1306_WIDTH /\ 0 <= y < SSD1306.SSD1306_HEIGHT.

(** The packed-bit addressing of the data model: pixel (x, y) is bit
    [y & 7] of byte [x + (y / 8) * width]. *)
Definition pixel_index (x y : Z) : nat :=
  Z.to_nat (x + (y / 8) * SSD1306.SSD1306_WIDTH).

Definition get_pixel (fb : list Z) (x y : Z) : bool :=
  Z.testbit (nth (pixel_index x y) fb 0) (Z.land y 7).

(** Whether a [uint8_t] color asks for a lit pixel. *)
Definition lit (color : Z) : bool := negb (color =? 0).

(** The new byte [ssd1306_set_pixel] stores for the old byte [b]. *)
Definition pixel_byte (y color b : Z) : Z :=
  if lit color then u8 (Z.lor b (BIT (Z.land y 7)))
  else u8 (Z.land b (Z.lnot (BIT (Z.land y 7)))).

(** [fb'] holds every lit pixel of [fb] where [fb] has it: nothing was
    erased or moved. *)
Definition keeps_pixels (fb fb' : list Z) : Prop :=
  length fb' = length fb /\
  forall i k, 0 <= k < 8 ->
    Z.testbit (nth i fb 0) k = true -> Z.testbit (nth i fb' 0) k = true.

(** *** Text layout *)

Definition char_code (ch : Ascii.ascii) : Z := Z.of_nat (Ascii.nat_of_ascii ch).

(** Where [ssd1306_draw_string] puts the characters of a string, by the
    rule of the specification: the cursor starts at the left margin [x],
    moves 6 columns per character, and goes back to [x], 8 rows down, on a
    line break or when, after a character, it is at or beyond the display
    width.  Each entry is (column, row, character code). *)
Fixpoint layout (x cursor_x y : Z) (str : string) : list (Z * Z * Z) :=
  match str with
  | EmptyString => []
  | String ch rest =>
      let c := char_code ch in
      if c =? 0 then []
      else if c =? 10 then layout x x (y + 8) rest
      else
        (cursor_x, y, c)
          :: (if cursor_x + 6 >=? SSD1306.SSD1306_WIDTH
              then layout x x (y + 8) rest
              else layout x (cursor_x + 6) y rest)
  end.

(** The glyphs of [cells] drawn one after the other. *)
Fixpoint draw_cells (font : Z -> Z -> Z) (cells : list (Z * Z * Z)) : M unit :=
  match cells with
  | [] => mret tt
  | (cx, cy, c) :: rest =>
      SSD1306.ssd1306_draw_char font cx cy c;; draw_cells font rest
  end.

(** An ordinary character: neither the terminator nor a line break. *)
Definition plain_char (ch : Ascii.ascii) : Prop :=
  char_code ch <> 0 /\ char_code ch <> 10.

Fixpoint plain (str : string) : Prop :=
  match str with
  | EmptyString => True
  | String ch rest => plain_char ch /\ plain rest
  end.

(** The cells of a string laid out on one row from column [x]. *)
Fixpoint row_cells (x y : Z) (str : string) : list (Z * Z * Z) :=
  match str with
  | EmptyString => []
  | String ch rest => (x, y, char_code ch) :: row_cells (x + 6) y rest
  end.

(** A glyph table for the examples: every glyph is a solid 5x7 block. *)
Definition block_font : Z -> Z -> Z := fun _ _ => 0x7F.

(** The byte index the pixel (x, y) would have if rows past the bottom
    wrapped around the buffer instead of being dropped. *)
Definition wrapped_index (x y : Z) : nat :=
  Z.to_nat ((x + (y / 8) * SSD1306.SSD1306_WIDTH) mod SSD1306.BUFFER_SIZE).

(** [c] only paints: it returns, changes nothing but the framebuffer, and
    the framebuffer keeps its pixels. *)
Definition paints (c : M unit) : Prop :=
  forall m, exists fb',
    c m = (tt, with_buffer fb' m) /\ keeps_pixels (ssd1306_buffer m) fb'.

(** ** Reading from the bus *)

Section ReadWaves.
Variables scl sda d : Z.

(** One clock pulse of a read: clock high, the input register read
    (giving [v]), clock low. *)
Definition read_cell (v : Z) : list event :=
  release d scl ++ [MmioRead GPIO_IN_REG v] ++ pull_low d scl.

(** [n] read pulses, the first sensing [inp k]. *)
Fixpoint read_bits_wave (n : nat) (inp : nat -> Z) (k : nat) : list event :=
  match n with
  | O => []
  | S i => read_cell (inp k) ++ read_bits_wave i inp (S k)
  end.

(** The byte [i2c_read_bits n data] assembles from those pulses. *)
Fixpoint read_bits_value (n : nat) (data : Z) (inp : nat -> Z) (k : nat) : Z :=
  match n with
  | O => data
  | S i =>
      read_bits_value i
        (if Z.testbit (inp k) sda then u8 (Z.lor data (BIT (Z.of_nat i)))
         else data)
        inp (S k)
  end.

(** The events of [i2c_read_byte ack]. *)
Definition read_byte_wave (ack : bool) (inp : nat -> Z) (k : nat) : list event :=
  release d sda ++ read_bits_wave 8 inp k
    ++ (if ack then pull_low d sda else release d sda)
    ++ release d scl ++ pull_low d scl ++ release d sda.
End ReadWaves.

(** ** Pin configuration words *)

(** Bits of the IO-MUX word that [gpio_set_opendrain] forces to 1
    (pull-up enable, input enable, drive strength 2, function 1) and to 0
    (pull-down enable, the other drive and function bits). *)
Definition opendrain_ones : list Z := [7; 9; 11; 12].
Definition opendrain_zeros : list Z := [8; 10; 13; 14].

(** Bits of the IO-MUX word that [gpio_set_output] forces to 1 (drive
    strength 2, function 1) and to 0. *)
Definition output_ones : list Z := [11; 12].
Definition output_zeros : list Z := [10; 13; 14].

Definition bit_in (n : Z) (bits : list Z) : bool := existsb (Z.eqb n) bits.

(** The IO-MUX word [gpio_set_output] writes back for the word [old]. *)
Definition output_mux_value (old : Z) : Z :=
  let mux_val := u32 (Z.land old (Z.lnot (Z.shiftl 0x7 MCU_SEL_SHIFT))) in
  let mux_val := Z.lor mux_val (Z.shiftl 1 MCU_SEL_SHIFT) in
  let mux_val := u32 (Z.land mux_val (Z.lnot (Z.shiftl 0x3 FUN_DRV_SHIFT))) in
  Z.lor mux_val (Z.shiftl 2 FUN_DRV_SHIFT).

(** The output latch of the machine. *)
Definition latch (m : machine) : Z := regs m GPIO_OUT_REG.

(** A device on data pin 6 that acknowledges the address byte and not the
    byte after it. *)
Definition nack_second : nat -> Z := fun k => if (k =? 1)%nat then 0x40 else 0.

(** ** Drawing, pixel by pixel *)

(** [c] redraws the 1024-byte framebuffer pixel by pixel: it returns,
    changes nothing but the framebuffer, keeps its length, and the pixel
    at an in-bounds (px, py) becomes [f px py old], [old] being what it
    was. *)
Definition renders (c : M unit) (f : Z -> Z -> bool -> bool) : Prop :=
  forall m,
    length (ssd1306_buffer m) = Z.to_nat SSD1306.BUFFER_SIZE ->
    exists fb',
      c m = (tt, with_buffer fb' m) /\
      length fb' = Z.to_nat SSD1306.BUFFER_SIZE /\
      forall px py, in_bounds px py ->
        get_pixel fb' px py = f px py (get_pixel (ssd1306_buffer m) px py).

(** The pixel function of a loop whose iteration [i] has the pixel
    function [F i], for [i] from [lo], [n] times. *)
Fixpoint iter_pixels (F : Z -> Z -> Z -> bool -> bool) (lo : Z) (n : nat)
    (px py : Z) (b : bool) : bool :=
  match n with
  | O => b
  | S n' => iter_pixels F (lo + 1) n' px py (F lo px py b)
  end.

(** The pixel function of [ssd1306_set_pixel x y color]. *)
Definition set_pixel_fn (x y color : Z) (px py : Z) (old : bool) : bool :=
  if bool_decide (px = x /\ py = y) then lit color else old.

(** The character [ssd1306_draw_char] draws for the code [c]. *)
Definition printable (c : Z) : Z := if (c <? 32) || (c >? 126) then 32 else c.

(** Whether the glyph of [c], drawn with its corner at (x, y), covers the
    pixel (px, py): the pixel lies in the 5 by 7 cell and the glyph has the
    bit of its row set in the byte of its column. *)
Definition glyph_pixel (font : Z -> Z -> Z) (x y c px py : Z) : bool :=
  (0 <=? px - x) && (px - x <? 5) && (0 <=? py - y) && (py - y <? 7)
  && Z.testbit (font (printable c - 32) (px - x)) (py - y).

(** Whether one of the glyphs of [cells] covers the pixel (px, py). *)
Definition cells_pixel (font : Z -> Z -> Z) (cells : list (Z * Z * Z))
    (px py : Z) : bool :=
  existsb (fun cell => glyph_pixel font (fst (fst cell)) (snd (fst cell))
                                   (snd cell) px py) cells.

(** ** An absent device *)

(** No byte sent on the bus of [m] is ever acknowledged. *)
Definition never_acks (m : machine) : Prop :=
  forall k, acked (sda_gpio m) (gpio_in m k) = false.

(** The frames of a transaction whose address byte is not acknowledged. *)
Definition aborted_txn (addr : Z) : list frame :=
  [FStart; FByte (address_byte addr) false; FStop].

(** ** Transactions, whatever the device answers *)

(** The frames [t] are one closed transaction: a start, then bytes only
    (at least the address byte), then a stop. *)
Definition closed_txn (t : list frame) : Prop :=
  exists bytes,
    t = FStart :: bytes ++ [FStop] /\ bytes <> [] /\
    Forall is_byte_frame bytes.

(** The frames of [ssd1306_send_command] for each of [cmds] in turn, by
    the acknowledgements of the input register from its [k]-th read on. *)
Fixpoint commands_txns (sda addr : Z) (cmds : list Z) (inp : nat -> Z)
    (k : nat) : list (list frame) :=
  match cmds with
  | [] => []
  | c :: cs =>
      let bytes := byte_frames sda [address_byte addr; 0x80; c] inp k in
      (FStart :: bytes ++ [FStop])
        :: commands_txns sda addr cs inp (length bytes + k)
  end.

(** ** The console on the wire *)

(** The system [s] with another machine and another console buffer. *)
Definition console_state (m : machine) (buf : list Z) (pos : Z) (s : system)
  : system :=
  mkSystem m buf pos (input_buffer s) (input_pos s) (display_lines s)
           (current_line s) (args_buffer s).

Definition with_mach (m : machine) (s : system) : system :=
  console_state m (buffer s) (buffer_pos s) s.

(** The events between two states of the system. *)
Definition sys_emitted (s s' : system) : list event :=
  emitted (mach s) (mach s').

Definition fifo_write (c : Z) : event :=
  MmioWrite Console.USB_SERIAL_JTAG_EP1_REG c.

(** One flush of the characters [chars]: each stored to the transmit
    FIFO, the write-done bit, the pause.  Nothing at all when there is no
    character. *)
Definition flush_wave (chars : list Z) : list event :=
  match chars with
  | [] => []
  | _ => map fifo_write chars
         ++ [MmioWrite Console.USB_SERIAL_JTAG_EP1_CONF_REG
                       Console.USB_SERIAL_JTAG_WR_DONE;
             BusyWait 10000]
  end.

(** The values stored to the transmit FIFO by the events [w], in order. *)
Definition fifo_bytes (w : list event) : list Z :=
  flat_map (fun e => match e with
                     | MmioWrite a v =>
                         if a =? Console.USB_SERIAL_JTAG_EP1_REG then [v] else []
                     | _ => []
                     end) w.

(** The characters waiting in the console buffer. *)
Definition pending (s : system) : list Z :=
  take (Z.to_nat (buffer_pos s)) (buffer s).

(** The console buffer is a 64-byte array and its position is inside it. *)
Definition console_ok (s : system) : Prop :=
  0 <= buffer_pos s < Console.BUFFER_SIZE /\
  length (buffer s) = Z.to_nat Console.BUFFER_SIZE /\
  Forall is_byte (buffer s).

(** The C string in a character array: the characters before the first
    0. *)
Fixpoint cstr (l : list Z) : list Z :=
  match l with
  | [] => []
  | c :: rest => if c =? 0 then [] else c :: cstr rest
  end.

(** Line feeds turned into carriage return, line feed. *)
Definition crlf (l : list Z) : list Z :=
  flat_map (fun c => if c =? 10 then [13; 10] else [c]) l.

(** [c] hands the characters [chars] to the console: from a sound
    console it flushes full buffers only, [full] in number, changes
    nothing but the console buffer and the trace, and what was flushed
    followed by what waits afterwards is what waited before followed by
    [chars]. *)
Definition console_writes (c : Sys unit) (chars : list Z) : Prop :=
  forall s, console_ok s ->
    exists full buf pos,
      c s = (tt, console_state (after (mach s) (flat_map flush_wave full))
                               buf pos s) /\
      console_ok (console_state (mach s) buf pos s) /\
      Forall (fun ch => length ch = Z.to_nat Console.BUFFER_SIZE) full /\
      concat full ++ take (Z.to_nat pos) buf = pending s ++ chars.

(** ** The shell's screen *)

(** The drawing loop of [shell_refresh_display] for the lines [lines]. *)
Definition draw_lines (font : Z -> Z -> Z) (lines : list (list Z)) : M unit :=
  SSD1306.for_range 0 (Z.to_nat Shell.MAX_LINES) (fun i =>
    let line := nth (Z.to_nat i) lines [] in
    if negb (nth 0 line 0 =? 0) then
      SSD1306.ssd1306_draw_string font 0 (i * 8) (string_of_codes line)
    else mret tt).

(** Where the characters of line [i] go, and those of all eight lines. *)
Definition line_cells (i : Z) (line : list Z) : list (Z * Z * Z) :=
  layout 0 0 (i * 8) (string_of_codes line).

Fixpoint lines_cells (i : Z) (n : nat) (lines : list (list Z))
  : list (Z * Z * Z) :=
  match n with
  | O => []
  | S n' => line_cells i (nth (Z.to_nat i) lines [])
            ++ lines_cells (i + 1) n' lines
  end.

Definition screen_cells (lines : list (list Z)) : list (Z * Z * Z) :=
  lines_cells 0 (Z.to_nat Shell.MAX_LINES) lines.

(** [c] stores only bytes into the framebuffer. *)
Definition keeps_bytes (c : M unit) : Prop :=
  forall m, Forall is_byte (ssd1306_buffer m) ->
            Forall is_byte (ssd1306_buffer (exec c m)).

(** A display line: an array of 22 bytes that holds a terminated
    string. *)
Definition line_ok (l : list Z) : Prop :=
  length l = 22%nat /\ (length (cstr l) <= 21)%nat /\ Forall is_byte l.

(** The shell's display state: eight display lines, [current_line] of
    them in use, the others empty, and a sound console. *)
Definition shell_ok (s : system) : Prop :=
  console_ok s /\
  length (display_lines s) = 8%nat /\
  Forall line_ok (display_lines s) /\
  0 <= current_line s <= Shell.MAX_LINES /\
  forall i, (Z.to_nat (current_line s) <= i)%nat ->
            cstr (nth i (display_lines s) []) = [].

(** The lines of text the shell shows, top to bottom. *)
Definition shown (s : system) : list (list Z) :=
  map cstr (take (Z.to_nat (current_line s)) (display_lines s)).

(** The last [n] elements of a list. *)
Definition last_n {A} (n : nat) (l : list A) : list A :=
  drop (length l - n) l.

(** The loop of [shell_print] that moves the lines up by one, from line
    [k], [n] times. *)
Fixpoint scroll_loop (k n : nat) (lines : list (list Z)) : list (list Z) :=
  match n with
  | O => lines
  | S n' =>
      scroll_loop (S k) n'
        (<[k := Shell.str_copy (nth k lines []) (nth (S k) lines []) 22]> lines)
  end.

(** The loop of [shell_clear] and of [shell_init] that empties the lines. *)
Fixpoint clear_loop (k n : nat) (lines : list (list Z)) : list (list Z) :=
  match n with
  | O => lines
  | S n' => clear_loop (S k) n' (<[k := <[0%nat := 0]> (nth k lines [])]> lines)
  end.

(** The system [s] with other display lines. *)
Definition with_lines (lines : list (list Z)) (cur : Z) (s : system) : system :=
  mkSystem (mach s) (buffer s) (buffer_pos s) (input_buffer s) (input_pos s)
           lines cur (args_buffer s).

(** What [shell_print] does to the display lines and to [current_line]. *)
Definition print_lines (text : list Z) (lines : list (list Z)) (cur : Z)
  : list (list Z) * Z :=
  let (lines, cur) :=
    if cur >=? Shell.MAX_LINES
    then (scroll_loop 0 (Z.to_nat (Shell.MAX_LINES - 1)) lines,
          u8 (Shell.MAX_LINES - 1))
    else (lines, cur) in
  let k := Z.to_nat cur in
  (<[k := Shell.str_copy (nth k lines []) text 22]> lines, u8 (cur + 1)).

(** One refresh of the display showing [lines]. *)
Definition refreshed (font : Z -> Z -> Z) (lines : list (list Z)) (m : machine)
  : machine :=
  exec (SSD1306.ssd1306_clear;; draw_lines font lines;; SSD1306.ssd1306_display) m.

(** Eight arrays of 22 bytes each. *)
Definition lines_shape (lines : list (list Z)) : Prop :=
  length lines = 8%nat /\
  Forall (fun l => length l = 22%nat /\ Forall is_byte l) lines.

(** The display lines [lines], [cur] of them in use. *)
Definition lines_ok (lines : list (list Z)) (cur : Z) : Prop :=
  length lines = 8%nat /\
  Forall line_ok lines /\
  0 <= cur <= Shell.MAX_LINES /\
  forall i, (Z.to_nat cur <= i)%nat -> cstr (nth i lines []) = [].

(** The framebuffer shows the display lines of [s]: a pixel is lit
    exactly where the glyph of a character of a line covers it. *)
Definition screen_shows (font : Z -> Z -> Z) (s : system) : Prop :=
  length (ssd1306_buffer (mach s)) = Z.to_nat SSD1306.BUFFER_SIZE /\
  forall px py, in_bounds px py ->
    get_pixel (ssd1306_buffer (mach s)) px py =
    cells_pixel font (screen_cells (display_lines s)) px py.

(** The system when [app_main] reaches the shell: the board with the
    display set up, and the variables of the console and of the shell as
    the C runtime zeroes them. *)
Definition boot : system :=
  mkSystem bench (replicate 64 0) 0 (replicate 64 0) 0
           (replicate 8 (replicate 22 0)) 0 (replicate 64 0).

(** ** Command lines *)

(** The words of a line: its maximal runs of characters other than the
    blank, in order. *)
Fixpoint words (l : list Z) : list (list Z) :=
  match l with
  | [] => []
  | c :: rest =>
      if c =? 32 then words rest
      else match rest with
           | [] => [[c]]
           | c' :: _ =>
               if c' =? 32 then [c] :: words rest
               else match words rest with
                    | w :: ws => (c :: w) :: ws
                    | [] => [[c]]
                    end
           end
  end.

(** Words put together again, one blank between two of them. *)
Fixpoint join_words (ws : list (list Z)) : list Z :=
  match ws with
  | [] => []
  | [w] => w
  | w :: rest => w ++ 32 :: join_words rest
  end.

(** What the shell does to its screen: it prints a line or clears. *)
Inductive action : Type :=
| Print (text : list Z)
| Clear.

(** The lines shown after the actions [acts], [lines] being shown
    before: a printed line shows its first 21 characters, and only the
    last eight lines stay. *)
Fixpoint play (acts : list action) (lines : list (list Z)) : list (list Z) :=
  match acts with
  | [] => lines
  | Print text :: rest => play rest (last_n 8 (lines ++ [take 21 text]))
  | Clear :: rest => play rest []
  end.

(** The characters the actions send to the console. *)
Definition console_out (acts : list action) : list Z :=
  flat_map (fun a => match a with
                     | Print text => crlf text ++ [13; 10]
                     | Clear => []
                     end) acts.

(** What a command line asks for, by its words: the first word selects
    the command, the others are its arguments. *)
Definition command_acts (ws : list (list Z)) : list action :=
  match ws with
  | [] => []
  | cmd :: args =>
      if bool_decide (cmd = codes "help") then
        [Print (codes "Available commands:");
         Print (codes "  help  - Show help");
         Print (codes "  clear - Clear screen");
         Print (codes "  echo  - Echo text")]
      else if bool_decide (cmd = codes "clear") then [Clear]
      else if bool_decide (cmd = codes "echo") then
        match args with
        | [] => [Print (codes "Usage: echo <text>")]
        | _ => [Print (join_words args)]
        end
      else if (17 + Z.of_nat (length cmd) <=? 21) then
        [Print (codes "command unknown: " ++ cmd)]
      else [Print (codes "command unknown: "); Print cmd]
  end.

(** What [shell_execute] does for the line [line]: it prints the line
    after a prompt, then what the command asks for. *)
Definition execute_acts (line : list Z) : list action :=
  Print ([62; 32] ++ take 61 line) :: command_acts (take 8 (words line)).

(** From [s], [c] performs the actions [acts] and ends in [s']: the
    shell stays sound, shows what the actions leave, the console is
    handed their characters, and the input line and the argument buffer
    are untouched. *)
Definition performs (font : Z -> Z -> Z) (c : Sys unit) (acts : list action)
    (s s' : system) : Prop :=
  c s = (tt, s') /\
  shell_ok s' /\
  shown s' = play acts (shown s) /\
  (exists w, trace (mach s') = trace (mach s) ++ w /\
             fifo_bytes w ++ pending s' = pending s ++ console_out acts) /\
  (acts <> [] -> screen_shows font s') /\
  input_buffer s' = input_buffer s /\
  input_pos s' = input_pos s /\
  args_buffer s' = args_buffer s.

(** ** The input line *)

(** The characters typed so far. *)
Definition typed (s : system) : list Z :=
  take (Z.to_nat (input_pos s)) (input_buffer s).

(** The input buffer is a 64-byte array; it holds the characters typed,
    all printable and at most 63, and a terminator after them. *)
Definition input_ok (s : system) : Prop :=
  0 <= input_pos s <= Shell.SHELL_MAX_LINE_LENGTH - 1 /\
  length (input_buffer s) = Z.to_nat Shell.SHELL_MAX_LINE_LENGTH /\
  Forall is_byte (input_buffer s) /\
  nth (Z.to_nat (input_pos s)) (input_buffer s) 0 = 0 /\
  Forall (fun c => 32 <= c <= 126) (typed s).

(** The number of blanks a list starts with, and the length of the
    argument it starts with: the characters before the first blank or
    terminator. *)
Fixpoint blanks (l : list Z) : nat :=
  match l with
  | c :: rest => if c =? 32 then S (blanks rest) else 0
  | [] => 0
  end.

Fixpoint word_len (l : list Z) : nat :=
  match l with
  | c :: rest =>
      if negb (c =? 0) && negb (c =? 32) then S (word_len rest) else 0
  | [] => 0
  end.
(** * Proofs *)

(** ** Bit-level facts *)

Lemma testbit_BIT (p q : Z) :
  0 <= p -> 0 <= q -> Z.testbit (BIT p) q = bool_decide (p = q).
Proof.
  intros Hp Hq. unfold BIT.
  rewrite Z.shiftl_spec by done.
  case_bool_decide as H.
  - subst. by rewrite Z.sub_diag.
  - destruct (Z.ltb_spec q p).
    + rewrite Z.testbit_neg_r by lia. done.
    + replace (q - p) with (Z.succ (q - p - 1)) by lia.
      rewrite Z.bits_above_log2; [done | cbn; lia | cbn; lia].
  Qed.

Lemma BIT_neg (p : Z) : p < 0 -> BIT p = 0.
Proof.
  intros Hp. unfold BIT. rewrite Z.shiftl_1_l.
  apply Z.pow_neg_r. done.
Qed.

(** The test [v & (1 << p)] of the sources is a test of bit [p]. *)
Lemma land_BIT_testbit (v p : Z) :
  negb (Z.land v (BIT p) =? 0) = Z.testbit v p.
Proof.
  destruct (Z.ltb_spec p 0) as [Hn|Hp].
  { by rewrite BIT_neg, Z.land_0_r, Z.testbit_neg_r. }
  destruct (Z.testbit v p) eqn:Hv.
  - apply negb_true_iff, Z.eqb_neq. intros H0.
    assert (Z.testbit (Z.land v (BIT p)) p = true) as Ht.
    { rewrite Z.land_spec, Hv, testbit_BIT by done.
      by rewrite bool_decide_eq_true_2. }
    rewrite H0, Z.bits_0 in Ht. done.
  - apply negb_false_iff, Z.eqb_eq. apply Z.bits_inj'. intros n Hn.
    rewrite Z.land_spec, Z.bits_0, testbit_BIT by done.
    case_bool_decide; subst; [by rewrite Hv | by rewrite andb_false_r].
Qed.
(** ** Composing emitted events *)

Lemma drive_app w1 w2 r : drive (w1 ++ w2) r = drive w2 (drive w1 r).
Proof. apply fold_left_app. Qed.

Lemma count_in_app w1 w2 : count_in (w1 ++ w2) = (count_in w1 + count_in w2)%nat.
Proof. unfold count_in. by rewrite filter_app, length_app. Qed.

Lemma after_after m w1 w2 : after (after m w1) w2 = after m (w1 ++ w2).
Proof.
  unfold after; cbn [regs gpio_in in_count trace i2c_delay_cycles scl_gpio
                     sda_gpio ssd1306_buffer ssd1306_i2c_addr].
  f_equal.
  - symmetry; apply drive_app.
  - rewrite count_in_app; lia.
  - symmetry; apply app_assoc.
Qed.

Lemma after_nil m : after m [] = m.
Proof. destruct m; unfold after; cbn. by rewrite app_nil_r. Qed.

Lemma emitted_after m w : emitted m (after m w) = w.
Proof. unfold emitted, after; cbn [trace]. apply drop_app_length. Qed.

Lemma emits_ret {A} (a : A) m : emits (mret a) m a [].
Proof. unfold emits. by rewrite after_nil. Qed.

Lemma emits_bind {A B} (c : M A) (f : A -> M B) m a w1 b w2 :
  emits c m a w1 ->
  emits (f a) (after m w1) b w2 ->
  emits (c ≫= f) m b (w1 ++ w2).
Proof.
  unfold emits, mbind, M_bind. intros -> ->. by rewrite after_after.
Qed.

Lemma payload_all (data : list Z) : payload data 0 (length data) = data.
Proof.
  unfold payload. apply nth_ext with (d := 0) (d' := 0).
  - by rewrite length_map, length_seq.
  - intros n Hn. rewrite length_map, length_seq in Hn.
    rewrite (nth_indep _ 0 (nth 0 data 0)) by (by rewrite length_map, length_seq).
    rewrite (map_nth (fun j => nth j data 0)), seq_nth by done. done.
Qed.


(** ** The events of the bus primitives *)

Import I2C.

Lemma emits_eq {A} (c : M A) m a w w' :
  emits c m a w -> w = w' -> emits c m a w'.
Proof. by intros H <-. Qed.

Lemma emits_get {A} (f : machine -> A) m : emits (get f) m (f m) [].
Proof. unfold emits, get. by rewrite after_nil. Qed.

Lemma emits_busy_wait n m : emits (busy_wait n) m tt [BusyWait n].
Proof. reflexivity. Qed.

Lemma emits_REG_WRITE a v m : emits (REG_WRITE a v) m tt [MmioWrite a v].
Proof. reflexivity. Qed.

Lemma emits_input_read m :
  emits (REG_READ GPIO_IN_REG) m (gpio_in m (in_count m))
        [MmioRead GPIO_IN_REG (gpio_in m (in_count m))].
Proof. reflexivity. Qed.

(** Chains [emits_bind] along a sequence of operations whose events are
    known from the hint database [emits]. *)
Create HintDb emits discriminated.

Ltac emits_step :=
  first
    [ eapply emits_bind; [solve [eauto 2 with emits] | cbv beta]
    | solve [eauto 2 with emits] ].

Ltac emits_chain := repeat emits_step.

#[local] Hint Resolve emits_ret emits_get emits_busy_wait emits_REG_WRITE
  emits_input_read : emits.

Lemma emits_i2c_delay m :
  emits i2c_delay m tt [BusyWait (i2c_delay_cycles m)].
Proof. unfold i2c_delay. eapply emits_eq; [emits_chain | reflexivity]. Qed.
#[local] Hint Resolve emits_i2c_delay : emits.

Lemma emits_scl_high m :
  emits scl_high m tt (release (i2c_delay_cycles m) (scl_gpio m)).
Proof. unfold scl_high. eapply emits_eq; [emits_chain | reflexivity]. Qed.

Lemma emits_scl_low m :
  emits scl_low m tt (pull_low (i2c_delay_cycles m) (scl_gpio m)).
Proof. unfold scl_low. eapply emits_eq; [emits_chain | reflexivity]. Qed.

Lemma emits_sda_high m :
  emits sda_high m tt (release (i2c_delay_cycles m) (sda_gpio m)).
Proof. unfold sda_high. eapply emits_eq; [emits_chain | reflexivity]. Qed.

Lemma emits_sda_low m :
  emits sda_low m tt (pull_low (i2c_delay_cycles m) (sda_gpio m)).
Proof. unfold sda_low. eapply emits_eq; [emits_chain | reflexivity]. Qed.

Lemma emits_sda_read m :
  emits sda_read m
        (negb (Z.land (gpio_in m (in_count m)) (BIT (sda_gpio m)) =? 0))
        [MmioRead GPIO_IN_REG (gpio_in m (in_count m))].
Proof. unfold sda_read. eapply emits_eq; [emits_chain | reflexivity]. Qed.

#[local] Hint Resolve emits_scl_high emits_scl_low emits_sda_high
  emits_sda_low emits_sda_read : emits.

Lemma emits_i2c_start m :
  emits i2c_start m true
        (start_wave (scl_gpio m) (sda_gpio m) (i2c_delay_cycles m)).
Proof. unfold i2c_start. eapply emits_eq; [emits_chain | reflexivity]. Qed.

Lemma emits_i2c_stop m :
  emits i2c_stop m tt
        (stop_wave (scl_gpio m) (sda_gpio m) (i2c_delay_cycles m)).
Proof. unfold i2c_stop. eapply emits_eq; [emits_chain | reflexivity]. Qed.

(** Reading a field of [after m w]. *)
Ltac after_simpl :=
  cbn [after regs gpio_in in_count trace i2c_delay_cycles scl_gpio sda_gpio
       ssd1306_buffer ssd1306_i2c_addr].

Lemma emits_conv {A} (c : M A) m a a' w w' :
  emits c m a w -> a = a' -> w = w' -> emits c m a' w'.
Proof. by intros H <- <-. Qed.

(** Only the acknowledge slot reads the input register. *)
Lemma count_in_release d p : count_in (release d p) = 0%nat.
Proof. reflexivity. Qed.

Lemma count_in_pull_low d p : count_in (pull_low d p) = 0%nat.
Proof. reflexivity. Qed.

Lemma count_in_bit_cell scl sda d b : count_in (bit_cell scl sda d b) = 0%nat.
Proof. by destruct b. Qed.

Lemma count_in_bits_wave scl sda d data n :
  count_in (bits_wave scl sda d data n) = 0%nat.
Proof.
  induction n as [|i IH]; [done|].
  cbn [bits_wave]. by rewrite count_in_app, count_in_bit_cell, IH.
Qed.

Lemma count_in_byte_wave scl sda d data v :
  count_in (byte_wave scl sda d data v) = 1%nat.
Proof. unfold byte_wave. by rewrite count_in_app, count_in_bits_wave. Qed.

Lemma emits_i2c_write_bits data n m :
  emits (i2c_write_bits data n) m tt
        (bits_wave (scl_gpio m) (sda_gpio m) (i2c_delay_cycles m) data n).
Proof.
  revert m. induction n as [|i IH]; intros m; cbn [i2c_write_bits bits_wave].
  - apply emits_ret.
  - rewrite land_BIT_testbit.
    eapply emits_eq.
    + eapply emits_bind.
      { instantiate (2 := tt).
        instantiate (1 := if Z.testbit data (Z.of_nat i)
                          then release (i2c_delay_cycles m) (sda_gpio m)
                          else pull_low (i2c_delay_cycles m) (sda_gpio m)).
        destruct (Z.testbit data (Z.of_nat i)); auto with emits. }
      cbv beta. emits_step. emits_step. apply IH.
    + unfold bit_cell. by rewrite <- !app_assoc.
Qed.
#[local] Hint Resolve emits_i2c_write_bits : emits.

(** [i2c_write_byte] emits the byte's waveform and reports the level it
    sensed in the acknowledge slot. *)
Lemma emits_i2c_write_byte data m :
  let v := gpio_in m (in_count m) in
  emits (i2c_write_byte data) m (acked (sda_gpio m) v)
        (byte_wave (scl_gpio m) (sda_gpio m) (i2c_delay_cycles m) data v).
Proof.
  intros v. unfold i2c_write_byte.
  eapply emits_conv; [emits_chain | |].
  - after_simpl.
    rewrite count_in_bits_wave, !count_in_release, land_BIT_testbit.
    reflexivity.
  - after_simpl.
    rewrite count_in_bits_wave, !count_in_release.
    unfold byte_wave, ack_cell. by rewrite app_nil_r.
Qed.
#[local] Hint Resolve emits_i2c_start emits_i2c_stop : emits.

(** *** Transactions *)

Lemma emits_i2c_write_bytes data i n m :
  let scl := scl_gpio m in
  let sda := sda_gpio m in
  let d := i2c_delay_cycles m in
  let r := bytes_wave scl sda d (payload data i n) (gpio_in m) (in_count m) in
  emits (i2c_write_bytes data i n) m (snd r)
        (fst r ++ if snd r then [] else stop_wave scl sda d).
Proof.
  revert i m. induction n as [|n IH]; intros i m; cbn zeta.
  - apply emits_ret.
  - cbn [i2c_write_bytes payload seq map bytes_wave].
    pose proof (emits_i2c_write_byte (nth i data 0) m) as Hb. cbn zeta in Hb.
    destruct (acked (sda_gpio m) (gpio_in m (in_count m))) eqn:Hack.
    + specialize (IH (S i) (after m (byte_wave (scl_gpio m) (sda_gpio m)
                   (i2c_delay_cycles m) (nth i data 0)
                   (gpio_in m (in_count m))))).
      cbn zeta in IH. revert IH. after_simpl.
      rewrite count_in_byte_wave. cbn [Nat.add]. unfold payload.
      destruct (bytes_wave _ _ _ _ _ _) as [w ok]; cbn [fst snd].
      intros IH. eapply emits_eq.
      { eapply emits_bind; [exact Hb|]. cbv beta. cbn [negb]. exact IH. }
      by rewrite <- app_assoc.
    + cbn [fst snd]. eapply emits_eq.
      { eapply emits_bind; [exact Hb|]. cbv beta. cbn [negb]. emits_chain. }
      after_simpl. by rewrite app_nil_r.
Qed.

Lemma sends_payload data len m :
  sends (sent ← i2c_write_bytes data 0 len;
         if negb sent then mret false else i2c_stop;; mret true)
        (payload data 0 len) m.
Proof.
  unfold sends. cbn zeta.
  pose proof (emits_i2c_write_bytes data 0 len m) as H. cbn zeta in H.
  destruct (bytes_wave _ _ _ _ _ _) as [w ok]. cbn [fst snd] in *.
  destruct ok.
  - eapply emits_eq.
    { eapply emits_bind; [exact H|]. cbv beta. cbn [negb]. emits_chain. }
    after_simpl. by rewrite !app_nil_r.
  - eapply emits_eq.
    { eapply emits_bind; [exact H|]. cbv beta. cbn [negb]. apply emits_ret. }
    by rewrite !app_nil_r.
Qed.

Lemma sends_cons (k : M bool) b bs m :
  (forall m', sends k bs m') ->
  sends (ack ← i2c_write_byte b; if negb ack then i2c_stop;; mret false else k)
        (b :: bs) m.
Proof.
  intros Hk. unfold sends. cbn zeta. cbn [bytes_wave].
  pose proof (emits_i2c_write_byte b m) as Hb. cbn zeta in Hb.
  destruct (acked (sda_gpio m) (gpio_in m (in_count m))) eqn:Hack.
  - specialize (Hk (after m (byte_wave (scl_gpio m) (sda_gpio m)
                   (i2c_delay_cycles m) b (gpio_in m (in_count m))))).
    unfold sends in Hk. cbn zeta in Hk. revert Hk. after_simpl.
    rewrite count_in_byte_wave. cbn [Nat.add].
    destruct (bytes_wave _ _ _ _ _ _) as [w ok]; cbn [fst snd].
    intros Hk. eapply emits_eq.
    { eapply emits_bind; [exact Hb|]. cbv beta. cbn [negb]. exact Hk. }
    by rewrite <- app_assoc.
  - cbn [fst snd]. eapply emits_eq.
    { eapply emits_bind; [exact Hb|]. cbv beta. cbn [negb]. emits_chain. }
    after_simpl. by rewrite app_nil_r.
Qed.

Lemma sends_get {A} (f : machine -> A) (k : A -> M bool) bs m :
  sends (k (f m)) bs m -> sends (a ← get f; k a) bs m.
Proof.
  unfold sends. cbn zeta. intros H.
  unfold emits in *. unfold mbind, M_bind, get. exact H.
Qed.

(** A write transaction is a start, the bytes up to the first one that is
    not acknowledged, and a stop; it succeeds when all were acknowledged. *)
Lemma emits_transaction (k : M bool) (bs : list Z) m :
  (forall m', scl_gpio m' = scl_gpio m -> sda_gpio m' = sda_gpio m ->
              ssd1306_i2c_addr m' = ssd1306_i2c_addr m -> sends k bs m') ->
  let scl := scl_gpio m in
  let sda := sda_gpio m in
  let d := i2c_delay_cycles m in
  emits (started ← i2c_start; if negb started then mret false else k) m
        (snd (bytes_wave scl sda d bs (gpio_in m) (in_count m)))
        (transaction_wave scl sda d bs (gpio_in m) (in_count m)).
Proof.
  intros Hk scl sda d.
  specialize (Hk (after m (start_wave scl sda d)) eq_refl eq_refl eq_refl).
  unfold sends in Hk. cbn zeta in Hk. revert Hk. after_simpl.
  change (count_in (start_wave scl sda d) + in_count m)%nat with (in_count m).
  fold scl sda d. intros Hk.
  unfold transaction_wave.
  eapply emits_bind; [apply emits_i2c_start|]. cbv beta. cbn [negb].
  exact Hk.
Qed.

Lemma emits_i2c_write addr data len m :
  let scl := scl_gpio m in
  let sda := sda_gpio m in
  let d := i2c_delay_cycles m in
  let bs := u8 (Z.shiftl addr 1) :: payload data 0 len in
  emits (i2c_write addr data len) m
        (snd (bytes_wave scl sda d bs (gpio_in m) (in_count m)))
        (transaction_wave scl sda d bs (gpio_in m) (in_count m)).
Proof.
  cbn zeta. unfold i2c_write. apply emits_transaction. intros m' _ _ _.
  apply sends_cons. intros m''. apply sends_payload.
Qed.

Lemma emits_i2c_write_reg addr reg data len m :
  let scl := scl_gpio m in
  let sda := sda_gpio m in
  let d := i2c_delay_cycles m in
  let bs := u8 (Z.shiftl addr 1) :: reg :: payload data 0 len in
  emits (i2c_write_reg addr reg data len) m
        (snd (bytes_wave scl sda d bs (gpio_in m) (in_count m)))
        (transaction_wave scl sda d bs (gpio_in m) (in_count m)).
Proof.
  cbn zeta. unfold i2c_write_reg. apply emits_transaction. intros m' _ _ _.
  apply sends_cons. intros m''. apply sends_cons. intros m3.
  apply sends_payload.
Qed.

(** ** What the monitor sees of each waveform *)

Lemma mon_run_app scl sda st w1 w2 :
  mon_run scl sda st (w1 ++ w2) =
  let (f1, st1) := mon_run scl sda st w1 in
  let (f2, st2) := mon_run scl sda st1 w2 in
  (f1 ++ f2, st2).
Proof.
  revert st. induction w1 as [|e w1 IH]; intros st; cbn [app mon_run].
  - by destruct (mon_run scl sda st w2).
  - destruct (mon_step scl sda st e) as [fs st']. rewrite IH.
    destruct (mon_run scl sda st' w1) as [f1 st1].
    destruct (mon_run scl sda st1 w2) as [f2 st2].
    by rewrite app_assoc.
Qed.

Section MonitorFacts.
Variables scl sda d : Z.
Hypothesis Hscl : 0 <= scl.
Hypothesis Hsda : 0 <= sda.
Hypothesis Hpins : scl <> sda.

Lemma level_set_same p old :
  0 <= p -> level_after GPIO_OUT_W1TS_REG (BIT p) p old = true.
Proof.
  intros Hp. unfold level_after.
  change (GPIO_OUT_W1TS_REG =? GPIO_OUT_W1TS_REG) with true. cbv iota.
  rewrite testbit_BIT, bool_decide_eq_true_2 by done. apply orb_true_r.
Qed.

Lemma level_set_other p q old :
  0 <= p -> 0 <= q -> p <> q ->
  level_after GPIO_OUT_W1TS_REG (BIT p) q old = old.
Proof.
  intros Hp Hq Hpq. unfold level_after.
  change (GPIO_OUT_W1TS_REG =? GPIO_OUT_W1TS_REG) with true. cbv iota.
  rewrite testbit_BIT, bool_decide_eq_false_2 by done. apply orb_false_r.
Qed.

Lemma level_clear_same p old :
  0 <= p -> level_after GPIO_OUT_W1TC_REG (BIT p) p old = false.
Proof.
  intros Hp. unfold level_after.
  change (GPIO_OUT_W1TC_REG =? GPIO_OUT_W1TS_REG) with false.
  change (GPIO_OUT_W1TC_REG =? GPIO_OUT_W1TC_REG) with true. cbv iota.
  rewrite testbit_BIT, bool_decide_eq_true_2 by done. apply andb_false_r.
Qed.

Lemma level_clear_other p q old :
  0 <= p -> 0 <= q -> p <> q ->
  level_after GPIO_OUT_W1TC_REG (BIT p) q old = old.
Proof.
  intros Hp Hq Hpq. unfold level_after.
  change (GPIO_OUT_W1TC_REG =? GPIO_OUT_W1TS_REG) with false.
  change (GPIO_OUT_W1TC_REG =? GPIO_OUT_W1TC_REG) with true. cbv iota.
  rewrite testbit_BIT, bool_decide_eq_false_2 by done. apply andb_true_r.
Qed.

Local Abbreviation run := (mon_run scl sda).
Local Abbreviation edge := mon_edge.

(** Each two-event waveform moves one line. *)
Lemma run_release_sda st w :
  run st (release d sda ++ w) =
  let (f1, st1) := edge st (mon_scl st) true in
  let (f2, st2) := run st1 w in (f1 ++ f2, st2).
Proof.
  unfold release. cbn [app mon_run mon_step].
  rewrite level_set_same, level_set_other by done.
  destruct (edge st (mon_scl st) true) as [f1 st1].
  by destruct (run st1 w).
Qed.

Lemma run_pull_low_sda st w :
  run st (pull_low d sda ++ w) =
  let (f1, st1) := edge st (mon_scl st) false in
  let (f2, st2) := run st1 w in (f1 ++ f2, st2).
Proof.
  unfold pull_low. cbn [app mon_run mon_step].
  rewrite level_clear_same, level_clear_other by done.
  destruct (edge st (mon_scl st) false) as [f1 st1].
  by destruct (run st1 w).
Qed.

Lemma run_release_scl st w :
  run st (release d scl ++ w) =
  let (f1, st1) := edge st true (mon_sda st) in
  let (f2, st2) := run st1 w in (f1 ++ f2, st2).
Proof.
  unfold release. cbn [app mon_run mon_step].
  rewrite level_set_same, level_set_other by done.
  destruct (edge st true (mon_sda st)) as [f1 st1].
  by destruct (run st1 w).
Qed.

Lemma run_pull_low_scl st w :
  run st (pull_low d scl ++ w) =
  let (f1, st1) := edge st false (mon_sda st) in
  let (f2, st2) := run st1 w in (f1 ++ f2, st2).
Proof.
  unfold pull_low. cbn [app mon_run mon_step].
  rewrite level_clear_same, level_clear_other by done.
  destruct (edge st false (mon_sda st)) as [f1 st1].
  by destruct (run st1 w).
Qed.

Lemma run_input_read st v w :
  run st (MmioRead GPIO_IN_REG v :: w) =
  let st1 := match mon_pulse st with
             | Some (b, _) =>
                 mkMonitor (mon_scl st) (mon_sda st)
                           (Some (b, Some (Z.testbit v sda)))
                           (mon_count st) (mon_value st)
             | None => st
             end in
  run st1 w.
Proof.
  cbn [mon_run mon_step].
  change (GPIO_IN_REG =? GPIO_IN_REG) with true. cbv iota.
  destruct (mon_pulse st) as [[b ?]|]; cbn zeta; by destruct (run _ w).
Qed.

(** Moves the monitor across the next line change of a waveform. *)
Ltac mon_next :=
  first [ rewrite run_release_sda | rewrite run_pull_low_sda
        | rewrite run_release_scl | rewrite run_pull_low_scl
        | rewrite run_input_read ];
  cbn [mon_edge mon_scl mon_sda mon_pulse mon_count mon_value
       andb eqb negb fst snd app].

Lemma run_start_wave :
  run mon_idle (start_wave scl sda d) = ([FStart], mon_hold false).
Proof.
  unfold start_wave, mon_idle.
  rewrite <- (app_nil_r (pull_low d scl)).
  repeat mon_next. reflexivity.
Qed.

Lemma run_stop_wave s :
  run (mon_hold s) (stop_wave scl sda d) = ([FStop], mon_idle).
Proof.
  unfold stop_wave, mon_hold.
  rewrite <- (app_nil_r (release d sda)).
  repeat mon_next. reflexivity.
Qed.

Lemma mod_pow2_succ (b i : Z) :
  0 <= i -> b mod 2 ^ (i + 1) = Z.b2z (Z.testbit b i) * 2 ^ i + b mod 2 ^ i.
Proof.
  intros Hi. rewrite Z.pow_add_r, Z.pow_1_r by lia.
  rewrite Z.rem_mul_r by lia. rewrite Z.testbit_spec' by done. lia.
Qed.

(** The data bits accumulate, most significant first, into the value of
    the byte; no start or stop shows up among them. *)
Lemma run_bits_wave b n : forall s cnt acc,
  (cnt + n <= 8)%nat ->
  exists s',
    run (mkMonitor false s None cnt acc) (bits_wave scl sda d b n) =
    ([], mkMonitor false s' None (cnt + n)
           (acc * 2 ^ Z.of_nat n + b mod 2 ^ Z.of_nat n)).
Proof.
  induction n as [|i IH]; intros s cnt acc Hcnt.
  - exists s. cbn [bits_wave mon_run]. rewrite Nat.add_0_r. do 2 f_equal.
    change (2 ^ Z.of_nat 0) with 1. rewrite Z.mod_1_r. lia.
  - cbn [bits_wave]. unfold bit_cell. rewrite <- !app_assoc.
    destruct (IH (Z.testbit b (Z.of_nat i)) (S cnt)
                 (2 * acc + Z.b2z (Z.testbit b (Z.of_nat i))))
      as [s' IH']; [lia|].
    exists s'.
    assert ((cnt <? 8)%nat = true) as Hlt by (apply Nat.ltb_lt; lia).
    destruct (Z.testbit b (Z.of_nat i)) eqn:Hb;
      repeat mon_next; rewrite Hlt, IH'; cbn [app];
      replace (cnt + S i)%nat with (S cnt + i)%nat by lia;
      do 2 f_equal;
      rewrite Nat2Z.inj_succ, <- Z.add_1_r, mod_pow2_succ by lia;
      rewrite Hb, Z.pow_add_r by lia; cbn [Z.b2z]; lia.
Qed.

Lemma run_byte_wave b v s :
  0 <= b < 256 ->
  run (mon_hold s) (byte_wave scl sda d b v) =
  ([FByte b (acked sda v)], mon_hold true).
Proof.
  intros Hb. unfold byte_wave, mon_hold.
  destruct (run_bits_wave b 8 s 0 0) as [s' Hbits]; [lia|].
  rewrite mon_run_app, Hbits. cbn [Nat.add].
  unfold ack_cell. cbn [app].
  rewrite <- (app_nil_r (pull_low d scl)).
  change (MmioRead GPIO_IN_REG v :: pull_low d scl ++ [])
    with ([MmioRead GPIO_IN_REG v] ++ pull_low d scl ++ []).
  repeat mon_next. cbn [Nat.ltb Nat.leb default mon_run app].
  change (2 ^ Z.of_nat 8) with 256. rewrite Z.mod_small by done.
  reflexivity.
Qed.

Lemma run_bytes_wave bs inp : forall k s,
  Forall is_byte bs ->
  exists s',
    run (mon_hold s) (fst (bytes_wave scl sda d bs inp k)) =
    (byte_frames sda bs inp k, mon_hold s').
Proof.
  induction bs as [|b bs IH]; intros k s Hbs.
  - exists s. reflexivity.
  - apply Forall_cons in Hbs as [Hb Hbs]. cbn [bytes_wave byte_frames].
    destruct (acked sda (inp k)) eqn:Hack.
    + destruct (IH (S k) true Hbs) as [s' IH'].
      exists s'. destruct (bytes_wave scl sda d bs inp (S k)) as [w ok].
      cbn [fst] in *.
      by rewrite mon_run_app, run_byte_wave, IH', Hack by done.
    + exists true. cbn [fst]. by rewrite run_byte_wave, Hack by done.
Qed.

(** A transaction seen from the wire. *)
Lemma run_transaction_wave bs inp k :
  Forall is_byte bs ->
  run mon_idle (transaction_wave scl sda d bs inp k) =
  (FStart :: byte_frames sda bs inp k ++ [FStop], mon_idle).
Proof.
  intros Hbs. unfold transaction_wave.
  destruct (run_bytes_wave bs inp k false Hbs) as [s' Hrun].
  by rewrite mon_run_app, run_start_wave, mon_run_app, Hrun, run_stop_wave.
Qed.
End MonitorFacts.

(** ** The bus master: transactions *)

Lemma exec_emits {A} (c : M A) m a w : emits c m a w -> exec c m = after m w.
Proof. unfold emits, exec. by intros ->. Qed.

Lemma eval_emits {A} (c : M A) m a w : emits c m a w -> eval c m = a.
Proof. unfold emits, eval. by intros ->. Qed.

Lemma emitted_emits {A} (c : M A) m a w :
  emits c m a w -> emitted m (exec c m) = w.
Proof. intros H. rewrite (exec_emits _ _ _ _ H). apply emitted_after. Qed.

Lemma mon_of_idle m : bus_idle m -> mon_of m = mon_idle.
Proof. intros [Hc Hd]. unfold mon_of. by rewrite Hc, Hd. Qed.

(** After the stop condition both lines are released. *)
Lemma drive_stop_wave_idle scl sda d w r :
  0 <= scl -> 0 <= sda ->
  let out := drive (w ++ stop_wave scl sda d) r GPIO_OUT_REG in
  Z.testbit out scl = true /\ Z.testbit out sda = true.
Proof.
  intros Hscl Hsda. cbn zeta. rewrite drive_app.
  set (r' := drive w r). unfold stop_wave, release, pull_low.
  cbn [app drive fold_left]. unfold mmio_store.
  change (GPIO_OUT_W1TS_REG =? GPIO_OUT_W1TS_REG) with true.
  change (GPIO_OUT_W1TC_REG =? GPIO_OUT_W1TS_REG) with false.
  change (GPIO_OUT_W1TC_REG =? GPIO_OUT_W1TC_REG) with true.
  cbv iota. unfold upd. change (GPIO_OUT_REG =? GPIO_OUT_REG) with true.
  cbv iota. rewrite !Z.lor_spec, !testbit_BIT by done.
  rewrite (bool_decide_eq_true_2 (scl = scl)) by done.
  rewrite (bool_decide_eq_true_2 (sda = sda)) by done.
  by rewrite !orb_true_r.
Qed.

Lemma bytes_wave_ok_all_acked scl sda d bs inp k :
  snd (bytes_wave scl sda d bs inp k) = all_acked (byte_frames sda bs inp k).
Proof.
  revert k. induction bs as [|b bs IH]; intros k; [done|].
  cbn [bytes_wave byte_frames].
  destruct (acked sda (inp k)); [|done].
  specialize (IH (S k)).
  destruct (bytes_wave scl sda d bs inp (S k)) as [w ok]. exact IH.
Qed.

Lemma byte_frames_are_bytes sda bs inp k :
  Forall is_byte_frame (byte_frames sda bs inp k).
Proof.
  revert k. induction bs as [|b bs IH]; intros k; cbn [byte_frames].
  - constructor.
  - destruct (acked sda (inp k)); repeat constructor. apply IH.
Qed.

Lemma payload_bytes data i n : Forall is_byte data -> Forall is_byte (payload data i n).
Proof.
  intros Hd. unfold payload. apply Forall_forall. intros b Hb.
  apply list_elem_of_In, in_map_iff in Hb as (j & <- & _).
  destruct (Nat.lt_ge_cases j (length data)) as [Hj|Hj].
  - rewrite Forall_forall in Hd. apply Hd, list_elem_of_In, nth_In, Hj.
  - rewrite nth_overflow by done. unfold is_byte. lia.
Qed.

Lemma u8_is_byte z : is_byte (u8 z).
Proof. unfold is_byte, u8. apply Z.mod_pos_bound. lia. Qed.

(** Any computation that emits one transaction waveform is a closed
    transaction. *)
Lemma transaction_closed (c : M bool) bs m :
  valid_pins m -> bus_idle m -> Forall is_byte bs ->
  emits c m
    (snd (bytes_wave (scl_gpio m) (sda_gpio m) (i2c_delay_cycles m) bs
            (gpio_in m) (in_count m)))
    (transaction_wave (scl_gpio m) (sda_gpio m) (i2c_delay_cycles m) bs
            (gpio_in m) (in_count m)) ->
  closed_transaction c m.
Proof.
  intros (Hscl & Hsda & Hne) Hidle Hbs Hc. unfold closed_transaction.
  cbn zeta. rewrite (emitted_emits _ _ _ _ Hc), (eval_emits _ _ _ _ Hc),
    (exec_emits _ _ _ _ Hc).
  split; [|split].
  - by eexists.
  - exists (byte_frames (sda_gpio m) bs (gpio_in m) (in_count m)).
    split; [|split].
    + unfold frames_of, observe. rewrite mon_of_idle by done.
      rewrite run_transaction_wave; [done | lia | lia | exact Hne | exact Hbs].
    + apply byte_frames_are_bytes.
    + apply bytes_wave_ok_all_acked.
  - unfold bus_idle, transaction_wave. after_simpl.
    rewrite app_assoc. apply drive_stop_wave_idle; lia.
Qed.

(** C3. Every [i2c_write] and every [i2c_write_reg], whatever the address,
    the payload and the acknowledgements, is a closed transaction: the
    start condition it issues is followed by a stop condition before it
    returns, also when a byte is not acknowledged, in which case it returns
    false; the bus is idle (both lines released) afterwards. *)
Theorem write_transactions_are_closed
    (m : machine) (addr reg : Z) (data : list Z) (len : nat) :
  valid_pins m -> bus_idle m -> is_byte reg -> Forall is_byte data ->
  closed_transaction (i2c_write addr data len) m /\
  closed_transaction (i2c_write_reg addr reg data len) m.
Proof.
  intros Hpins Hidle Hreg Hdata. split.
  - apply (transaction_closed _ (u8 (Z.shiftl addr 1) :: payload data 0 len));
      [done | done | | apply emits_i2c_write].
    apply Forall_cons; split; [apply u8_is_byte | by apply payload_bytes].
  - apply (transaction_closed _
             (u8 (Z.shiftl addr 1) :: reg :: payload data 0 len));
      [done | done | | apply emits_i2c_write_reg].
    apply Forall_cons; split; [apply u8_is_byte|].
    apply Forall_cons; split; [done | by apply payload_bytes].
Qed.

Lemma byte_frames_acked sda bs inp k :
  (forall j, (j < length bs)%nat -> acked sda (inp (k + j)%nat) = true) ->
  byte_frames sda bs inp k = map (fun b => FByte b true) bs.
Proof.
  revert k. induction bs as [|b bs IH]; intros k Hack; [done|].
  cbn [byte_frames map].
  pose proof (Hack 0%nat) as H0. rewrite Nat.add_0_r in H0.
  rewrite H0 by (cbn; lia). f_equal. apply IH. intros j Hj.
  replace (S k + j)%nat with (k + S j)%nat by lia. apply Hack. cbn; lia.
Qed.

(** C4. A fully acknowledged [i2c_write_reg addr reg data N] with a 7-bit
    address puts on the wire, in this order and nothing else: the start
    condition, the byte [addr << 1] (whose bit 0, the read/write bit, is 0
    for a write, and whose upper seven bits are the address as the caller
    gave it), the byte [reg], the [N] data bytes in order, and the stop
    condition.  It returns true. *)
Theorem i2c_write_reg_byte_sequence
    (m : machine) (addr reg : Z) (data : list Z) :
  valid_pins m -> bus_idle m ->
  0 <= addr < 128 -> is_byte reg -> Forall is_byte data ->
  acks_next m (2 + length data) ->
  let c := i2c_write_reg addr reg data (length data) in
  eval c m = true /\
  frames_of m (emitted m (exec c m)) =
    FStart :: FByte (Z.shiftl addr 1) true :: FByte reg true
           :: map (fun b => FByte b true) data ++ [FStop] /\
  Z.testbit (Z.shiftl addr 1) 0 = false /\
  Z.shiftr (Z.shiftl addr 1) 1 = addr.
Proof.
  intros (Hscl & Hsda & Hne) Hidle Haddr Hreg Hdata Hacks c.
  pose proof (emits_i2c_write_reg addr reg data (length data) m) as Hc.
  cbn zeta in Hc. fold c in Hc. rewrite payload_all in Hc.
  assert (u8 (Z.shiftl addr 1) = Z.shiftl addr 1) as Hu8.
  { unfold u8. rewrite Z.shiftl_mul_pow2 by lia. apply Z.mod_small. lia. }
  rewrite Hu8 in Hc.
  set (bs := Z.shiftl addr 1 :: reg :: data) in Hc.
  assert (Forall is_byte bs) as Hbs.
  { apply Forall_cons; split; [rewrite <- Hu8; apply u8_is_byte|].
    apply Forall_cons; split; done. }
  assert (byte_frames (sda_gpio m) bs (gpio_in m) (in_count m)
          = map (fun b => FByte b true) bs) as Hframes.
  { apply byte_frames_acked. intros j Hj. apply Hacks. exact Hj. }
  rewrite (eval_emits _ _ _ _ Hc), (emitted_emits _ _ _ _ Hc).
  split; [|split; [|split]].
  - rewrite bytes_wave_ok_all_acked, Hframes. unfold all_acked.
    apply forallb_forall. intros f Hf. apply in_map_iff in Hf as (b & <- & _).
    done.
  - unfold frames_of, observe. rewrite mon_of_idle by done.
    rewrite run_transaction_wave; [|lia|lia|exact Hne|exact Hbs]. cbn [fst].
    by rewrite Hframes.
  - rewrite Z.shiftl_spec by lia. apply Z.testbit_neg_r. lia.
  - rewrite Z.shiftr_shiftl_l by lia. apply Z.shiftl_0_r.
Qed.

(** ** The bus master: one byte *)

(** C5. [i2c_write_byte b] drives bits 7 down to 0 of [b] onto the data
    line, each set up before its clock pulse (high, then low), then
    releases the data line and pulses the clock once more, reading the
    input register during that pulse; it returns true exactly when the
    data line was sensed low.  Entered with the clock low, the data line
    never moves while the clock is high: the wire shows one byte, of value
    [b], and neither a start nor a stop. *)
Theorem i2c_write_byte_waveform (m : machine) (b : Z) (s : bool) :
  valid_pins m -> is_byte b ->
  let scl := scl_gpio m in
  let sda := sda_gpio m in
  let d := i2c_delay_cycles m in
  let v := gpio_in m (in_count m) in
  let w := emitted m (exec (i2c_write_byte b) m) in
  w = flat_map (fun i => bit_cell scl sda d (Z.testbit b i))
               [7; 6; 5; 4; 3; 2; 1; 0]
      ++ release d sda ++ release d scl
      ++ [MmioRead GPIO_IN_REG v] ++ pull_low d scl /\
  eval (i2c_write_byte b) m = negb (Z.testbit v sda) /\
  mon_run scl sda (mon_hold s) w =
    ([FByte b (negb (Z.testbit v sda))], mon_hold true).
Proof.
  intros (Hscl & Hsda & Hne) Hb. cbn zeta.
  pose proof (emits_i2c_write_byte b m) as Hc. cbn zeta in Hc.
  rewrite (eval_emits _ _ _ _ Hc), (emitted_emits _ _ _ _ Hc).
  split; [|split].
  - unfold byte_wave, ack_cell. cbn [bits_wave flat_map Z.of_nat Pos.of_succ_nat
                                        Pos.succ].
    by rewrite <- !app_assoc.
  - reflexivity.
  - rewrite run_byte_wave; [reflexivity|lia|lia|exact Hne|exact Hb].
Qed.

(** ** The display driver on the wire *)

Import SSD1306.

Lemma ssd1306_init_shape config :
  ssd1306_init config =
  (set_ssd1306_i2c_addr (i2c_addr config);;
   i2c_init {| I2C.scl_pin := scl_pin config;
               I2C.sda_pin := sda_pin config;
               I2C.freq_hz := 400000 |};;
   busy_wait 100000;;
   send_then bringup_commands (ssd1306_clear;; ssd1306_display;; mret true)).
Proof.
  unfold ssd1306_init, bringup_commands. cbn [send_then].
  change (u8 (SSD1306_HEIGHT - 1)) with 0x3F.
  change (u8 (Z.lor SSD1306_CMD_SET_START_LINE 0x00)) with 0x40.
  change (u8 (Z.lor SSD1306_CMD_SEG_REMAP 0x01)) with 0xA1.
  reflexivity.
Qed.

Lemma ssd1306_display_shape :
  ssd1306_display =
  send_then window_commands
    (fb ← get ssd1306_buffer;
     ssd1306_send_data fb (Z.to_nat BUFFER_SIZE);; mret tt).
Proof.
  unfold ssd1306_display, window_commands. cbn [send_then].
  change (u8 (SSD1306_WIDTH - 1)) with 127.
  change (u8 (SSD1306_HEIGHT / 8 - 1)) with 7.
  reflexivity.
Qed.

Lemma emits_ssd1306_send_command cmd m :
  let scl := scl_gpio m in
  let sda := sda_gpio m in
  let d := i2c_delay_cycles m in
  let a := address_byte (ssd1306_i2c_addr m) in
  emits (ssd1306_send_command cmd) m
        (snd (bytes_wave scl sda d [a; 0x80; cmd] (gpio_in m) (in_count m)))
        (command_wave scl sda d (ssd1306_i2c_addr m) cmd
                      (gpio_in m) (in_count m)).
Proof.
  cbn zeta. unfold ssd1306_send_command. cbn zeta.
  eapply emits_eq.
  { eapply emits_bind; [apply emits_get|]. cbv beta.
    exact (emits_i2c_write _ _ _ _). }
  reflexivity.
Qed.

Lemma emits_send_then {A} (cmds : list Z) (k : M A) a wk : forall m,
  let scl := scl_gpio m in
  let sda := sda_gpio m in
  let d := i2c_delay_cycles m in
  let w := commands_wave scl sda d (ssd1306_i2c_addr m) cmds
                         (gpio_in m) (in_count m) in
  emits k (after m w) a wk ->
  emits (send_then cmds k) m a (w ++ wk).
Proof.
  induction cmds as [|c cs IH]; intros m; cbn zeta;
    cbn [send_then commands_wave].
  - by rewrite after_nil.
  - intros Hk. rewrite <- app_assoc.
    eapply emits_bind; [apply emits_ssd1306_send_command|]. cbv beta.
    apply IH. after_simpl. by rewrite after_after.
Qed.

Lemma emits_ssd1306_send_data data len m :
  let scl := scl_gpio m in
  let sda := sda_gpio m in
  let d := i2c_delay_cycles m in
  let bs := address_byte (ssd1306_i2c_addr m) :: 0x40 :: payload data 0 len in
  emits (ssd1306_send_data data len) m
        (snd (bytes_wave scl sda d bs (gpio_in m) (in_count m)))
        (data_wave scl sda d (ssd1306_i2c_addr m) (payload data 0 len)
                   (gpio_in m) (in_count m)).
Proof.
  cbn zeta. unfold ssd1306_send_data, data_wave.
  apply emits_transaction. intros m' _ _ Haddr.
  apply sends_get. rewrite Haddr.
  apply sends_cons. intros m''. apply sends_cons. intros m3.
  apply sends_payload.
Qed.

Lemma emits_ssd1306_display m :
  emits ssd1306_display m tt
        (display_wave (scl_gpio m) (sda_gpio m) (i2c_delay_cycles m)
                      (ssd1306_i2c_addr m) (ssd1306_buffer m)
                      (gpio_in m) (in_count m)).
Proof.
  rewrite ssd1306_display_shape. unfold display_wave. cbn zeta.
  apply emits_send_then. cbn zeta.
  eapply emits_eq.
  { eapply emits_bind; [apply emits_get|]. cbv beta.
    eapply emits_bind; [apply emits_ssd1306_send_data|]. apply emits_ret. }
  after_simpl. by rewrite app_nil_r.
Qed.

(** *** Bus setup *)

Lemma emits_reg_read a m :
  (a =? GPIO_IN_REG) = false ->
  emits (REG_READ a) m (regs m a) [MmioRead a (regs m a)].
Proof.
  intros Ha. unfold emits, REG_READ, after, count_in. rewrite Ha.
  rewrite filter_cons_False by (cbn [is_input_read]; by rewrite Ha).
  reflexivity.
Qed.

Lemma mux_reg_not_input p :
  0 <= p <= 21 -> (GPIO_PIN_MUX_REG p =? GPIO_IN_REG) = false.
Proof.
  intros Hp. apply Z.eqb_neq.
  unfold GPIO_PIN_MUX_REG, GPIO_IN_REG, IO_MUX_BASE, GPIO_BASE. lia.
Qed.

Lemma emits_gpio_set_opendrain p m :
  emits (gpio_set_opendrain p) m tt (opendrain_wave p (regs m)).
Proof.
  unfold gpio_set_opendrain, opendrain_wave.
  destruct ((p <? 0) || (p >? 21)) eqn:Hrange; [apply emits_ret|].
  apply orb_false_iff in Hrange as [H0 H21].
  apply Z.ltb_ge in H0. rewrite Z.gtb_ltb in H21. apply Z.ltb_ge in H21.
  eapply emits_eq.
  { eapply emits_bind;
      [apply emits_reg_read, mux_reg_not_input; lia|]. cbv beta zeta.
    eapply emits_bind; [apply emits_REG_WRITE|]. cbv beta.
    unfold REG_SET_BIT.
    eapply emits_bind; [by apply emits_reg_read|]. cbv beta.
    apply emits_REG_WRITE. }
  reflexivity.
Qed.

Lemma count_in_opendrain_wave p r : count_in (opendrain_wave p r) = 0%nat.
Proof.
  unfold opendrain_wave.
  destruct ((p <? 0) || (p >? 21)) eqn:Hrange; [done|].
  apply orb_false_iff in Hrange as [H0 H21].
  apply Z.ltb_ge in H0. rewrite Z.gtb_ltb in H21. apply Z.ltb_ge in H21.
  cbn zeta. unfold count_in.
  rewrite filter_cons_False
    by (cbn [is_input_read]; rewrite mux_reg_not_input by lia; done).
  reflexivity.
Qed.

Lemma count_in_i2c_init_wave scl sda d r :
  count_in (i2c_init_wave scl sda d r) = 0%nat.
Proof.
  unfold i2c_init_wave. cbn zeta.
  by rewrite !count_in_app, !count_in_opendrain_wave, !count_in_release.
Qed.

(** [i2c_init] stores the bus parameters, then configures and releases
    the two pins. *)
Lemma i2c_init_spec (cfg : i2c_config_t) m :
  let d := (160000000 / freq_hz cfg) / 4 in
  let m1 := exec (set_i2c_statics d (I2C.scl_pin cfg) (I2C.sda_pin cfg)) m in
  i2c_init cfg m =
  (tt, after m1 (i2c_init_wave (I2C.scl_pin cfg) (I2C.sda_pin cfg) d (regs m))).
Proof.
  cbn zeta. unfold i2c_init.
  set (m1 := exec (set_i2c_statics _ _ _) m).
  change ((set_i2c_statics (160000000 / freq_hz cfg / 4) (I2C.scl_pin cfg)
             (I2C.sda_pin cfg) ≫= _) m)
    with ((scl ← get scl_gpio; sda ← get sda_gpio;
           gpio_set_opendrain scl;; gpio_set_opendrain sda;;
           sda_high;; scl_high) m1).
  assert (emits (scl ← get scl_gpio; sda ← get sda_gpio;
                 gpio_set_opendrain scl;; gpio_set_opendrain sda;;
                 sda_high;; scl_high) m1 tt
            (i2c_init_wave (I2C.scl_pin cfg) (I2C.sda_pin cfg)
               (160000000 / freq_hz cfg / 4) (regs m))) as H; [|exact H].
  eapply emits_eq.
  { eapply emits_bind; [apply emits_get|]. cbv beta.
    eapply emits_bind; [apply emits_get|]. cbv beta.
    eapply emits_bind; [apply emits_gpio_set_opendrain|]. cbv beta.
    eapply emits_bind; [apply emits_gpio_set_opendrain|]. cbv beta.
    eapply emits_bind; [apply emits_sda_high|]. cbv beta.
    apply emits_scl_high. }
  reflexivity.
Qed.

(** *** Initialization as a whole *)

Lemma send_then_run {A} (cmds : list Z) (k : M A) : forall m,
  send_then cmds k m =
  k (after m (commands_wave (scl_gpio m) (sda_gpio m) (i2c_delay_cycles m)
                (ssd1306_i2c_addr m) cmds (gpio_in m) (in_count m))).
Proof.
  induction cmds as [|c cs IH]; intros m; cbn [send_then commands_wave].
  - by rewrite after_nil.
  - pose proof (emits_ssd1306_send_command c m) as Hc. cbn zeta in Hc.
    unfold emits in Hc. unfold mbind, M_bind. rewrite Hc.
    rewrite IH. after_simpl. by rewrite after_after.
Qed.

Lemma bind_run {A B} (c : M A) (f : A -> M B) m :
  (c ≫= f) m = f (eval c m) (exec c m).
Proof. unfold mbind, M_bind, eval, exec. by destruct (c m). Qed.

Lemma exec_bind {A B} (c : M A) (f : A -> M B) m :
  exec (c ≫= f) m = exec (f (eval c m)) (exec c m).
Proof. unfold exec at 1. by rewrite bind_run. Qed.

Lemma eval_bind {A B} (c : M A) (f : A -> M B) m :
  eval (c ≫= f) m = eval (f (eval c m)) (exec c m).
Proof. unfold eval at 1. by rewrite bind_run. Qed.

Lemma settled_eq config m :
  let mc := configured config m in
  settled config m =
  after mc (i2c_init_wave (scl_pin config) (sda_pin config) 100 (regs m)
            ++ [BusyWait 100000]).
Proof.
  cbn zeta. unfold settled, ssd1306_init_setup, exec.
  unfold mbind, M_bind. cbn [set_ssd1306_i2c_addr].
  rewrite i2c_init_spec. cbn zeta. cbn [busy_wait log snd].
  rewrite <- after_after. reflexivity.
Qed.

Lemma settled_in_count config m : in_count (settled config m) = in_count m.
Proof.
  rewrite settled_eq. cbn zeta. after_simpl.
  rewrite count_in_app, count_in_i2c_init_wave. reflexivity.
Qed.

Lemma ssd1306_init_spec config m :
  let ms := settled config m in
  let scl := scl_pin config in
  let sda := sda_pin config in
  let a := i2c_addr config in
  let w1 := commands_wave scl sda 100 a bringup_commands
                          (gpio_in m) (in_count m) in
  let w2 := display_wave scl sda 100 a blank
                         (gpio_in m) (count_in w1 + in_count m) in
  ssd1306_init config m = (true, after (with_buffer blank (after ms w1)) w2).
Proof.
  cbn zeta. rewrite ssd1306_init_shape.
  rewrite !bind_run.
  replace (exec (busy_wait 100000) _) with (settled config m)
    by (unfold settled, ssd1306_init_setup; by rewrite !exec_bind).
  pose proof (settled_in_count config m) as Hk.
  assert (scl_gpio (settled config m) = scl_pin config /\
          sda_gpio (settled config m) = sda_pin config /\
          i2c_delay_cycles (settled config m) = 100 /\
          ssd1306_i2c_addr (settled config m) = i2c_addr config /\
          gpio_in (settled config m) = gpio_in m) as (Hc & Hd & Hdel & Ha & Hin).
  { rewrite settled_eq. cbn zeta. done. }
  set (ms := settled config m) in *.
  rewrite send_then_run. rewrite Hc, Hd, Hdel, Ha, Hin, Hk.
  set (w1 := commands_wave _ _ _ _ _ _ _).
  rewrite !bind_run.
  change (exec ssd1306_clear (after ms w1))
    with (with_buffer blank (after ms w1)).
  rewrite (exec_emits _ _ _ _ (emits_ssd1306_display _)).
  cbn [mret M_ret]. do 2 f_equal.
  unfold with_buffer. cbn [exec snd set_ssd1306_buffer]. after_simpl.
  by rewrite Hc, Hd, Hdel, Ha, Hin, Hk.
Qed.

(** *** Frames of the display transactions *)

Section DisplayFrames.
Variables scl sda d addr : Z.
Variable inp : nat -> Z.
Hypothesis Hscl : 0 <= scl.
Hypothesis Hsda : 0 <= sda.
Hypothesis Hpins : scl <> sda.
Hypothesis Hacks : forall k, acked sda (inp k) = true.

Lemma run_command_wave cmd k :
  is_byte cmd ->
  mon_run scl sda mon_idle (command_wave scl sda d addr cmd inp k) =
  (command_txn addr cmd, mon_idle).
Proof.
  intros Hcmd. unfold command_wave.
  rewrite run_transaction_wave; try done.
  - by rewrite byte_frames_acked by (intros; apply Hacks).
  - apply Forall_cons; split; [apply u8_is_byte|].
    apply Forall_cons; split; [unfold is_byte; lia|].
    apply Forall_cons; split; [done | constructor].
Qed.

Lemma run_commands_wave cmds : forall k,
  Forall is_byte cmds ->
  mon_run scl sda mon_idle (commands_wave scl sda d addr cmds inp k) =
  (flat_map (command_txn addr) cmds, mon_idle).
Proof.
  induction cmds as [|c cs IH]; intros k Hcs; [done|].
  apply Forall_cons in Hcs as [Hc Hcs].
  cbn [commands_wave flat_map].
  by rewrite mon_run_app, run_command_wave, IH.
Qed.

Lemma run_data_wave data k :
  Forall is_byte data ->
  mon_run scl sda mon_idle (data_wave scl sda d addr data inp k) =
  (data_txn addr data, mon_idle).
Proof.
  intros Hdata. unfold data_wave.
  rewrite run_transaction_wave; try done.
  - by rewrite byte_frames_acked by (intros; apply Hacks).
  - apply Forall_cons; split; [apply u8_is_byte|].
    apply Forall_cons; split; [unfold is_byte; lia | done].
Qed.

Lemma window_commands_bytes : Forall is_byte window_commands.
Proof.
  apply Forall_forall. intros b Hb. apply list_elem_of_In in Hb.
  cbn [In window_commands bringup_commands] in Hb.
  unfold is_byte. intuition lia.
Qed.

Lemma bringup_commands_bytes : Forall is_byte bringup_commands.
Proof.
  apply Forall_forall. intros b Hb. apply list_elem_of_In in Hb.
  cbn [In window_commands bringup_commands] in Hb.
  unfold is_byte. intuition lia.
Qed.

Lemma run_display_wave fb k :
  Forall is_byte fb ->
  mon_run scl sda mon_idle (display_wave scl sda d addr fb inp k) =
  (flat_map (command_txn addr) window_commands
     ++ data_txn addr (payload fb 0 (Z.to_nat SSD1306.BUFFER_SIZE)),
   mon_idle).
Proof.
  intros Hfb. unfold display_wave. cbn zeta.
  rewrite mon_run_app, run_commands_wave by apply window_commands_bytes.
  by rewrite run_data_wave by (by apply payload_bytes).
Qed.
End DisplayFrames.

Lemma count_starts_app fs1 fs2 :
  count_starts (fs1 ++ fs2) = (count_starts fs1 + count_starts fs2)%nat.
Proof.
  induction fs1 as [|[| |v a] fs1 IH]; cbn [app count_starts]; lia.
Qed.

Lemma count_starts_bytes (bs : list Z) :
  count_starts (map (fun b => FByte b true) bs) = 0%nat.
Proof. induction bs; [done|]. exact IHbs. Qed.

Lemma count_starts_data_txn addr data : count_starts (data_txn addr data) = 1%nat.
Proof.
  unfold data_txn. cbn [count_starts].
  by rewrite count_starts_app, count_starts_bytes.
Qed.

(** What [ssd1306_display] puts on the wire when every byte is
    acknowledged. *)
Lemma display_frames m :
  valid_pins m -> bus_idle m -> always_acks m ->
  Forall is_byte (ssd1306_buffer m) ->
  frames_of m (emitted m (exec ssd1306_display m)) =
  flat_map (command_txn (ssd1306_i2c_addr m)) window_commands
    ++ data_txn (ssd1306_i2c_addr m)
                (payload (ssd1306_buffer m) 0 (Z.to_nat SSD1306.BUFFER_SIZE)).
Proof.
  intros (Hscl & Hsda & Hne) Hidle Hacks Hfb.
  rewrite (emitted_emits _ _ _ _ (emits_ssd1306_display m)).
  unfold frames_of, observe. rewrite mon_of_idle by done.
  rewrite run_display_wave; try done; lia.
Qed.

Lemma drive_release_both scl sda d r :
  0 <= scl -> 0 <= sda ->
  let out := drive (release d scl) (drive (release d sda) r) GPIO_OUT_REG in
  Z.testbit out scl = true /\ Z.testbit out sda = true.
Proof.
  intros Hscl Hsda. cbn zeta.
  unfold release. cbn [drive fold_left]. unfold mmio_store.
  change (GPIO_OUT_W1TS_REG =? GPIO_OUT_W1TS_REG) with true.
  cbv iota. unfold upd. change (GPIO_OUT_REG =? GPIO_OUT_REG) with true.
  cbv iota. rewrite !Z.lor_spec, !testbit_BIT by done.
  rewrite (bool_decide_eq_true_2 (scl = scl)) by done.
  rewrite (bool_decide_eq_true_2 (sda = sda)) by done.
  by rewrite !orb_true_r.
Qed.

(** The bus is idle when [ssd1306_init] has set it up. *)
Lemma settled_bus_idle config m :
  0 <= SSD1306.scl_pin config -> 0 <= SSD1306.sda_pin config ->
  bus_idle (settled config m).
Proof.
  intros Hscl Hsda. rewrite settled_eq. cbn zeta. unfold bus_idle.
  after_simpl. unfold configured. after_simpl.
  rewrite drive_app. cbn [drive fold_left].
  unfold i2c_init_wave. cbn zeta. rewrite !drive_app.
  by apply drive_release_both.
Qed.

Lemma blank_length : length blank = Z.to_nat SSD1306.BUFFER_SIZE.
Proof. unfold blank. apply length_replicate. Qed.

Lemma blank_bytes : Forall is_byte blank.
Proof.
  apply Forall_forall. intros b Hb.
  apply elem_of_replicate in Hb as [-> _]. unfold is_byte; lia.
Qed.

Lemma payload_blank : payload blank 0 (Z.to_nat SSD1306.BUFFER_SIZE) = blank.
Proof. rewrite <- blank_length. apply payload_all. Qed.

(** What [ssd1306_init] puts on the wire after the settle delay when every
    byte is acknowledged. *)
Lemma init_frames config m :
  let ms := settled config m in
  let a := SSD1306.i2c_addr config in
  0 <= SSD1306.scl_pin config -> 0 <= SSD1306.sda_pin config ->
  SSD1306.scl_pin config <> SSD1306.sda_pin config ->
  (forall k, acked (SSD1306.sda_pin config) (gpio_in m k) = true) ->
  frames_of ms (emitted ms (exec (SSD1306.ssd1306_init config) m)) =
  flat_map (command_txn a) bringup_commands
    ++ flat_map (command_txn a) window_commands
    ++ data_txn a blank.
Proof.
  intros ms a Hscl Hsda Hne Hacks.
  unfold exec. rewrite ssd1306_init_spec. cbn zeta. cbn [snd].
  fold ms. set (w1 := commands_wave _ _ _ _ _ _ _).
  set (w2 := display_wave _ _ _ _ _ _ _).
  assert (emitted ms (after (with_buffer blank (after ms w1)) w2) = w1 ++ w2)
    as ->.
  { unfold emitted, with_buffer. cbn [exec snd set_ssd1306_buffer].
    after_simpl. rewrite <- app_assoc. apply drop_app_length. }
  unfold frames_of, observe.
  rewrite mon_of_idle by (by apply settled_bus_idle).
  assert (scl_gpio ms = SSD1306.scl_pin config /\
          sda_gpio ms = SSD1306.sda_pin config) as [-> ->].
  { unfold ms. rewrite settled_eq. done. }
  unfold w1, w2.
  rewrite mon_run_app, run_commands_wave
    by (done || apply bringup_commands_bytes).
  rewrite run_display_wave; [|done|done|done|done|].
  - cbn [fst]. by rewrite payload_blank.
  - apply Forall_forall. intros b Hb. apply elem_of_replicate in Hb as [-> _].
    unfold is_byte; lia.
Qed.

(** ** The display driver: initialization and refresh *)

(** C1 (amended). On a bus set up for two different valid pins, with a
    device that acknowledges, the transactions [ssd1306_init] issues once
    the settle delay is over are, in this order: the 25 bring-up commands
    from display-off to display-on (with the segment-remap command 0xA1,
    the scan-direction command 0xC8, and the contrast command 0x81 followed
    by its level byte), each in a transaction of its own made of the
    address byte, the control byte 0x80 and the command byte; then the
    transactions of the first refresh of the cleared framebuffer. *)
Theorem ssd1306_init_command_sequence
    (config : SSD1306.ssd1306_config_t) (m : machine) :
  0 <= SSD1306.scl_pin config <= 21 ->
  0 <= SSD1306.sda_pin config <= 21 ->
  SSD1306.scl_pin config <> SSD1306.sda_pin config ->
  (forall k, acked (SSD1306.sda_pin config) (gpio_in m k) = true) ->
  let ms := settled config m in
  let a := SSD1306.i2c_addr config in
  exists level,
    frames_of ms (emitted ms (exec (SSD1306.ssd1306_init config) m)) =
    flat_map (command_txn a)
      [0xAE; 0xD5; 0x80; 0xA8; 0x3F; 0xD3; 0x00; 0x40; 0x8D; 0x14; 0x20;
       0x00; 0xA1; 0xC8; 0xDA; 0x12; 0x81; level; 0xD9; 0xF1; 0xDB; 0x40;
       0xA4; 0xA6; 0xAF]
    ++ flat_map (command_txn a) window_commands
    ++ data_txn a blank.
Proof.
  intros Hscl Hsda Hne Hacks ms a. exists 0xCF.
  apply init_frames; (lia || done).
Qed.

(** C2 (amended). Whatever the framebuffer holds, on an idle bus with a
    device that acknowledges, [ssd1306_display] issues six command
    transactions, one per byte of the two range commands (0x21, 0, 127 for
    columns 0..127; 0x22, 0, 7 for pages 0..7), and then sends the whole
    framebuffer in one transaction: one start, the address byte, the
    control byte 0x40, the 1024 bytes in order, one stop.  That is seven
    transactions; the framebuffer is left as it was. *)
Theorem ssd1306_display_transactions (m : machine) :
  valid_pins m -> bus_idle m -> always_acks m ->
  length (ssd1306_buffer m) = Z.to_nat SSD1306.BUFFER_SIZE ->
  Forall is_byte (ssd1306_buffer m) ->
  let a := ssd1306_i2c_addr m in
  let fs := frames_of m (emitted m (exec SSD1306.ssd1306_display m)) in
  fs = flat_map (command_txn a) [0x21; 0; 127; 0x22; 0; 7]
       ++ data_txn a (ssd1306_buffer m) /\
  count_starts fs = 7%nat /\
  ssd1306_buffer (exec SSD1306.ssd1306_display m) = ssd1306_buffer m.
Proof.
  intros Hpins Hidle Hacks Hlen Hfb a fs.
  assert (fs = flat_map (command_txn a) [0x21; 0; 127; 0x22; 0; 7]
               ++ data_txn a (ssd1306_buffer m)) as Hfs.
  { unfold fs. rewrite display_frames by done.
    by rewrite <- Hlen, payload_all. }
  split; [exact Hfs|split].
  - rewrite Hfs, count_starts_app, count_starts_data_txn. reflexivity.
  - by rewrite (exec_emits _ _ _ _ (emits_ssd1306_display m)).
Qed.

(** C8. [i2c_init] stores [(160000000 / freq_hz) / 4], an integer
    quotient that fits the 32-bit variable, as the busy-wait count of every
    half bit; [ssd1306_init] sets the bus up with 400000 Hz, so the count
    is 100 when the setup is done and when [ssd1306_init] returns. *)
Theorem i2c_delay_cycles_value
    (cfg : I2C.i2c_config_t) (config : SSD1306.ssd1306_config_t)
    (m : machine) :
  0 < I2C.freq_hz cfg < 2 ^ 32 ->
  let d := i2c_delay_cycles (exec (I2C.i2c_init cfg) m) in
  d = (160000000 / I2C.freq_hz cfg) / 4 /\ u32 d = d /\
  settled config m =
    exec (busy_wait 100000)
      (exec (I2C.i2c_init {| I2C.scl_pin := SSD1306.scl_pin config;
                             I2C.sda_pin := SSD1306.sda_pin config;
                             I2C.freq_hz := 400000 |})
         (exec (set_ssd1306_i2c_addr (SSD1306.i2c_addr config)) m)) /\
  i2c_delay_cycles (settled config m) = 100 /\
  i2c_delay_cycles (exec (SSD1306.ssd1306_init config) m) = 100.
Proof.
  intros Hfreq d.
  assert (d = 160000000 / I2C.freq_hz cfg / 4) as Hd.
  { unfold d, exec.
    pose proof (i2c_init_spec cfg m) as H. cbn zeta in H. by rewrite H. }
  split; [exact Hd|]. split; [|split; [|split]].
  - unfold u32. apply Z.mod_small. rewrite Hd.
    assert (0 <= 160000000 / I2C.freq_hz cfg <= 160000000).
    { split; [apply Z.div_pos; lia|].
      apply Z.div_le_upper_bound; nia. }
    split; [apply Z.div_pos; lia|].
    apply Z.div_lt_upper_bound; lia.
  - unfold settled, ssd1306_init_setup. by rewrite !exec_bind.
  - by rewrite settled_eq.
  - unfold exec at 1.
    pose proof (ssd1306_init_spec config m) as H. cbn zeta in H.
    rewrite H. cbn [snd]. unfold with_buffer.
    cbn [exec snd set_ssd1306_buffer]. after_simpl.
    by rewrite settled_eq.
Qed.

(** C9. [ssd1306_init] returns true for every configuration, from every
    machine state and whatever the input register reads, so also when no
    byte is acknowledged; the branch of [app_main] for a failed
    initialization is never taken. *)
Theorem ssd1306_init_always_true
    (config : SSD1306.ssd1306_config_t) (m : machine) :
  eval (SSD1306.ssd1306_init config) m = true /\
  eval app_main_oled_message m = "OLED initialized successfully!"%string.
Proof.
  assert (forall c m0, eval (SSD1306.ssd1306_init c) m0 = true) as Hinit.
  { intros c m0. unfold eval.
    pose proof (ssd1306_init_spec c m0) as H. cbn zeta in H.
    rewrite H. reflexivity. }
  split; [apply Hinit|].
  unfold app_main_oled_message. by rewrite eval_bind, Hinit.
Qed.

(** ** The framebuffer: pixels *)

Lemma u8_testbit z k : 0 <= k < 8 -> Z.testbit (u8 z) k = Z.testbit z k.
Proof.
  intros Hk. unfold u8. change 256 with (2 ^ 8).
  apply Z.mod_pow2_bits_low. lia.
Qed.

Lemma land7_range y : 0 <= Z.land y 7 < 8.
Proof.
  change 7 with (Z.ones 3). rewrite Z.land_ones by lia.
  change (2 ^ 3) with 8. apply Z.mod_pos_bound. lia.
Qed.

Lemma in_bounds_test x y :
  (x <? 0) || (x >=? SSD1306.SSD1306_WIDTH) || (y <? 0)
    || (y >=? SSD1306.SSD1306_HEIGHT) = false <-> in_bounds x y.
Proof.
  unfold in_bounds. rewrite !orb_false_iff, !Z.ltb_ge, !Z.geb_leb, !Z.leb_gt.
  lia.
Qed.

Lemma quot_div_8 y : 0 <= y -> y ÷ 8 = y / 8.
Proof. intros Hy. apply Z.quot_div_nonneg; lia. Qed.

Lemma pixel_index_lt x y :
  in_bounds x y -> (pixel_index x y < Z.to_nat SSD1306.BUFFER_SIZE)%nat.
Proof.
  intros [Hx Hy]. unfold pixel_index.
  unfold SSD1306.SSD1306_WIDTH, SSD1306.SSD1306_HEIGHT in *.
  change SSD1306.BUFFER_SIZE with 1024.
  assert (0 <= y / 8 < 8)
    by (split; [apply Z.div_pos; lia | apply Z.div_lt_upper_bound; lia]).
  lia.
Qed.

Lemma set_pixel_run x y color m :
  SSD1306.ssd1306_set_pixel x y color m =
  (tt, if bool_decide (in_bounds x y)
       then with_buffer
              (<[pixel_index x y :=
                   pixel_byte y color (nth (pixel_index x y) (ssd1306_buffer m) 0)]>
                 (ssd1306_buffer m)) m
       else m).
Proof.
  unfold SSD1306.ssd1306_set_pixel.
  destruct (_ || _) eqn:Htest.
  - rewrite bool_decide_eq_false_2; [done|].
    intros Hb. apply in_bounds_test in Hb. congruence.
  - apply in_bounds_test in Htest. rewrite bool_decide_eq_true_2 by done.
    destruct Htest as [Hx Hy]. rewrite quot_div_8 by lia.
    fold (pixel_index x y). unfold pixel_byte, lit.
    by destruct (negb (color =? 0)).
Qed.

Lemma pixel_byte_bit y color b :
  Z.testbit (pixel_byte y color b) (Z.land y 7) = lit color.
Proof.
  pose proof (land7_range y) as Hk. unfold pixel_byte.
  destruct (lit color); rewrite u8_testbit by done.
  - rewrite Z.lor_spec, testbit_BIT, bool_decide_eq_true_2 by (done || lia).
    apply orb_true_r.
  - rewrite Z.land_spec, Z.lnot_spec, testbit_BIT, bool_decide_eq_true_2
      by (done || lia).
    apply andb_false_r.
Qed.

Lemma pixel_byte_idem y color b :
  pixel_byte y color (pixel_byte y color b) = pixel_byte y color b.
Proof.
  pose proof (land7_range y) as Hk. unfold pixel_byte, u8.
  change 256 with (2 ^ 8).
  destruct (lit color); apply Z.bits_inj'; intros n Hn;
    rewrite !Z.testbit_mod_pow2 by lia;
    destruct (n <? 8) eqn:Hn8; cbn [andb]; try done.
  - rewrite !Z.lor_spec, Z.testbit_mod_pow2, Hn8 by lia. cbn [andb].
    rewrite Z.lor_spec. by destruct (Z.testbit b n), (Z.testbit _ n).
  - rewrite !Z.land_spec, Z.testbit_mod_pow2, Hn8 by lia. cbn [andb].
    rewrite Z.land_spec. by destruct (Z.testbit b n), (Z.testbit _ n).
Qed.

Lemma nth_insert_eq (l : list Z) i v :
  (i < length l)%nat -> nth i (<[i := v]> l) 0 = v.
Proof. intros Hi. by rewrite nth_lookup, list_lookup_insert_eq. Qed.

Lemma nth_insert_ne (l : list Z) i j v :
  i <> j -> nth j (<[i := v]> l) 0 = nth j l 0.
Proof. intros Hij. by rewrite !nth_lookup, list_lookup_insert_ne. Qed.

(** C6. On the 1024-byte framebuffer, after [ssd1306_set_pixel x y on] at
    an in-bounds coordinate, bit [y & 7] of byte [x + (y / 8) * 128] is
    [on]; at a coordinate out of bounds the call changes nothing at all,
    and it returns normally in either case. *)
Theorem set_pixel_then_get (m : machine) (x y color : Z) :
  length (ssd1306_buffer m) = Z.to_nat SSD1306.BUFFER_SIZE ->
  let m' := exec (SSD1306.ssd1306_set_pixel x y color) m in
  (in_bounds x y -> get_pixel (ssd1306_buffer m') x y = lit color) /\
  (~ in_bounds x y -> m' = m).
Proof.
  intros Hlen m'. unfold m', exec. rewrite set_pixel_run. cbn [snd].
  split; intros Hb.
  - rewrite bool_decide_eq_true_2 by done.
    unfold get_pixel, with_buffer. cbn [exec snd set_ssd1306_buffer ssd1306_buffer].
    rewrite nth_insert_eq by (rewrite Hlen; by apply pixel_index_lt).
    apply pixel_byte_bit.
  - by rewrite bool_decide_eq_false_2.
Qed.

(** C10. [ssd1306_set_pixel x y color] leaves every framebuffer byte
    other than the one at index [x + (y / 8) * 128] as it was, and the
    buffer as long as it was; out of bounds it leaves every byte as it
    was; and doing it twice is the same as doing it once. *)
Theorem set_pixel_frame (m : machine) (x y color : Z) (i : nat) :
  i <> pixel_index x y ->
  let sp := SSD1306.ssd1306_set_pixel x y color in
  nth i (ssd1306_buffer (exec sp m)) 0 = nth i (ssd1306_buffer m) 0 /\
  length (ssd1306_buffer (exec sp m)) = length (ssd1306_buffer m) /\
  (~ in_bounds x y -> ssd1306_buffer (exec sp m) = ssd1306_buffer m) /\
  exec sp (exec sp m) = exec sp m.
Proof.
  intros Hi sp. unfold sp, exec. rewrite !set_pixel_run. cbn [snd].
  case_bool_decide as Hb.
  - unfold with_buffer. cbn [exec snd set_ssd1306_buffer ssd1306_buffer].
    split; [by apply nth_insert_ne|]. split; [apply length_insert|].
    split; [done|]. f_equal.
    destruct (Nat.lt_ge_cases (pixel_index x y) (length (ssd1306_buffer m)))
      as [Hlt|Hge].
    + by rewrite nth_insert_eq, pixel_byte_idem, list_insert_insert_eq.
    + by rewrite !list_insert_ge
        by (rewrite ?list_insert_ge by done; done).
  - done.
Qed.

(** ** The framebuffer: text *)

Section TextFacts.
Variable font : Z -> Z -> Z.

Import SSD1306.

Lemma draw_string_loop_layout str : forall x cx y m,
  draw_string_loop font x cx y str m = draw_cells font (layout x cx y str) m.
Proof.
  induction str as [|ch rest IH]; intros x cx y m; [done|].
  cbn [draw_string_loop layout]. fold (char_code ch).
  destruct (char_code ch =? 0); [done|].
  destruct (char_code ch =? 10); [apply IH|].
  cbn zeta. cbn [draw_cells]. rewrite !bind_run.
  destruct (cx + 6 >=? SSD1306_WIDTH); apply IH.
Qed.

Lemma layout_one_row str : forall x cx y,
  plain str ->
  cx + 6 * (Z.of_nat (String.length str) - 1) < SSD1306_WIDTH ->
  layout x cx y str = row_cells cx y str.
Proof.
  induction str as [|ch rest IH]; intros x cx y Hplain Hfit; [done|].
  destruct Hplain as [[H0 H10] Hrest].
  cbn [layout row_cells String.length] in *.
  apply Z.eqb_neq in H0, H10. rewrite H0, H10. f_equal.
  destruct rest as [|ch' rest'].
  { by destruct (cx + 6 >=? SSD1306_WIDTH). }
  set (rest := String ch' rest') in *.
  assert (1 <= Z.of_nat (String.length rest)) by (cbn [rest String.length]; lia).
  assert ((cx + 6 >=? SSD1306_WIDTH) = false) as ->.
  { rewrite Z.geb_leb. apply Z.leb_gt. lia. }
  apply IH; [done | lia].
Qed.

(** *** Painting *)

Lemma keeps_pixels_refl fb : keeps_pixels fb fb.
Proof. by split. Qed.

Lemma keeps_pixels_trans fb1 fb2 fb3 :
  keeps_pixels fb1 fb2 -> keeps_pixels fb2 fb3 -> keeps_pixels fb1 fb3.
Proof.
  intros [Hl1 H1] [Hl2 H2]. split; [congruence|].
  intros i k Hk Hb. by apply H2, H1.
Qed.

Lemma with_buffer_same m : with_buffer (ssd1306_buffer m) m = m.
Proof. by destruct m. Qed.

Lemma paints_ret : paints (mret tt).
Proof.
  intros m. exists (ssd1306_buffer m).
  split; [by rewrite with_buffer_same | apply keeps_pixels_refl].
Qed.

Lemma paints_bind (c : M unit) (k : M unit) :
  paints c -> paints k -> paints (c;; k).
Proof.
  intros Hc Hk m. destruct (Hc m) as (fb1 & Hrun1 & Hkeep1).
  destruct (Hk (with_buffer fb1 m)) as (fb2 & Hrun2 & Hkeep2).
  exists fb2. split.
  - unfold mbind, M_bind. by rewrite Hrun1, Hrun2.
  - eapply keeps_pixels_trans; [exact Hkeep1 | exact Hkeep2].
Qed.

Lemma paints_for_range body n : forall lo,
  (forall i, paints (body i)) -> paints (for_range lo n body).
Proof.
  induction n as [|n IH]; intros lo Hbody; cbn [for_range].
  - apply paints_ret.
  - apply paints_bind; [apply Hbody | by apply IH].
Qed.

Lemma paints_set_pixel_on x y : paints (ssd1306_set_pixel x y 1).
Proof.
  intros m. rewrite set_pixel_run. case_bool_decide as Hb.
  - eexists. split; [reflexivity|]. split; [apply length_insert|].
    intros i k Hk Hbit.
    destruct (decide (pixel_index x y = i)) as [<-|Hne].
    + destruct (Nat.lt_ge_cases (pixel_index x y)
                  (length (ssd1306_buffer m))) as [Hlt|Hge].
      * rewrite nth_insert_eq by done. unfold pixel_byte. cbn [lit Z.eqb negb].
        rewrite u8_testbit, Z.lor_spec, Hbit by done. done.
      * by rewrite list_insert_ge.
    + by rewrite nth_insert_ne.
  - exists (ssd1306_buffer m).
    split; [by rewrite with_buffer_same | apply keeps_pixels_refl].
Qed.

Lemma paints_draw_char x y c : paints (ssd1306_draw_char font x y c).
Proof.
  unfold ssd1306_draw_char. cbn zeta.
  apply paints_for_range. intros i. apply paints_for_range. intros j.
  destruct (negb _); [apply paints_set_pixel_on | apply paints_ret].
Qed.

Lemma paints_draw_cells cells : paints (draw_cells font cells).
Proof.
  induction cells as [|[[cx cy] c] rest IH]; cbn [draw_cells].
  - apply paints_ret.
  - apply paints_bind; [apply paints_draw_char | exact IH].
Qed.

(** *** Below the bottom row *)

Lemma for_range_idle body n : forall lo m,
  (forall i m0, lo <= i -> body i m0 = (tt, m0)) ->
  for_range lo n body m = (tt, m).
Proof.
  induction n as [|n IH]; intros lo m Hbody; cbn [for_range]; [done|].
  unfold mbind, M_bind. rewrite Hbody by lia.
  apply IH. intros i m0 Hi. apply Hbody. lia.
Qed.

Lemma draw_char_below x y c m :
  SSD1306_HEIGHT <= y -> ssd1306_draw_char font x y c m = (tt, m).
Proof.
  intros Hy. unfold ssd1306_draw_char. cbn zeta.
  apply for_range_idle. intros i m0 Hi.
  apply for_range_idle. intros j m1 Hj.
  destruct (negb _); [|done].
  rewrite set_pixel_run, bool_decide_eq_false_2; [done|].
  unfold in_bounds. lia.
Qed.

Lemma draw_cells_below cells : forall m,
  Forall (fun cell => SSD1306_HEIGHT <= snd (fst cell)) cells ->
  draw_cells font cells m = (tt, m).
Proof.
  induction cells as [|[[cx cy] c] rest IH]; intros m Hcells; [done|].
  apply Forall_cons in Hcells as [Hcy Hrest]. cbn [draw_cells].
  unfold mbind, M_bind. rewrite draw_char_below by exact Hcy. by apply IH.
Qed.

Lemma layout_rows str : forall x cx y,
  Forall (fun cell => y <= snd (fst cell)) (layout x cx y str).
Proof.
  induction str as [|ch rest IH]; intros x cx y; cbn [layout]; [constructor|].
  assert (forall cx', Forall (fun cell => y <= snd (fst cell))
                             (layout x cx' (y + 8) rest)) as Hdown.
  { intros cx'. eapply Forall_impl; [apply IH|]. cbn beta. intros; lia. }
  destruct (char_code ch =? 0); [constructor|].
  destruct (char_code ch =? 10); [apply Hdown|].
  apply Forall_cons. split; [cbn; lia|].
  destruct (cx + 6 >=? SSD1306_WIDTH); [apply Hdown | apply IH].
Qed.
End TextFacts.

(** C7 (amended). [ssd1306_draw_string x y str] draws the characters of
    [str] where the layout rule puts them: the cursor moves 6 columns per
    character and returns to [x], 8 rows down, on a line break or when it
    is at or beyond column 128 after a character; so a string of ordinary
    characters that fits one row has its k-th character at column
    [x + 6 k] of row [y].  The call always returns, changes nothing but the
    framebuffer, keeps the framebuffer's length and never clears a pixel
    that was set (nothing scrolls).  Rows are clipped: from row 64 on
    nothing is drawn, the pixels are dropped and the buffer is not touched. *)
Theorem draw_string_layout_and_clipping
    (font : Z -> Z -> Z) (x y : Z) (str : string) (m : machine) :
  let m' := exec (SSD1306.ssd1306_draw_string font x y str) m in
  m' = exec (draw_cells font (layout x x y str)) m /\
  (plain str ->
   x + 6 * (Z.of_nat (String.length str) - 1) < SSD1306.SSD1306_WIDTH ->
   layout x x y str = row_cells x y str) /\
  (exists fb', m' = with_buffer fb' m /\ keeps_pixels (ssd1306_buffer m) fb') /\
  (SSD1306.SSD1306_HEIGHT <= y -> m' = m).
Proof.
  intros m'.
  assert (m' = exec (draw_cells font (layout x x y str)) m) as Hm'.
  { unfold m', exec, SSD1306.ssd1306_draw_string.
    by rewrite draw_string_loop_layout. }
  split; [exact Hm'|]. split; [apply layout_one_row|]. split.
  - destruct (paints_draw_cells font (layout x x y str) m) as (fb' & Hrun & Hk).
    exists fb'. split; [|exact Hk]. rewrite Hm'. unfold exec. by rewrite Hrun.
  - intros Hy. rewrite Hm'. unfold exec. rewrite draw_cells_below; [done|].
    eapply Forall_impl; [apply layout_rows|]. cbn beta. intros; lia.
Qed.

(** * Further properties of the bus master *)

(** ** A missing acknowledge ends the transaction *)

Lemma byte_frames_first_nack sda bs inp : forall k0 k,
  (k < length bs)%nat ->
  (forall j, (j < k)%nat -> acked sda (inp (k0 + j)%nat) = true) ->
  acked sda (inp (k0 + k)%nat) = false ->
  byte_frames sda bs inp k0 =
  map (fun b => FByte b true) (take k bs) ++ [FByte (nth k bs 0) false].
Proof.
  induction bs as [|b bs IH]; intros k0 k Hk Hacks Hnack; [cbn in Hk; lia|].
  cbn [byte_frames]. destruct k as [|k].
  - rewrite Nat.add_0_r in Hnack. by rewrite Hnack.
  - pose proof (Hacks 0%nat) as H0. rewrite Nat.add_0_r in H0.
    rewrite H0 by lia. cbn [take map app nth]. f_equal.
    apply IH.
    + cbn in Hk. lia.
    + intros j Hj. replace (S k0 + j)%nat with (k0 + S j)%nat by lia.
      apply Hacks. lia.
    + by replace (S k0 + k)%nat with (k0 + S k)%nat by lia.
Qed.

Lemma count_in_start_wave scl sda d : count_in (start_wave scl sda d) = 0%nat.
Proof. reflexivity. Qed.

Lemma count_in_stop_wave scl sda d : count_in (stop_wave scl sda d) = 0%nat.
Proof. reflexivity. Qed.

(** Every byte put on the wire costs one read of the input register. *)
Lemma count_in_bytes_wave scl sda d bs inp : forall k,
  count_in (fst (bytes_wave scl sda d bs inp k)) =
  length (byte_frames sda bs inp k).
Proof.
  induction bs as [|b bs IH]; intros k; [done|].
  cbn [bytes_wave byte_frames].
  destruct (acked sda (inp k)).
  - specialize (IH (S k)).
    destruct (bytes_wave scl sda d bs inp (S k)) as [w ok]. cbn [fst] in *.
    rewrite count_in_app, count_in_byte_wave, IH. reflexivity.
  - cbn [fst]. by rewrite count_in_byte_wave.
Qed.

Lemma count_in_transaction_wave scl sda d bs inp k :
  count_in (transaction_wave scl sda d bs inp k) =
  length (byte_frames sda bs inp k).
Proof.
  unfold transaction_wave.
  rewrite !count_in_app, count_in_start_wave, count_in_stop_wave,
    count_in_bytes_wave. lia.
Qed.

(** X1. When the byte at position [k] of an [i2c_write] transaction (the
    address byte is position 0) is the first one that is not acknowledged,
    the wire carries the start, the [k] acknowledged bytes, that byte, and
    the stop: no later byte is sent.  The call returns false, has clocked
    exactly [k + 1] acknowledge slots, and leaves the bus idle. *)
Theorem i2c_write_stops_at_first_nack
    (m : machine) (addr : Z) (data : list Z) (len k : nat) :
  valid_pins m -> bus_idle m -> Forall is_byte data ->
  (k <= len)%nat ->
  acks_next m k ->
  acked (sda_gpio m) (gpio_in m (in_count m + k)) = false ->
  let bs := u8 (Z.shiftl addr 1) :: payload data 0 len in
  let c := I2C.i2c_write addr data len in
  eval c m = false /\
  frames_of m (emitted m (exec c m)) =
    FStart :: map (fun b => FByte b true) (take k bs)
           ++ [FByte (nth k bs 0) false; FStop] /\
  in_count (exec c m) = (in_count m + k + 1)%nat /\
  bus_idle (exec c m).
Proof.
  intros Hpins Hidle Hdata Hk Hacks Hnack bs c.
  pose proof (emits_i2c_write addr data len m) as Hc. cbn zeta in Hc.
  fold bs c in Hc.
  assert (Forall is_byte bs) as Hbs.
  { apply Forall_cons; split; [apply u8_is_byte | by apply payload_bytes]. }
  assert (length bs = S len) as Hlen
    by (unfold bs, payload; cbn; by rewrite length_map, length_seq).
  assert (byte_frames (sda_gpio m) bs (gpio_in m) (in_count m) =
          map (fun b => FByte b true) (take k bs) ++ [FByte (nth k bs 0) false])
    as Hframes.
  { apply byte_frames_first_nack; [lia | exact Hacks | exact Hnack]. }
  destruct (transaction_closed c bs m Hpins Hidle Hbs Hc)
    as (_ & _ & Hidle').
  destruct Hpins as (Hscl & Hsda & Hne).
  rewrite (eval_emits _ _ _ _ Hc), (emitted_emits _ _ _ _ Hc).
  split; [|split; [|split]].
  - rewrite bytes_wave_ok_all_acked, Hframes. unfold all_acked.
    rewrite forallb_app. cbn. apply andb_false_r.
  - unfold frames_of, observe. rewrite mon_of_idle by done.
    rewrite run_transaction_wave; [|lia|lia|exact Hne|exact Hbs].
    cbn [fst]. rewrite Hframes. by rewrite <- app_assoc.
  - rewrite (exec_emits _ _ _ _ Hc). after_simpl.
    rewrite count_in_transaction_wave, Hframes.
    rewrite length_app, length_map, length_take. cbn [length]. lia.
  - exact Hidle'.
Qed.

(** ** Reading a byte *)

Lemma count_in_read_bits_wave scl d n inp : forall k,
  count_in (read_bits_wave scl d n inp k) = n.
Proof.
  induction n as [|i IH]; intros k; [done|].
  cbn [read_bits_wave]. rewrite count_in_app, IH. reflexivity.
Qed.

Lemma emits_i2c_read_bits n : forall data m,
  emits (I2C.i2c_read_bits n data) m
        (read_bits_value (sda_gpio m) n data (gpio_in m) (in_count m))
        (read_bits_wave (scl_gpio m) (i2c_delay_cycles m) n
                        (gpio_in m) (in_count m)).
Proof.
  induction n as [|i IH]; intros data m;
    cbn [I2C.i2c_read_bits read_bits_wave read_bits_value].
  - apply emits_ret.
  - eapply emits_conv.
    + eapply emits_bind; [apply emits_scl_high|]. cbv beta.
      eapply emits_bind; [exact (emits_sda_read _)|]. cbv beta zeta.
      eapply emits_bind; [apply emits_scl_low|]. cbv beta.
      apply IH.
    + after_simpl.
      by rewrite !count_in_release, ?count_in_pull_low, land_BIT_testbit.
    + after_simpl. unfold read_cell.
      by rewrite !count_in_release, ?count_in_pull_low, <- !app_assoc.
Qed.

Lemma emits_i2c_read_byte ack m :
  emits (I2C.i2c_read_byte ack) m
        (read_bits_value (sda_gpio m) 8 0 (gpio_in m) (in_count m))
        (read_byte_wave (scl_gpio m) (sda_gpio m) (i2c_delay_cycles m) ack
                        (gpio_in m) (in_count m)).
Proof.
  unfold I2C.i2c_read_byte, read_byte_wave.
  eapply emits_conv.
  - eapply emits_bind; [apply emits_sda_high|]. cbv beta.
    eapply emits_bind; [apply emits_i2c_read_bits|]. cbv beta.
    eapply emits_bind.
    { instantiate (2 := tt).
      instantiate (1 := if ack
                        then pull_low (i2c_delay_cycles m) (sda_gpio m)
                        else release (i2c_delay_cycles m) (sda_gpio m)).
      destruct ack; [exact (emits_sda_low _) | exact (emits_sda_high _)]. }
    cbv beta.
    eapply emits_bind; [apply emits_scl_high|]. cbv beta.
    eapply emits_bind; [apply emits_scl_low|]. cbv beta.
    eapply emits_bind; [apply emits_sda_high|]. cbv beta.
    apply emits_ret.
  - after_simpl. by rewrite count_in_release.
  - after_simpl. rewrite count_in_release. by rewrite app_nil_r.
Qed.

(** The value assembled by the read loop, bit by bit: the pulse with loop
    index [j] decides bit [j]; the bits from [n] up keep their value. *)
Lemma read_bits_value_spec sda inp n : forall data k,
  is_byte data ->
  (forall j, 0 <= j < Z.of_nat n -> Z.testbit data j = false) ->
  let r := read_bits_value sda n data inp k in
  is_byte r /\
  forall j, 0 <= j < 8 ->
    Z.testbit r j =
    if j <? Z.of_nat n then Z.testbit (inp (k + (n - 1 - Z.to_nat j))%nat) sda
    else Z.testbit data j.
Proof.
  induction n as [|i IH]; intros data k Hdata Hlow; cbn zeta.
  - cbn [read_bits_value]. split; [done|]. intros j Hj.
    destruct (Z.ltb_spec j (Z.of_nat 0)); [lia | done].
  - cbn [read_bits_value].
    set (data' := if Z.testbit (inp k) sda
                  then u8 (Z.lor data (BIT (Z.of_nat i))) else data).
    assert (is_byte data') as Hdata'.
    { unfold data'. destruct (Z.testbit (inp k) sda);
        [apply u8_is_byte | done]. }
    assert (forall j, 0 <= j < 8 ->
              Z.testbit data' j =
              if j =? Z.of_nat i then Z.testbit (inp k) sda
              else Z.testbit data j) as Hbits.
    { intros j Hj. unfold data'.
      destruct (Z.eqb_spec j (Z.of_nat i)) as [->|Hne].
      - destruct (Z.testbit (inp k) sda).
        + rewrite u8_testbit, Z.lor_spec, testbit_BIT by lia.
          rewrite bool_decide_eq_true_2 by done. apply orb_true_r.
        + apply Hlow. lia.
      - destruct (Z.testbit (inp k) sda); [|done].
        rewrite u8_testbit, Z.lor_spec, testbit_BIT by lia.
        rewrite bool_decide_eq_false_2 by congruence. apply orb_false_r. }
    destruct (IH data' (S k) Hdata') as [Hr Hrbits].
    { intros j Hj.
      destruct (Z.ltb_spec j 8) as [Hj8|Hj8].
      - rewrite Hbits by lia.
        destruct (Z.eqb_spec j (Z.of_nat i)); [lia|]. apply Hlow. lia.
      - destruct Hdata' as [H0 H256].
        destruct (Z.eq_dec data' 0) as [->|Hnz]; [apply Z.bits_0|].
        apply Z.bits_above_log2; [lia|].
        assert (Z.log2 data' < 8); [|lia].
        apply Z.log2_lt_pow2; lia. }
    split; [exact Hr|]. intros j Hj. rewrite Hrbits by done.
    destruct (Z.ltb_spec j (Z.of_nat i)) as [Hlt|Hge].
    + destruct (Z.ltb_spec j (Z.of_nat (S i))); [|lia].
      f_equal. f_equal. lia.
    + rewrite Hbits by done.
      destruct (Z.eqb_spec j (Z.of_nat i)) as [->|Hne].
      * destruct (Z.ltb_spec (Z.of_nat i) (Z.of_nat (S i))); [|lia].
        f_equal. f_equal. lia.
      * destruct (Z.ltb_spec j (Z.of_nat (S i))); [lia | done].
Qed.

(** X2. [i2c_read_byte] releases the data line, pulses the clock eight
    times reading the input register in each pulse, and assembles the
    sensed levels most significant bit first: the level of pulse [t] is
    bit [7 - t] of the byte it returns, so a device that presents the bits
    of a byte [b] is read back as [b].  It then drives the acknowledge
    (data low) or leaves the data line high, pulses the clock once more
    and releases the data line. *)
Theorem i2c_read_byte_assembles (m : machine) (ack : bool) :
  let sda := sda_gpio m in
  let r := eval (I2C.i2c_read_byte ack) m in
  let m' := exec (I2C.i2c_read_byte ack) m in
  is_byte r /\
  (forall t, (t < 8)%nat ->
     Z.testbit r (Z.of_nat (7 - t)) =
     Z.testbit (gpio_in m (in_count m + t)%nat) sda) /\
  (forall b, is_byte b ->
     (forall t, (t < 8)%nat ->
        Z.testbit (gpio_in m (in_count m + t)%nat) sda =
        Z.testbit b (Z.of_nat (7 - t))) ->
     r = b) /\
  in_count m' = (in_count m + 8)%nat /\
  emitted m m' =
    read_byte_wave (scl_gpio m) sda (i2c_delay_cycles m) ack
                   (gpio_in m) (in_count m).
Proof.
  intros sda r m'.
  pose proof (emits_i2c_read_byte ack m) as Hc.
  unfold r, m'. rewrite (eval_emits _ _ _ _ Hc), (emitted_emits _ _ _ _ Hc),
    (exec_emits _ _ _ _ Hc).
  destruct (read_bits_value_spec sda (gpio_in m) 8 0 (in_count m))
    as [Hbyte Hbits].
  { unfold is_byte; lia. }
  { intros j _. apply Z.bits_0. }
  fold sda.
  assert (forall t, (t < 8)%nat ->
            Z.testbit (read_bits_value sda 8 0 (gpio_in m) (in_count m))
                      (Z.of_nat (7 - t)) =
            Z.testbit (gpio_in m (in_count m + t)%nat) sda) as Hlevels.
  { intros t Ht. rewrite Hbits by lia.
    destruct (Z.ltb_spec (Z.of_nat (7 - t)) (Z.of_nat 8)); [|lia].
    f_equal. f_equal. lia. }
  split; [exact Hbyte|]. split; [exact Hlevels|]. split; [|split].
  - intros b Hb Hdev. apply Z.bits_inj'. intros n Hn.
    destruct (Z.ltb_spec n 8) as [Hn8|Hn8].
    + replace n with (Z.of_nat (7 - Z.to_nat (7 - n))) by lia.
      rewrite Hlevels by lia. apply Hdev. lia.
    + assert (forall z, is_byte z -> Z.testbit z n = false) as Hhigh.
      { intros z [Hz0 Hz]. destruct (Z.eq_dec z 0) as [->|Hnz];
          [apply Z.bits_0|].
        apply Z.bits_above_log2; [lia|].
        assert (Z.log2 z < 8); [|lia]. apply Z.log2_lt_pow2; lia. }
      by rewrite !Hhigh.
  - after_simpl. unfold read_byte_wave.
    rewrite !count_in_app, count_in_read_bits_wave, !count_in_release,
      count_in_pull_low.
    destruct ack; rewrite ?count_in_release, ?count_in_pull_low; lia.
  - reflexivity.
Qed.

(** ** Pin configuration *)

(** The 32 bit positions of a register. *)
Lemma small_index (n : Z) :
  0 <= n < 32 -> In n (map Z.of_nat (seq 0 32)).
Proof.
  intros Hn. apply in_map_iff. exists (Z.to_nat n).
  split; [lia | apply in_seq; lia].
Qed.

(** Decides a statement about bit [n] of a word built from one unknown
    word and constants, for each of the 32 positions. *)
Ltac by_bit_position H :=
  cbn [map seq In Z.of_nat Pos.of_succ_nat Pos.succ] in H;
  repeat (destruct H as [<-|H]);
  try (exfalso; exact H);
  repeat rewrite ?Z.lor_spec, ?Z.land_spec, ?Z.lnot_spec,
    ?Z.testbit_mod_pow2 by lia;
  repeat match goal with
         | |- context [Z.testbit ?x ?k] =>
             is_var x; generalize (Z.testbit x k); intros []
         end;
  vm_compute; reflexivity.

Lemma opendrain_mux_value_bits old n :
  0 <= n < 32 ->
  Z.testbit (opendrain_mux_value old) n =
  if bit_in n opendrain_ones then true
  else if bit_in n opendrain_zeros then false
  else Z.testbit old n.
Proof.
  intros Hn. apply small_index in Hn.
  unfold opendrain_mux_value, u32, FUN_IE, FUN_WPU, FUN_WPD, BIT,
    MCU_SEL_SHIFT, FUN_DRV_SHIFT.
  by_bit_position Hn.
Qed.

Lemma output_mux_value_bits old n :
  0 <= n < 32 ->
  Z.testbit (output_mux_value old) n =
  if bit_in n output_ones then true
  else if bit_in n output_zeros then false
  else Z.testbit old n.
Proof.
  intros Hn. apply small_index in Hn.
  unfold output_mux_value, u32, MCU_SEL_SHIFT, FUN_DRV_SHIFT.
  by_bit_position Hn.
Qed.

Lemma pin_range_test p :
  (p <? 0) || (p >? 21) = false <-> 0 <= p <= 21.
Proof. rewrite orb_false_iff, Z.ltb_ge, Z.gtb_ltb, Z.ltb_ge. lia. Qed.

Lemma mux_reg_plain p :
  0 <= p <= 21 ->
  (GPIO_PIN_MUX_REG p =? GPIO_OUT_W1TS_REG) = false /\
  (GPIO_PIN_MUX_REG p =? GPIO_OUT_W1TC_REG) = false /\
  (GPIO_ENABLE_REG =? GPIO_PIN_MUX_REG p) = false /\
  (GPIO_OUT_REG =? GPIO_PIN_MUX_REG p) = false.
Proof.
  intros Hp. rewrite !Z.eqb_neq.
  unfold GPIO_PIN_MUX_REG, GPIO_OUT_W1TS_REG, GPIO_OUT_W1TC_REG,
    GPIO_ENABLE_REG, GPIO_OUT_REG, IO_MUX_BASE, GPIO_BASE. lia.
Qed.

(** The registers after a pin is configured by writing [v] to its IO-MUX
    word and setting its output-enable bit. *)
Lemma drive_pin_setup p v r :
  0 <= p <= 21 ->
  let mux := GPIO_PIN_MUX_REG p in
  let r' := drive [MmioRead mux (r mux); MmioWrite mux v;
                   MmioRead GPIO_ENABLE_REG (r GPIO_ENABLE_REG);
                   MmioWrite GPIO_ENABLE_REG
                     (Z.lor (r GPIO_ENABLE_REG) (BIT p))] r in
  r' mux = v /\
  r' GPIO_ENABLE_REG = Z.lor (r GPIO_ENABLE_REG) (BIT p) /\
  r' GPIO_OUT_REG = r GPIO_OUT_REG.
Proof.
  intros Hp. destruct (mux_reg_plain p Hp) as (H1 & H2 & H3 & H4).
  cbn zeta. cbn [drive fold_left]. unfold mmio_store. rewrite H1, H2.
  change (GPIO_ENABLE_REG =? GPIO_OUT_W1TS_REG) with false.
  change (GPIO_ENABLE_REG =? GPIO_OUT_W1TC_REG) with false.
  cbv iota. unfold upd.
  change (GPIO_ENABLE_REG =? GPIO_ENABLE_REG) with true.
  change (GPIO_OUT_REG =? GPIO_ENABLE_REG) with false.
  rewrite Z.eqb_sym, H3, Z.eqb_refl, H4. done.
Qed.

Lemma opendrain_wave_in_range p r :
  0 <= p <= 21 ->
  let mux := GPIO_PIN_MUX_REG p in
  opendrain_wave p r =
  [MmioRead mux (r mux); MmioWrite mux (opendrain_mux_value (r mux));
   MmioRead GPIO_ENABLE_REG (r GPIO_ENABLE_REG);
   MmioWrite GPIO_ENABLE_REG (Z.lor (r GPIO_ENABLE_REG) (BIT p))].
Proof.
  intros Hp. destruct (mux_reg_plain p Hp) as (H1 & H2 & H3 & H4).
  cbn zeta. unfold opendrain_wave.
  rewrite (proj2 (pin_range_test p) Hp). cbn zeta.
  unfold mmio_store. rewrite H1, H2. unfold upd. by rewrite H3.
Qed.

(** X3. [gpio_set_opendrain p] silently does nothing at all for a pin
    number outside 0..21.  For a pin in range it rewrites the pin's IO-MUX
    word so that function 1 (GPIO), drive strength 2, input enable and
    pull-up are selected and pull-down is off, every other bit of the word
    keeping its value, and it sets the pin's output-enable bit, leaving the
    other enable bits, the output latch and the input count alone. *)
Theorem gpio_set_opendrain_configures (m : machine) (p : Z) :
  let m' := exec (I2C.gpio_set_opendrain p) m in
  let mux := GPIO_PIN_MUX_REG p in
  (~ 0 <= p <= 21 -> m' = m) /\
  (0 <= p <= 21 ->
   (forall n, 0 <= n < 32 ->
      Z.testbit (regs m' mux) n =
      if bit_in n opendrain_ones then true
      else if bit_in n opendrain_zeros then false
      else Z.testbit (regs m mux) n) /\
   Z.testbit (regs m' GPIO_ENABLE_REG) p = true /\
   (forall q, 0 <= q -> q <> p ->
      Z.testbit (regs m' GPIO_ENABLE_REG) q =
      Z.testbit (regs m GPIO_ENABLE_REG) q) /\
   regs m' GPIO_OUT_REG = regs m GPIO_OUT_REG /\
   in_count m' = in_count m).
Proof.
  cbn zeta. split.
  - intros Hp. unfold exec, I2C.gpio_set_opendrain.
    destruct ((p <? 0) || (p >? 21)) eqn:Hrange; [done|].
    apply pin_range_test in Hrange. lia.
  - intros Hp.
    rewrite (exec_emits _ _ _ _ (emits_gpio_set_opendrain p m)).
    after_simpl. rewrite count_in_opendrain_wave.
    rewrite opendrain_wave_in_range by done. cbn zeta.
    destruct (drive_pin_setup p (opendrain_mux_value
                                   (regs m (GPIO_PIN_MUX_REG p)))
                (regs m) Hp) as (-> & -> & ->).
    split; [intros n Hn; by apply opendrain_mux_value_bits|].
    split; [|split; [|done]].
    + rewrite Z.lor_spec, testbit_BIT, bool_decide_eq_true_2 by (done || lia).
      apply orb_true_r.
    + intros q Hq Hne.
      rewrite Z.lor_spec, testbit_BIT, bool_decide_eq_false_2
        by (congruence || lia).
      apply orb_false_r.
Qed.

(** ** Plain pin control *)

Lemma latch_set v r :
  mmio_store GPIO_OUT_W1TS_REG v r GPIO_OUT_REG = Z.lor (r GPIO_OUT_REG) v.
Proof. reflexivity. Qed.

Lemma latch_clear v r :
  mmio_store GPIO_OUT_W1TC_REG v r GPIO_OUT_REG =
  Z.land (r GPIO_OUT_REG) (Z.lnot v).
Proof. reflexivity. Qed.

Lemma testbit_set_bit out p q :
  0 <= p -> 0 <= q ->
  Z.testbit (Z.lor out (BIT p)) q =
  if bool_decide (q = p) then true else Z.testbit out q.
Proof.
  intros Hp Hq. rewrite Z.lor_spec, testbit_BIT by done.
  case_bool_decide as H1; case_bool_decide as H2; subst; try done.
  - apply orb_true_r.
  - apply orb_false_r.
Qed.

Lemma testbit_clear_bit out p q :
  0 <= p -> 0 <= q ->
  Z.testbit (Z.land out (Z.lnot (BIT p))) q =
  if bool_decide (q = p) then false else Z.testbit out q.
Proof.
  intros Hp Hq. rewrite Z.land_spec, Z.lnot_spec, testbit_BIT by done.
  case_bool_decide as H1; case_bool_decide as H2; subst; try done.
  - apply andb_false_r.
  - apply andb_true_r.
Qed.

Lemma gpio_set_high_run p m :
  0 <= p <= 21 ->
  GPIO.gpio_set_high p m = (tt, after m [MmioWrite GPIO_OUT_W1TS_REG (BIT p)]).
Proof.
  intros Hp. unfold GPIO.gpio_set_high.
  by rewrite (proj2 (pin_range_test p) Hp).
Qed.

Lemma gpio_set_low_run p m :
  0 <= p <= 21 ->
  GPIO.gpio_set_low p m = (tt, after m [MmioWrite GPIO_OUT_W1TC_REG (BIT p)]).
Proof.
  intros Hp. unfold GPIO.gpio_set_low.
  by rewrite (proj2 (pin_range_test p) Hp).
Qed.

Lemma gpio_toggle_run p m :
  0 <= p <= 21 ->
  GPIO.gpio_toggle p m =
  (tt, after m [MmioRead GPIO_OUT_REG (latch m);
                MmioWrite (if Z.testbit (latch m) p then GPIO_OUT_W1TC_REG
                           else GPIO_OUT_W1TS_REG) (BIT p)]).
Proof.
  intros Hp. unfold GPIO.gpio_toggle.
  rewrite (proj2 (pin_range_test p) Hp).
  rewrite bind_run.
  assert (emits (REG_READ GPIO_OUT_REG) m (latch m)
                [MmioRead GPIO_OUT_REG (latch m)]) as Hread
    by (by apply emits_reg_read).
  rewrite (eval_emits _ _ _ _ Hread), (exec_emits _ _ _ _ Hread).
  rewrite land_BIT_testbit.
  destruct (Z.testbit (latch m) p).
  - rewrite gpio_set_low_run by done. by rewrite after_after.
  - rewrite gpio_set_high_run by done. by rewrite after_after.
Qed.

(** X4. For a pin number outside 0..21, [gpio_set_high], [gpio_set_low]
    and [gpio_toggle] do nothing at all.  For a pin in range,
    [gpio_set_high] sets the pin's bit of the output latch, [gpio_set_low]
    clears it, [gpio_toggle] inverts it, and none of them changes any other
    bit of the latch; toggling twice gives the latch its bits back. *)
Theorem gpio_output_levels (m : machine) (p : Z) :
  (~ 0 <= p <= 21 ->
   exec (GPIO.gpio_set_high p) m = m /\
   exec (GPIO.gpio_set_low p) m = m /\
   exec (GPIO.gpio_toggle p) m = m) /\
  (0 <= p <= 21 ->
   forall q, 0 <= q ->
     Z.testbit (latch (exec (GPIO.gpio_set_high p) m)) q =
       (if bool_decide (q = p) then true else Z.testbit (latch m) q) /\
     Z.testbit (latch (exec (GPIO.gpio_set_low p) m)) q =
       (if bool_decide (q = p) then false else Z.testbit (latch m) q) /\
     Z.testbit (latch (exec (GPIO.gpio_toggle p) m)) q =
       (if bool_decide (q = p) then negb (Z.testbit (latch m) p)
        else Z.testbit (latch m) q) /\
     Z.testbit (latch (exec (GPIO.gpio_toggle p)
                         (exec (GPIO.gpio_toggle p) m))) q =
       Z.testbit (latch m) q).
Proof.
  split.
  - intros Hp. unfold exec, GPIO.gpio_set_high, GPIO.gpio_set_low,
      GPIO.gpio_toggle.
    destruct ((p <? 0) || (p >? 21)) eqn:Hrange; [done|].
    apply pin_range_test in Hrange. lia.
  - intros Hp q Hq.
    assert (forall m0, Z.testbit (latch (exec (GPIO.gpio_toggle p) m0)) q =
              if bool_decide (q = p) then negb (Z.testbit (latch m0) p)
              else Z.testbit (latch m0) q) as Htoggle.
    { intros m0. unfold exec. rewrite gpio_toggle_run by done.
      cbn [snd]. unfold latch at 1. after_simpl. cbn [drive fold_left].
      fold (latch m0). destruct (Z.testbit (latch m0) p) eqn:Hbit.
      - rewrite latch_clear, testbit_clear_bit by lia. fold (latch m0).
        by case_bool_decide.
      - rewrite latch_set, testbit_set_bit by lia. fold (latch m0).
        by case_bool_decide. }
    split; [|split; [|split]].
    + unfold exec. rewrite gpio_set_high_run by done. cbn [snd].
      unfold latch. after_simpl. cbn [drive fold_left].
      rewrite latch_set. apply testbit_set_bit; lia.
    + unfold exec. rewrite gpio_set_low_run by done. cbn [snd].
      unfold latch. after_simpl. cbn [drive fold_left].
      rewrite latch_clear. apply testbit_clear_bit; lia.
    + apply Htoggle.
    + rewrite Htoggle. destruct (decide (q = p)) as [->|Hqp].
      * rewrite bool_decide_eq_true_2 by done.
        rewrite Htoggle, bool_decide_eq_true_2 by done.
        apply negb_involutive.
      * rewrite bool_decide_eq_false_2 by done.
        by rewrite Htoggle, bool_decide_eq_false_2.
Qed.

Lemma gpio_set_output_run p m :
  0 <= p <= 21 ->
  let mux := GPIO_PIN_MUX_REG p in
  GPIO.gpio_set_output p m =
  (tt, after m [MmioRead mux (regs m mux);
                MmioWrite mux (output_mux_value (regs m mux));
                MmioRead GPIO_ENABLE_REG (regs m GPIO_ENABLE_REG);
                MmioWrite GPIO_ENABLE_REG
                  (Z.lor (regs m GPIO_ENABLE_REG) (BIT p))]).
Proof.
  intros Hp. destruct (mux_reg_plain p Hp) as (H1 & H2 & H3 & H4).
  cbn zeta. unfold GPIO.gpio_set_output.
  rewrite (proj2 (pin_range_test p) Hp).
  assert (emits
            (mux_val ← REG_READ (GPIO_PIN_MUX_REG p);
             REG_WRITE (GPIO_PIN_MUX_REG p) (output_mux_value mux_val);;
             REG_SET_BIT GPIO_ENABLE_REG (BIT p)) m tt
            [MmioRead (GPIO_PIN_MUX_REG p) (regs m (GPIO_PIN_MUX_REG p));
             MmioWrite (GPIO_PIN_MUX_REG p)
               (output_mux_value (regs m (GPIO_PIN_MUX_REG p)));
             MmioRead GPIO_ENABLE_REG (regs m GPIO_ENABLE_REG);
             MmioWrite GPIO_ENABLE_REG
               (Z.lor (regs m GPIO_ENABLE_REG) (BIT p))]) as Hrun;
    [|exact Hrun].
  eapply emits_eq.
  { eapply emits_bind;
      [apply emits_reg_read, mux_reg_not_input; lia|]. cbv beta.
    eapply emits_bind; [apply emits_REG_WRITE|]. cbv beta.
    unfold REG_SET_BIT.
    eapply emits_bind; [by apply emits_reg_read|]. cbv beta.
    apply emits_REG_WRITE. }
  after_simpl. cbn [app drive fold_left]. unfold mmio_store.
  rewrite H1, H2. unfold upd. by rewrite H3.
Qed.

(** X5. [gpio_set_output p] does nothing at all for a pin number outside
    0..21.  For a pin in range it selects function 1 (GPIO) and drive
    strength 2 in the pin's IO-MUX word and keeps every other bit of the
    word, so that, unlike [gpio_set_opendrain], it leaves input enable,
    pull-up and pull-down as they were; it sets the pin's output-enable
    bit and leaves the output latch alone. *)
Theorem gpio_set_output_configures (m : machine) (p : Z) :
  let m' := exec (GPIO.gpio_set_output p) m in
  let mux := GPIO_PIN_MUX_REG p in
  (~ 0 <= p <= 21 -> m' = m) /\
  (0 <= p <= 21 ->
   (forall n, 0 <= n < 32 ->
      Z.testbit (regs m' mux) n =
      if bit_in n output_ones then true
      else if bit_in n output_zeros then false
      else Z.testbit (regs m mux) n) /\
   (forall n, bit_in n [7; 8; 9] = true ->
      Z.testbit (regs m' mux) n = Z.testbit (regs m mux) n) /\
   Z.testbit (regs m' GPIO_ENABLE_REG) p = true /\
   latch m' = latch m).
Proof.
  cbn zeta. split.
  - intros Hp. unfold exec, GPIO.gpio_set_output.
    destruct ((p <? 0) || (p >? 21)) eqn:Hrange; [done|].
    apply pin_range_test in Hrange. lia.
  - intros Hp. unfold exec, latch. rewrite gpio_set_output_run by done.
    cbn [snd]. after_simpl.
    destruct (drive_pin_setup p (output_mux_value
                                   (regs m (GPIO_PIN_MUX_REG p)))
                (regs m) Hp) as (-> & -> & ->).
    split; [intros n Hn; by apply output_mux_value_bits|].
    split; [|split; [|done]].
    + intros n Hn. cbn in Hn.
      rewrite !orb_true_iff, !Z.eqb_eq in Hn.
      assert (0 <= n < 32) as Hn32 by lia.
      rewrite output_mux_value_bits by exact Hn32.
      destruct Hn as [->|[->|[->|Hf]]]; [done..|discriminate Hf].
    + rewrite Z.lor_spec, testbit_BIT, bool_decide_eq_true_2 by (done || lia).
      apply orb_true_r.
Qed.

(** X6. [i2c_init] stores the two pin numbers, reads nothing from the
    input register, leaves the display driver's variables alone, and ends
    with both lines released; when the pins are two different pins of the
    chip, any [i2c_write] that follows it is a closed transaction. *)
Theorem i2c_init_prepares_bus
    (cfg : I2C.i2c_config_t) (m : machine)
    (addr : Z) (data : list Z) (len : nat) :
  0 <= I2C.scl_pin cfg <= 21 -> 0 <= I2C.sda_pin cfg <= 21 ->
  I2C.scl_pin cfg <> I2C.sda_pin cfg ->
  Forall is_byte data ->
  let m' := exec (I2C.i2c_init cfg) m in
  scl_gpio m' = I2C.scl_pin cfg /\ sda_gpio m' = I2C.sda_pin cfg /\
  in_count m' = in_count m /\
  ssd1306_buffer m' = ssd1306_buffer m /\
  ssd1306_i2c_addr m' = ssd1306_i2c_addr m /\
  bus_idle m' /\
  closed_transaction (I2C.i2c_write addr data len) m'.
Proof.
  intros Hscl Hsda Hne Hdata m'.
  pose proof (i2c_init_spec cfg m) as Hrun. cbn zeta in Hrun.
  assert (m' = snd (I2C.i2c_init cfg m)) as Hm' by reflexivity.
  rewrite Hrun in Hm'. cbn [snd] in Hm'.
  assert (bus_idle m') as Hidle.
  { rewrite Hm'. unfold bus_idle. after_simpl. cbn [exec snd set_i2c_statics].
    after_simpl. unfold i2c_init_wave. cbn zeta. rewrite !drive_app.
    apply drive_release_both; lia. }
  assert (scl_gpio m' = I2C.scl_pin cfg /\ sda_gpio m' = I2C.sda_pin cfg)
    as [Hc Hd] by (by rewrite Hm').
  split; [exact Hc|]. split; [exact Hd|]. split; [|split; [|split; [|split]]].
  - rewrite Hm'. after_simpl. by rewrite count_in_i2c_init_wave.
  - by rewrite Hm'.
  - by rewrite Hm'.
  - exact Hidle.
  - apply (transaction_closed _
             (u8 (Z.shiftl addr 1) :: payload data 0 len)).
    + unfold valid_pins. rewrite Hc, Hd. done.
    + exact Hidle.
    + apply Forall_cons; split; [apply u8_is_byte | by apply payload_bytes].
    + apply emits_i2c_write.
Qed.

(** * Further properties of the framebuffer *)

(** ** One pixel *)

Lemma pixel_index_inj x y px py :
  in_bounds x y -> in_bounds px py ->
  pixel_index px py = pixel_index x y -> px = x /\ py / 8 = y / 8.
Proof.
  intros [Hx Hy] [Hpx Hpy] Hidx. unfold pixel_index in Hidx.
  unfold SSD1306.SSD1306_WIDTH, SSD1306.SSD1306_HEIGHT in *.
  assert (0 <= y / 8) by (apply Z.div_pos; lia).
  assert (0 <= py / 8) by (apply Z.div_pos; lia).
  apply Z2Nat.inj in Hidx; lia.
Qed.

Lemma land7_mod y : Z.land y 7 = y mod 8.
Proof. change 7 with (Z.ones 3). by rewrite Z.land_ones by lia. Qed.

Lemma pixel_byte_other y color b k :
  0 <= k < 8 -> k <> Z.land y 7 ->
  Z.testbit (pixel_byte y color b) k = Z.testbit b k.
Proof.
  intros Hk Hne. pose proof (land7_range y) as Hy. unfold pixel_byte.
  destruct (lit color); rewrite u8_testbit by done.
  - rewrite Z.lor_spec, testbit_BIT, bool_decide_eq_false_2
      by (congruence || lia).
    apply orb_false_r.
  - rewrite Z.land_spec, Z.lnot_spec, testbit_BIT, bool_decide_eq_false_2
      by (congruence || lia).
    apply andb_true_r.
Qed.

Lemma renders_set_pixel x y color :
  renders (SSD1306.ssd1306_set_pixel x y color) (set_pixel_fn x y color).
Proof.
  intros m Hlen. rewrite set_pixel_run. unfold set_pixel_fn.
  case_bool_decide as Hb.
  - eexists. split; [reflexivity|]. split; [by rewrite length_insert|].
    intros px py Hp. unfold get_pixel.
    destruct (decide (pixel_index px py = pixel_index x y)) as [Hidx|Hidx].
    + rewrite Hidx, nth_insert_eq
        by (rewrite Hlen; by apply pixel_index_lt).
      destruct (pixel_index_inj x y px py Hb Hp Hidx) as [-> Hrow].
      case_bool_decide as Hsame.
      * destruct Hsame as [_ ->]. apply pixel_byte_bit.
      * apply pixel_byte_other; [apply land7_range|].
        rewrite !land7_mod. intros Hmod. apply Hsame. split; [done|].
        rewrite (Z.div_mod py 8), (Z.div_mod y 8) by lia. lia.
    + rewrite nth_insert_ne by congruence.
      rewrite bool_decide_eq_false_2; [done|]. intros [-> ->]. done.
  - exists (ssd1306_buffer m).
    split; [by rewrite with_buffer_same|]. split; [done|].
    intros px py Hp. rewrite bool_decide_eq_false_2; [done|].
    intros [-> ->]. done.
Qed.

(** X7. On the 1024-byte framebuffer, [ssd1306_set_pixel x y color]
    changes one pixel and no other: afterwards every in-bounds pixel reads
    what it read before, also the seven that share a byte with (x, y),
    except (x, y) itself, which reads whether [color] is nonzero.  The
    framebuffer keeps its length and nothing else in the machine changes. *)
Theorem set_pixel_changes_one_pixel (m : machine) (x y color px py : Z) :
  length (ssd1306_buffer m) = Z.to_nat SSD1306.BUFFER_SIZE ->
  in_bounds px py ->
  let m' := exec (SSD1306.ssd1306_set_pixel x y color) m in
  get_pixel (ssd1306_buffer m') px py =
    (if bool_decide (px = x /\ py = y) then lit color
     else get_pixel (ssd1306_buffer m) px py) /\
  length (ssd1306_buffer m') = length (ssd1306_buffer m) /\
  m' = with_buffer (ssd1306_buffer m') m.
Proof.
  intros Hlen Hp m'.
  destruct (renders_set_pixel x y color m Hlen) as (fb' & Hrun & Hlen' & Hpix).
  unfold m', exec. rewrite Hrun. cbn [snd].
  unfold with_buffer at 1 2 3. cbn [exec snd set_ssd1306_buffer ssd1306_buffer].
  split; [by apply Hpix|]. split; [congruence | reflexivity].
Qed.

(** ** Loops of pixels *)

Lemma renders_ret : renders (mret tt) (fun _ _ b => b).
Proof.
  intros m Hlen. exists (ssd1306_buffer m).
  split; [by rewrite with_buffer_same|]. by split.
Qed.

Lemma renders_bind (c k : M unit) f g :
  renders c f -> renders k g ->
  renders (c;; k) (fun px py b => g px py (f px py b)).
Proof.
  intros Hc Hk m Hlen.
  destruct (Hc m Hlen) as (fb1 & Hrun1 & Hlen1 & Hpix1).
  destruct (Hk (with_buffer fb1 m) Hlen1) as (fb2 & Hrun2 & Hlen2 & Hpix2).
  exists fb2. split; [|split; [exact Hlen2|]].
  - unfold mbind, M_bind. by rewrite Hrun1, Hrun2.
  - intros px py Hp. rewrite Hpix2 by done. f_equal. by apply Hpix1.
Qed.

Lemma renders_ext (c : M unit) f g :
  renders c f -> (forall px py b, in_bounds px py -> f px py b = g px py b) ->
  renders c g.
Proof.
  intros Hc Hfg m Hlen. destruct (Hc m Hlen) as (fb' & Hrun & Hlen' & Hpix).
  exists fb'. split; [done|]. split; [done|].
  intros px py Hp. rewrite Hpix by done. by apply Hfg.
Qed.

Lemma renders_for_range body F n : forall lo,
  (forall i, renders (body i) (F i)) ->
  renders (SSD1306.for_range lo n body) (iter_pixels F lo n).
Proof.
  induction n as [|n IH]; intros lo Hbody; cbn [SSD1306.for_range].
  - apply renders_ret.
  - eapply renders_ext.
    + apply renders_bind; [apply Hbody | by apply IH].
    + done.
Qed.

(** A loop that sets the pixels (x, j) for [j] from [lo], [n] times. *)
Lemma iter_pixels_column x color n : forall lo px py b,
  iter_pixels (fun j => set_pixel_fn x j color) lo n px py b =
  if bool_decide (px = x /\ lo <= py < lo + Z.of_nat n) then lit color else b.
Proof.
  induction n as [|n IH]; intros lo px py b; cbn [iter_pixels].
  - rewrite bool_decide_eq_false_2; [done | lia].
  - rewrite IH. unfold set_pixel_fn.
    repeat case_bool_decide; try done; lia.
Qed.

Lemma iter_pixels_rect y h color n : forall lo px py b,
  iter_pixels
    (fun i px py b =>
       if bool_decide (px = i /\ y <= py < y + h) then lit color else b)
    lo n px py b =
  if bool_decide (lo <= px < lo + Z.of_nat n /\ y <= py < y + h)
  then lit color else b.
Proof.
  induction n as [|n IH]; intros lo px py b; cbn [iter_pixels].
  - rewrite bool_decide_eq_false_2; [done | lia].
  - rewrite IH. repeat case_bool_decide; try done; lia.
Qed.

Lemma renders_fill_rect x y w h color :
  renders (SSD1306.ssd1306_fill_rect x y w h color)
    (fun px py b =>
       if bool_decide (x <= px < x + w /\ y <= py < y + h) then lit color
       else b).
Proof.
  unfold SSD1306.ssd1306_fill_rect.
  eapply renders_ext.
  - apply renders_for_range. intros i.
    eapply renders_ext.
    + apply renders_for_range. intros j. apply renders_set_pixel.
    + intros px py b _. apply iter_pixels_column.
  - intros px py b _. cbv beta.
    rewrite (iter_pixels_rect y (Z.of_nat (Z.to_nat h))).
    repeat case_bool_decide; try done; lia.
Qed.

(** X8. On the 1024-byte framebuffer, [ssd1306_fill_rect x y w h color]
    gives every in-bounds pixel of the rectangle (columns [x] to
    [x + w - 1], rows [y] to [y + h - 1]) the value of [color] and leaves
    every other pixel as it was; the part of the rectangle that lies off
    the display is ignored, and a zero or negative width or height changes
    nothing. *)
Theorem fill_rect_pixels (m : machine) (x y w h color px py : Z) :
  length (ssd1306_buffer m) = Z.to_nat SSD1306.BUFFER_SIZE ->
  in_bounds px py ->
  let m' := exec (SSD1306.ssd1306_fill_rect x y w h color) m in
  get_pixel (ssd1306_buffer m') px py =
    (if bool_decide (x <= px < x + w /\ y <= py < y + h) then lit color
     else get_pixel (ssd1306_buffer m) px py) /\
  length (ssd1306_buffer m') = length (ssd1306_buffer m) /\
  m' = with_buffer (ssd1306_buffer m') m.
Proof.
  intros Hlen Hp m'.
  destruct (renders_fill_rect x y w h color m Hlen)
    as (fb' & Hrun & Hlen' & Hpix).
  unfold m', exec. rewrite Hrun. cbn [snd].
  unfold with_buffer at 1 2 3. cbn [exec snd set_ssd1306_buffer ssd1306_buffer].
  split; [by apply Hpix|]. split; [congruence | reflexivity].
Qed.

(** ** Glyphs *)

(** The loop over the rows of one glyph column. *)
Lemma iter_pixels_glyph_column cx y line n : forall lo px py b,
  iter_pixels
    (fun j px py b =>
       b || (Z.testbit line j && bool_decide (px = cx /\ py = y + j)))
    lo n px py b =
  b || (bool_decide (px = cx) && (lo <=? py - y)
        && (py - y <? lo + Z.of_nat n) && Z.testbit line (py - y)).
Proof.
  induction n as [|n IH]; intros lo px py b; cbn [iter_pixels].
  - destruct (Z.leb_spec lo (py - y)), (Z.ltb_spec (py - y) (lo + Z.of_nat 0));
      try lia; by rewrite ?andb_false_r, ?andb_false_l, ?orb_false_r.
  - rewrite IH. destruct (decide (py - y = lo)) as [Hrow|Hrow].
    + rewrite Hrow.
      replace (bool_decide (px = cx /\ py = y + lo))
        with (bool_decide (px = cx))
        by (apply bool_decide_ext; lia).
      destruct (Z.leb_spec (lo + 1) lo); [lia|].
      destruct (Z.leb_spec lo lo); [|lia].
      destruct (Z.ltb_spec lo (lo + Z.of_nat (S n))); [|lia].
      rewrite andb_false_r, andb_false_l, orb_false_r, !andb_true_r.
      by rewrite andb_comm.
    + rewrite (bool_decide_eq_false_2 (px = cx /\ py = y + lo)) by lia.
      rewrite andb_false_r, orb_false_r. do 2 f_equal.
      destruct (Z.leb_spec (lo + 1) (py - y)), (Z.leb_spec lo (py - y)),
        (Z.ltb_spec (py - y) (lo + 1 + Z.of_nat n)),
        (Z.ltb_spec (py - y) (lo + Z.of_nat (S n))); try lia; done.
Qed.

(** The loop over the columns of a glyph. *)
Lemma iter_pixels_glyph x y (glyph : Z -> Z) n : forall lo px py b,
  iter_pixels
    (fun i px py b =>
       b || (bool_decide (px = x + i) && (0 <=? py - y) && (py - y <? 7)
             && Z.testbit (glyph i) (py - y)))
    lo n px py b =
  b || ((lo <=? px - x) && (px - x <? lo + Z.of_nat n)
        && (0 <=? py - y) && (py - y <? 7)
        && Z.testbit (glyph (px - x)) (py - y)).
Proof.
  induction n as [|n IH]; intros lo px py b; cbn [iter_pixels].
  - destruct (Z.leb_spec lo (px - x)), (Z.ltb_spec (px - x) (lo + Z.of_nat 0));
      try lia; by rewrite ?andb_false_r, ?andb_false_l, ?orb_false_r.
  - rewrite IH. destruct (decide (px - x = lo)) as [Hcol|Hcol].
    + rewrite Hcol. rewrite (bool_decide_eq_true_2 (px = x + lo)) by lia.
      destruct (Z.leb_spec (lo + 1) lo); [lia|].
      destruct (Z.leb_spec lo lo); [|lia].
      destruct (Z.ltb_spec lo (lo + Z.of_nat (S n))); [|lia].
      cbn [andb]. by rewrite orb_false_r.
    + rewrite (bool_decide_eq_false_2 (px = x + lo)) by lia.
      cbn [andb]. rewrite orb_false_r.
      assert ((lo + 1 <=? px - x) && (px - x <? lo + 1 + Z.of_nat n) =
              (lo <=? px - x) && (px - x <? lo + Z.of_nat (S n))) as ->; [|done].
      destruct (Z.leb_spec (lo + 1) (px - x)), (Z.leb_spec lo (px - x)),
        (Z.ltb_spec (px - x) (lo + 1 + Z.of_nat n)),
        (Z.ltb_spec (px - x) (lo + Z.of_nat (S n))); try lia; done.
Qed.

Lemma renders_draw_char font x y c :
  renders (SSD1306.ssd1306_draw_char font x y c)
          (fun px py b => b || glyph_pixel font x y c px py).
Proof.
  unfold SSD1306.ssd1306_draw_char. cbn zeta. fold (printable c).
  eapply renders_ext.
  - apply renders_for_range. intros i. cbn zeta.
    eapply renders_ext.
    + apply renders_for_range. intros j.
      instantiate (1 := fun j px py b =>
        b || (Z.testbit (font (printable c - 32) i) j
              && bool_decide (px = x + i /\ py = y + j))).
      cbv beta. rewrite land_BIT_testbit.
      destruct (Z.testbit (font (printable c - 32) i) j).
      * eapply renders_ext; [apply renders_set_pixel|].
        intros px py b _. unfold set_pixel_fn. cbn [andb].
        case_bool_decide; [by rewrite orb_true_r | by rewrite orb_false_r].
      * eapply renders_ext; [apply renders_ret|].
        intros px py b _. cbn [andb]. by rewrite orb_false_r.
    + intros px py b _. apply iter_pixels_glyph_column.
  - intros px py b _. cbv beta.
    rewrite (iter_pixels_glyph x y (font (printable c - 32))).
    unfold glyph_pixel. rewrite Z.add_0_l. reflexivity.
Qed.

Lemma renders_draw_cells font cells :
  renders (draw_cells font cells)
          (fun px py b => b || cells_pixel font cells px py).
Proof.
  induction cells as [|[[cx cy] c] rest IH]; cbn [draw_cells].
  - eapply renders_ext; [apply renders_ret|].
    intros px py b _. unfold cells_pixel. cbn. by rewrite orb_false_r.
  - eapply renders_ext.
    + apply renders_bind; [apply renders_draw_char | exact IH].
    + intros px py b _. cbv beta. unfold cells_pixel. cbn [existsb fst snd].
      by rewrite orb_assoc.
Qed.

(** X9. On the 1024-byte framebuffer, [ssd1306_draw_char x y c] lights
    exactly the pixels of the glyph: an in-bounds pixel is lit afterwards
    when it was lit before or when it lies in the 5-column, 7-row cell at
    (x, y) and the glyph's column byte has the bit of its row set.  A code
    outside 32..126 is drawn as the space (code 32).  No pixel is cleared,
    and the part of the cell that lies off the display is dropped. *)
Theorem draw_char_pixels
    (font : Z -> Z -> Z) (m : machine) (x y c px py : Z) :
  length (ssd1306_buffer m) = Z.to_nat SSD1306.BUFFER_SIZE ->
  in_bounds px py ->
  let m' := exec (SSD1306.ssd1306_draw_char font x y c) m in
  get_pixel (ssd1306_buffer m') px py =
    get_pixel (ssd1306_buffer m) px py
    || ((0 <=? px - x) && (px - x <? 5) && (0 <=? py - y) && (py - y <? 7)
        && Z.testbit (font (printable c - 32) (px - x)) (py - y)) /\
  (~ 32 <= c <= 126 -> m' = exec (SSD1306.ssd1306_draw_char font x y 32) m) /\
  length (ssd1306_buffer m') = length (ssd1306_buffer m) /\
  m' = with_buffer (ssd1306_buffer m') m.
Proof.
  intros Hlen Hp m'.
  destruct (renders_draw_char font x y c m Hlen) as (fb' & Hrun & Hlen' & Hpix).
  split; [|split].
  - unfold m', exec. rewrite Hrun. cbn [snd].
    unfold with_buffer. cbn [exec snd set_ssd1306_buffer ssd1306_buffer].
    by apply Hpix.
  - intros Hc. unfold m', exec, SSD1306.ssd1306_draw_char.
    destruct ((c <? 32) || (c >? 126)) eqn:Htest; [done|].
    apply orb_false_iff in Htest as [H1 H2].
    apply Z.ltb_ge in H1. rewrite Z.gtb_ltb in H2. apply Z.ltb_ge in H2. lia.
  - unfold m', exec. rewrite Hrun. cbn [snd].
    unfold with_buffer at 1 2 3.
    cbn [exec snd set_ssd1306_buffer ssd1306_buffer].
    split; [congruence | reflexivity].
Qed.

(** X10. On the 1024-byte framebuffer, an in-bounds pixel is lit after
    [ssd1306_draw_string x y str] when it was lit before or when the glyph
    of one of the characters covers it, each character standing where the
    layout rule puts it; for a string of ordinary characters that fits one
    row these places are the columns [x], [x + 6], [x + 12], ... of row
    [y]. *)
Theorem draw_string_pixels
    (font : Z -> Z -> Z) (m : machine) (x y : Z) (str : string) (px py : Z) :
  length (ssd1306_buffer m) = Z.to_nat SSD1306.BUFFER_SIZE ->
  in_bounds px py ->
  let m' := exec (SSD1306.ssd1306_draw_string font x y str) m in
  get_pixel (ssd1306_buffer m') px py =
    get_pixel (ssd1306_buffer m) px py
    || cells_pixel font (layout x x y str) px py /\
  (plain str ->
   x + 6 * (Z.of_nat (String.length str) - 1) < SSD1306.SSD1306_WIDTH ->
   get_pixel (ssd1306_buffer m') px py =
     get_pixel (ssd1306_buffer m) px py
     || cells_pixel font (row_cells x y str) px py) /\
  length (ssd1306_buffer m') = length (ssd1306_buffer m).
Proof.
  intros Hlen Hp m'.
  destruct (renders_draw_cells font (layout x x y str) m Hlen)
    as (fb' & Hrun & Hlen' & Hpix).
  assert (ssd1306_buffer m' = fb') as Hfb.
  { unfold m', exec, SSD1306.ssd1306_draw_string.
    rewrite draw_string_loop_layout, Hrun. reflexivity. }
  rewrite Hfb. split; [by apply Hpix|]. split; [|congruence].
  intros Hplain Hfit. rewrite <- (layout_one_row str x x y) by done.
  by apply Hpix.
Qed.

(** * Further properties of the display driver *)

(** X11. [ssd1306_clear] sends nothing on the bus and leaves a
    1024-byte framebuffer in which every pixel reads off, whatever the
    framebuffer held before; a string drawn right after it therefore shows
    exactly the pixels of its glyphs, at the places of the layout rule. *)
Theorem clear_then_draw_string
    (font : Z -> Z -> Z) (m : machine) (x y : Z) (str : string) (px py : Z) :
  in_bounds px py ->
  let mc := exec SSD1306.ssd1306_clear m in
  let m' := exec (SSD1306.ssd1306_clear;;
                  SSD1306.ssd1306_draw_string font x y str) m in
  (forall qx qy, get_pixel (ssd1306_buffer mc) qx qy = false) /\
  length (ssd1306_buffer mc) = Z.to_nat SSD1306.BUFFER_SIZE /\
  mc = with_buffer blank m /\
  get_pixel (ssd1306_buffer m') px py =
    cells_pixel font (layout x x y str) px py.
Proof.
  intros Hp mc m'.
  assert (mc = with_buffer blank m) as Hmc by reflexivity.
  assert (forall qx qy, get_pixel (ssd1306_buffer mc) qx qy = false) as Hoff.
  { intros qx qy. rewrite Hmc. unfold get_pixel, with_buffer.
    cbn [exec snd set_ssd1306_buffer ssd1306_buffer].
    rewrite nth_lookup. unfold blank.
    destruct (replicate _ _ !! _) as [b|] eqn:Hb; cbn [default];
      [|apply Z.bits_0].
    apply lookup_replicate in Hb as [-> _]. apply Z.bits_0. }
  assert (length (ssd1306_buffer mc) = Z.to_nat SSD1306.BUFFER_SIZE) as Hlen.
  { rewrite Hmc. apply blank_length. }
  split; [exact Hoff|]. split; [exact Hlen|]. split; [exact Hmc|].
  unfold m'. rewrite exec_bind. fold mc.
  destruct (renders_draw_cells font (layout x x y str) mc Hlen)
    as (fb' & Hrun & _ & Hpix).
  unfold exec, SSD1306.ssd1306_draw_string.
  rewrite draw_string_loop_layout, Hrun. cbn [snd].
  unfold with_buffer at 1. cbn [exec snd set_ssd1306_buffer ssd1306_buffer].
  rewrite Hpix by done. by rewrite Hoff.
Qed.

(** ** Control commands *)

Lemma commands_wave_ends_with_stop scl sda d addr cs inp : forall c k,
  exists w,
    commands_wave scl sda d addr (c :: cs) inp k = w ++ stop_wave scl sda d.
Proof.
  induction cs as [|c1 cs IH]; intros c k.
  - cbn [commands_wave]. rewrite app_nil_r.
    unfold command_wave, transaction_wave. eexists. by rewrite app_assoc.
  - set (w0 := command_wave scl sda d addr c inp k).
    destruct (IH c1 (count_in w0 + k)%nat) as [w Hw].
    exists (w0 ++ w). rewrite <- app_assoc, <- Hw. reflexivity.
Qed.

(** What a sequence of [ssd1306_send_command] calls puts on the wire when
    every byte is acknowledged. *)
Lemma send_then_frames {A} (cmds : list Z) (a : A) m :
  valid_pins m -> bus_idle m -> always_acks m -> Forall is_byte cmds ->
  let c := send_then cmds (mret a) in
  frames_of m (emitted m (exec c m)) =
    flat_map (command_txn (ssd1306_i2c_addr m)) cmds /\
  ssd1306_buffer (exec c m) = ssd1306_buffer m /\
  bus_idle (exec c m).
Proof.
  intros (Hscl & Hsda & Hne) Hidle Hacks Hcmds c.
  assert (exec c m =
          after m (commands_wave (scl_gpio m) (sda_gpio m) (i2c_delay_cycles m)
                     (ssd1306_i2c_addr m) cmds (gpio_in m) (in_count m)))
    as Hrun.
  { unfold exec, c. by rewrite send_then_run. }
  rewrite Hrun, emitted_after.
  assert (mon_run (scl_gpio m) (sda_gpio m) mon_idle
            (commands_wave (scl_gpio m) (sda_gpio m) (i2c_delay_cycles m)
               (ssd1306_i2c_addr m) cmds (gpio_in m) (in_count m)) =
          (flat_map (command_txn (ssd1306_i2c_addr m)) cmds, mon_idle))
    as Hmon.
  { apply run_commands_wave; [lia | lia | exact Hne | exact Hacks | exact Hcmds]. }
  split; [|split].
  - unfold frames_of, observe. rewrite mon_of_idle by done. by rewrite Hmon.
  - reflexivity.
  - destruct cmds as [|c0 cs]; [by rewrite after_nil|].
    destruct (commands_wave_ends_with_stop (scl_gpio m) (sda_gpio m)
                (i2c_delay_cycles m) (ssd1306_i2c_addr m) cs (gpio_in m)
                c0 (in_count m)) as [w Hw].
    unfold bus_idle. after_simpl. rewrite Hw.
    apply drive_stop_wave_idle; lia.
Qed.

Lemma set_contrast_shape level :
  SSD1306.ssd1306_set_contrast level = send_then [0x81; level] (mret tt).
Proof. unfold SSD1306.ssd1306_set_contrast. cbn [send_then]. reflexivity. Qed.

Lemma display_on_shape on :
  SSD1306.ssd1306_display_on on =
  send_then [if on then 0xAF else 0xAE] (mret tt).
Proof.
  unfold SSD1306.ssd1306_display_on. cbn [send_then]. by destruct on.
Qed.

Lemma invert_display_shape invert :
  SSD1306.ssd1306_invert_display invert =
  send_then [if invert then 0xA7 else 0xA6] (mret tt).
Proof.
  unfold SSD1306.ssd1306_invert_display. cbn [send_then]. by destruct invert.
Qed.

(** X12. On an idle bus with a device that acknowledges,
    [ssd1306_set_contrast level] issues two command transactions, 0x81 and
    the level, [ssd1306_display_on] one, 0xAF to switch on and 0xAE to
    switch off, and [ssd1306_invert_display] one, 0xA7 to invert and 0xA6
    for normal polarity; none of them touches the framebuffer, and the bus
    is idle afterwards. *)
Theorem control_commands_on_the_wire
    (m : machine) (level : Z) (on invert : bool) :
  valid_pins m -> bus_idle m -> always_acks m -> is_byte level ->
  let a := ssd1306_i2c_addr m in
  let sent c := frames_of m (emitted m (exec c m)) in
  let kept c :=
    ssd1306_buffer (exec c m) = ssd1306_buffer m /\ bus_idle (exec c m) in
  sent (SSD1306.ssd1306_set_contrast level) =
    command_txn a 0x81 ++ command_txn a level /\
  sent (SSD1306.ssd1306_display_on on) =
    command_txn a (if on then 0xAF else 0xAE) /\
  sent (SSD1306.ssd1306_invert_display invert) =
    command_txn a (if invert then 0xA7 else 0xA6) /\
  kept (SSD1306.ssd1306_set_contrast level) /\
  kept (SSD1306.ssd1306_display_on on) /\
  kept (SSD1306.ssd1306_invert_display invert).
Proof.
  intros Hpins Hidle Hacks Hlevel a sent kept.
  assert (Forall is_byte [0x81; level]) as H1.
  { apply Forall_cons; split; [unfold is_byte; lia|].
    apply Forall_cons; split; [done | constructor]. }
  assert (Forall is_byte [if on then 0xAF else 0xAE]) as H2.
  { apply Forall_cons; split; [destruct on; unfold is_byte; lia | constructor]. }
  assert (Forall is_byte [if invert then 0xA7 else 0xA6]) as H3.
  { apply Forall_cons; split;
      [destruct invert; unfold is_byte; lia | constructor]. }
  destruct (send_then_frames [0x81; level] tt m Hpins Hidle Hacks H1)
    as (F1 & B1 & I1).
  destruct (send_then_frames [if on then 0xAF else 0xAE] tt m
              Hpins Hidle Hacks H2) as (F2 & B2 & I2).
  destruct (send_then_frames [if invert then 0xA7 else 0xA6] tt m
              Hpins Hidle Hacks H3) as (F3 & B3 & I3).
  unfold sent, kept.
  rewrite set_contrast_shape, display_on_shape, invert_display_shape.
  rewrite F1, F2, F3. cbn [flat_map]. rewrite !app_nil_r.
  split; [reflexivity|]. split; [reflexivity|]. split; [reflexivity|].
  split; [exact (conj B1 I1)|]. split; [exact (conj B2 I2)|].
  exact (conj B3 I3).
Qed.

(** ** An absent device *)

Section Absent.
Variables scl sda d addr : Z.
Variable inp : nat -> Z.
Hypothesis Hscl : 0 <= scl.
Hypothesis Hsda : 0 <= sda.
Hypothesis Hpins : scl <> sda.
Hypothesis Hnacks : forall k, acked sda (inp k) = false.

Lemma run_aborted bs k :
  Forall is_byte (address_byte addr :: bs) ->
  mon_run scl sda mon_idle
    (transaction_wave scl sda d (address_byte addr :: bs) inp k) =
  (aborted_txn addr, mon_idle).
Proof.
  intros Hbs. rewrite run_transaction_wave by done.
  cbn [byte_frames]. by rewrite Hnacks.
Qed.

Lemma run_commands_wave_absent cmds : forall k,
  Forall is_byte cmds ->
  mon_run scl sda mon_idle (commands_wave scl sda d addr cmds inp k) =
  (flat_map (fun _ => aborted_txn addr) cmds, mon_idle).
Proof.
  induction cmds as [|c cs IH]; intros k Hcs; [done|].
  apply Forall_cons in Hcs as [Hc Hcs]. cbn [commands_wave flat_map].
  rewrite mon_run_app. unfold command_wave. rewrite run_aborted, IH; [done..|].
  apply Forall_cons; split; [apply u8_is_byte|].
  apply Forall_cons; split; [unfold is_byte; lia|].
  apply Forall_cons; split; [done | constructor].
Qed.

Lemma run_display_wave_absent fb k :
  Forall is_byte fb ->
  mon_run scl sda mon_idle (display_wave scl sda d addr fb inp k) =
  (flat_map (fun _ => aborted_txn addr) window_commands ++ aborted_txn addr,
   mon_idle).
Proof.
  intros Hfb. unfold display_wave. cbn zeta.
  rewrite mon_run_app, run_commands_wave_absent by apply window_commands_bytes.
  unfold data_wave. rewrite run_aborted; [done|].
  apply Forall_cons; split; [apply u8_is_byte|].
  apply Forall_cons; split; [unfold is_byte; lia | by apply payload_bytes].
Qed.
End Absent.

(** X13. With no device on the bus (no byte is ever acknowledged),
    [ssd1306_send_command] returns false after sending only the address
    byte, and [ssd1306_init] still returns true: after the settle delay it
    goes through all of its 32 transactions (25 bring-up commands, 6 range
    commands, 1 framebuffer transfer), each of which is a start, the
    unacknowledged address byte and a stop, and no command or framebuffer
    byte is ever put on the wire. *)
Theorem ssd1306_init_without_device
    (config : SSD1306.ssd1306_config_t) (m : machine) (cmd : Z) :
  0 <= SSD1306.scl_pin config <= 21 ->
  0 <= SSD1306.sda_pin config <= 21 ->
  SSD1306.scl_pin config <> SSD1306.sda_pin config ->
  is_byte cmd ->
  (forall k, acked (SSD1306.sda_pin config) (gpio_in m k) = false) ->
  let ms := settled config m in
  let a := SSD1306.i2c_addr config in
  eval (SSD1306.ssd1306_send_command cmd) ms = false /\
  frames_of ms (emitted ms (exec (SSD1306.ssd1306_send_command cmd) ms)) =
    aborted_txn a /\
  eval (SSD1306.ssd1306_init config) m = true /\
  frames_of ms (emitted ms (exec (SSD1306.ssd1306_init config) m)) =
    concat (replicate 32 (aborted_txn a)).
Proof.
  intros Hscl Hsda Hne Hcmd Hnacks ms a.
  assert (scl_gpio ms = SSD1306.scl_pin config /\
          sda_gpio ms = SSD1306.sda_pin config /\
          ssd1306_i2c_addr ms = a /\
          gpio_in ms = gpio_in m) as (Hc & Hd & Ha & Hin).
  { unfold ms. rewrite settled_eq. done. }
  assert (bus_idle ms) as Hidle by (apply settled_bus_idle; lia).
  pose proof (emits_ssd1306_send_command cmd ms) as Hsend. cbn zeta in Hsend.
  rewrite Ha, Hc, Hd, Hin in Hsend.
  split; [|split; [|split]].
  - rewrite (eval_emits _ _ _ _ Hsend). cbn [bytes_wave].
    by rewrite Hnacks.
  - rewrite (emitted_emits _ _ _ _ Hsend).
    unfold frames_of, observe. rewrite mon_of_idle, Hc, Hd by done.
    unfold command_wave. rewrite run_aborted; [done|lia|lia|done|done|].
    apply Forall_cons; split; [apply u8_is_byte|].
    apply Forall_cons; split; [unfold is_byte; lia|].
    apply Forall_cons; split; [done | constructor].
  - unfold eval. pose proof (ssd1306_init_spec config m) as H.
    cbn zeta in H. by rewrite H.
  - unfold exec. pose proof (ssd1306_init_spec config m) as H.
    cbn zeta in H. rewrite H. cbn [snd]. fold ms.
    set (w1 := commands_wave _ _ _ _ _ _ _).
    set (w2 := display_wave _ _ _ _ _ _ _).
    assert (emitted ms (after (with_buffer blank (after ms w1)) w2) = w1 ++ w2)
      as ->.
    { unfold emitted, with_buffer. cbn [exec snd set_ssd1306_buffer].
      after_simpl. rewrite <- app_assoc. apply drop_app_length. }
    unfold frames_of, observe. rewrite mon_of_idle, Hc, Hd by done.
    unfold w1, w2.
    rewrite mon_run_app, run_commands_wave_absent;
      [|lia|lia|done|done|apply bringup_commands_bytes].
    rewrite run_display_wave_absent; [|lia|lia|done|done|apply blank_bytes].
    reflexivity.
Qed.

(** ** Transactions, whatever the device answers *)

Section AnyDevice.
Variables scl sda d addr : Z.
Variable inp : nat -> Z.
Hypothesis Hscl : 0 <= scl.
Hypothesis Hsda : 0 <= sda.
Hypothesis Hpins : scl <> sda.

Lemma command_bytes_ok c : is_byte c -> Forall is_byte [address_byte addr; 0x80; c].
Proof.
  intros Hc. apply Forall_cons; split; [apply u8_is_byte|].
  apply Forall_cons; split; [unfold is_byte; lia|].
  apply Forall_cons; split; [done | constructor].
Qed.

Lemma run_commands_wave_any cmds : forall k,
  Forall is_byte cmds ->
  mon_run scl sda mon_idle (commands_wave scl sda d addr cmds inp k) =
  (concat (commands_txns sda addr cmds inp k), mon_idle).
Proof.
  induction cmds as [|c cs IH]; intros k Hcs; [done|].
  apply Forall_cons in Hcs as [Hc Hcs].
  cbn [commands_wave commands_txns concat].
  rewrite mon_run_app. unfold command_wave at 1.
  rewrite run_transaction_wave by (done || by apply command_bytes_ok).
  unfold command_wave. rewrite count_in_transaction_wave, IH by done.
  reflexivity.
Qed.

Lemma byte_frames_nonempty b bs k : byte_frames sda (b :: bs) inp k <> [].
Proof. cbn [byte_frames]. by destruct (acked sda (inp k)). Qed.

Lemma commands_txns_closed cmds : forall k,
  Forall closed_txn (commands_txns sda addr cmds inp k) /\
  length (commands_txns sda addr cmds inp k) = length cmds.
Proof.
  induction cmds as [|c cs IH]; intros k; cbn [commands_txns].
  - split; [constructor | done].
  - set (n := length (byte_frames sda [address_byte addr; 128; c] inp k)).
    destruct (IH (n + k)%nat) as [Hclosed Hlen].
    split; [|cbn [length]; by rewrite Hlen].
    apply Forall_cons. split; [|exact Hclosed].
    eexists. split; [reflexivity|].
    split; [apply byte_frames_nonempty | apply byte_frames_are_bytes].
Qed.
End AnyDevice.

(** X14. Whatever the device answers, [ssd1306_display] on an idle bus
    issues exactly seven transactions and closes every one of them: the
    wire shows seven times a start, one or more bytes and a stop, and
    nothing else; the bus is idle afterwards and the framebuffer is as it
    was.  A missing acknowledge shortens a transaction but never leaves one
    open and never stops the refresh. *)
Theorem ssd1306_display_closes_transactions (m : machine) :
  valid_pins m -> bus_idle m -> Forall is_byte (ssd1306_buffer m) ->
  let m' := exec SSD1306.ssd1306_display m in
  (exists txns,
     frames_of m (emitted m m') = concat txns /\
     length txns = 7%nat /\ Forall closed_txn txns) /\
  bus_idle m' /\
  ssd1306_buffer m' = ssd1306_buffer m.
Proof.
  intros (Hscl & Hsda & Hne) Hidle Hfb m'.
  pose proof (emits_ssd1306_display m) as Hc.
  unfold m'. rewrite (emitted_emits _ _ _ _ Hc), (exec_emits _ _ _ _ Hc).
  set (scl := scl_gpio m). set (sda := sda_gpio m).
  set (d := i2c_delay_cycles m). set (a := ssd1306_i2c_addr m).
  set (inp := gpio_in m). set (k := in_count m).
  set (w := commands_wave scl sda d a window_commands inp k).
  set (data := address_byte a :: 0x40
                 :: payload (ssd1306_buffer m) 0 (Z.to_nat SSD1306.BUFFER_SIZE)).
  assert (Forall is_byte data) as Hdata.
  { apply Forall_cons; split; [apply u8_is_byte|].
    apply Forall_cons; split; [unfold is_byte; lia | by apply payload_bytes]. }
  destruct (commands_txns_closed sda a inp window_commands k)
    as [Hclosed Hlen].
  split; [|split].
  - exists (commands_txns sda a window_commands inp k
            ++ [FStart :: byte_frames sda data inp (count_in w + k)
                ++ [FStop]]).
    split; [|split].
    + unfold frames_of, observe. rewrite mon_of_idle by done.
      unfold display_wave. cbn zeta. fold scl sda d a inp k w.
      rewrite mon_run_app.
      unfold w at 1.
      rewrite run_commands_wave_any;
        [|lia|lia|exact Hne|apply window_commands_bytes].
      unfold data_wave. fold data.
      rewrite run_transaction_wave; [|lia|lia|exact Hne|exact Hdata].
      cbn [fst]. rewrite concat_app. cbn [concat]. by rewrite app_nil_r.
    + rewrite length_app, Hlen. reflexivity.
    + apply Forall_app. split; [exact Hclosed|].
      apply Forall_cons. split; [|constructor].
      eexists. split; [reflexivity|].
      split; [apply byte_frames_nonempty | apply byte_frames_are_bytes].
  - unfold bus_idle. after_simpl. unfold display_wave. cbn zeta.
    unfold data_wave, transaction_wave.
    rewrite !app_assoc. apply drive_stop_wave_idle; lia.
  - reflexivity.
Qed.

(** ** The properties on the board of [app_main] *)

Lemma bench_valid_pins : valid_pins bench.
Proof. unfold valid_pins, bench. rewrite settled_eq. cbn. lia. Qed.

Lemma bench_bus_idle : bus_idle bench.
Proof. apply settled_bus_idle; cbn; lia. Qed.

Lemma bench_always_acks : always_acks bench.
Proof. intros k. unfold bench. rewrite settled_eq. reflexivity. Qed.

(** The claim of a 27-command sequence that sets the contrast to its
    maximum fails on the board: after the settle delay [ssd1306_init]
    issues 31 command transactions, the first 25 of which are the bring-up
    sequence that ends with display-on, and the contrast level it sends is
    0xCF, not 0xFF. *)
Lemma init_sequence_counterexample :
  let m := power_on device_present in
  let ms := settled oled_config m in
  let cmds :=
    command_bytes
      (frames_of ms (emitted ms (exec (SSD1306.ssd1306_init oled_config) m))) in
  length cmds = 31%nat /\ length cmds <> 27%nat /\
  take 25 cmds = bringup_commands /\ nth 24 cmds 0 = 0xAF /\
  nth 16 cmds 0 = 0x81 /\ nth 17 cmds 0 = 0xCF /\ nth 17 cmds 0 <> 0xFF.
Proof.
  cbn zeta. rewrite init_frames; [|cbn; lia|cbn; lia|cbn; lia|done].
  vm_compute. repeat split; discriminate.
Qed.

Lemma bench_buffer : ssd1306_buffer bench = blank.
Proof. unfold bench. by rewrite settled_eq. Qed.

Lemma bench_buffer_bytes : Forall is_byte (ssd1306_buffer bench).
Proof. rewrite bench_buffer. apply blank_bytes. Qed.

Lemma bench_buffer_length :
  length (ssd1306_buffer bench) = Z.to_nat SSD1306.BUFFER_SIZE.
Proof. rewrite bench_buffer. apply blank_length. Qed.

Lemma bench_addr : ssd1306_i2c_addr bench = 0x3C.
Proof. unfold bench. by rewrite settled_eq. Qed.

(** The claim of exactly two command transactions before the framebuffer
    transfer fails on the board: refreshing the cleared framebuffer takes
    six command transactions and one data transaction, seven in all and
    not three. *)
Lemma display_transactions_counterexample :
  let fs := frames_of bench (emitted bench (exec SSD1306.ssd1306_display bench)) in
  command_bytes fs = [0x21; 0; 127; 0x22; 0; 7] /\
  length (command_bytes fs) <> 2%nat /\
  count_starts fs = 7%nat /\ count_starts fs <> (2 + 1)%nat.
Proof.
  pose proof (display_frames bench bench_valid_pins bench_bus_idle
                bench_always_acks bench_buffer_bytes) as Hfs.
  cbv zeta. rewrite Hfs, bench_addr, bench_buffer.
  vm_compute. repeat split; discriminate.
Qed.

(** The claim that drawing past the bottom row wraps the buffer index
    rather than dropping the pixels fails: a solid glyph drawn at row 64 of
    a cleared framebuffer has a pixel at (0, 64), which wrapping would put
    in bit 0 of byte 0; the framebuffer stays cleared. *)
Lemma draw_string_counterexample :
  let m := power_on device_present in
  let m' := exec (SSD1306.ssd1306_draw_string block_font 0 64 "A") m in
  negb (Z.land (block_font (65 - 32) 0) (BIT 0) =? 0) = true /\
  wrapped_index 0 64 = 0%nat /\
  Z.testbit (nth (wrapped_index 0 64) (ssd1306_buffer m') 0) (Z.land 64 7)
    = false /\
  ssd1306_buffer m' = blank.
Proof. vm_compute. repeat split. Qed.

(** *** Instances *)

Lemma ssd1306_init_command_sequence_witness :
  let m := power_on device_present in
  let ms := settled oled_config m in
  exists level,
    frames_of ms (emitted ms (exec (SSD1306.ssd1306_init oled_config) m)) =
    flat_map (command_txn 0x3C)
      [0xAE; 0xD5; 0x80; 0xA8; 0x3F; 0xD3; 0x00; 0x40; 0x8D; 0x14; 0x20;
       0x00; 0xA1; 0xC8; 0xDA; 0x12; 0x81; level; 0xD9; 0xF1; 0xDB; 0x40;
       0xA4; 0xA6; 0xAF]
    ++ flat_map (command_txn 0x3C) window_commands
    ++ data_txn 0x3C blank.
Proof.
  apply (ssd1306_init_command_sequence oled_config (power_on device_present));
    [cbn; lia | cbn; lia | cbn; lia | reflexivity].
Defined.

Lemma ssd1306_display_transactions_witness :
  let a := ssd1306_i2c_addr bench in
  let fs := frames_of bench (emitted bench (exec SSD1306.ssd1306_display bench)) in
  fs = flat_map (command_txn a) [0x21; 0; 127; 0x22; 0; 7]
       ++ data_txn a (ssd1306_buffer bench) /\
  count_starts fs = 7%nat /\
  ssd1306_buffer (exec SSD1306.ssd1306_display bench) = ssd1306_buffer bench.
Proof.
  exact (ssd1306_display_transactions bench bench_valid_pins bench_bus_idle
           bench_always_acks bench_buffer_length bench_buffer_bytes).
Defined.

Lemma write_transactions_are_closed_witness :
  closed_transaction (I2C.i2c_write 0x3C [0xAE] 1) bench /\
  closed_transaction (I2C.i2c_write_reg 0x3C 0x80 [0xAE] 1) bench.
Proof.
  apply (write_transactions_are_closed bench 0x3C 0x80 [0xAE] 1).
  - exact bench_valid_pins.
  - exact bench_bus_idle.
  - unfold is_byte; lia.
  - repeat constructor; unfold is_byte; lia.
Defined.

Lemma i2c_write_reg_byte_sequence_witness :
  let c := I2C.i2c_write_reg 0x3C 0x80 [0xAE; 0x55] 2 in
  eval c bench = true /\
  frames_of bench (emitted bench (exec c bench)) =
    [FStart; FByte 0x78 true; FByte 0x80 true; FByte 0xAE true;
     FByte 0x55 true; FStop] /\
  Z.testbit 0x78 0 = false /\
  Z.shiftr 0x78 1 = 0x3C.
Proof.
  apply (i2c_write_reg_byte_sequence bench 0x3C 0x80 [0xAE; 0x55]).
  - exact bench_valid_pins.
  - exact bench_bus_idle.
  - lia.
  - unfold is_byte; lia.
  - repeat constructor; unfold is_byte; lia.
  - intros j _. apply bench_always_acks.
Defined.

Lemma i2c_write_byte_waveform_witness :
  let scl := scl_gpio bench in
  let sda := sda_gpio bench in
  let d := i2c_delay_cycles bench in
  let v := gpio_in bench (in_count bench) in
  let w := emitted bench (exec (I2C.i2c_write_byte 0xA5) bench) in
  w = flat_map (fun i => bit_cell scl sda d (Z.testbit 0xA5 i))
               [7; 6; 5; 4; 3; 2; 1; 0]
      ++ release d sda ++ release d scl
      ++ [MmioRead GPIO_IN_REG v] ++ pull_low d scl /\
  eval (I2C.i2c_write_byte 0xA5) bench = negb (Z.testbit v sda) /\
  mon_run scl sda (mon_hold false) w =
    ([FByte 0xA5 (negb (Z.testbit v sda))], mon_hold true).
Proof.
  apply (i2c_write_byte_waveform bench 0xA5 false).
  - exact bench_valid_pins.
  - unfold is_byte; lia.
Defined.

Lemma set_pixel_then_get_witness :
  get_pixel (ssd1306_buffer (exec (SSD1306.ssd1306_set_pixel 10 20 1) bench))
            10 20 = true /\
  exec (SSD1306.ssd1306_set_pixel 200 5 1) bench = bench.
Proof.
  destruct (set_pixel_then_get bench 10 20 1 bench_buffer_length) as [Hin _].
  destruct (set_pixel_then_get bench 200 5 1 bench_buffer_length) as [_ Hout].
  split.
  - apply Hin.
    unfold in_bounds, SSD1306.SSD1306_WIDTH, SSD1306.SSD1306_HEIGHT. lia.
  - apply Hout.
    unfold in_bounds, SSD1306.SSD1306_WIDTH, SSD1306.SSD1306_HEIGHT. lia.
Defined.

Lemma set_pixel_frame_witness :
  let sp := SSD1306.ssd1306_set_pixel 10 20 1 in
  nth 0 (ssd1306_buffer (exec sp bench)) 0 = nth 0 (ssd1306_buffer bench) 0 /\
  length (ssd1306_buffer (exec sp bench)) = length (ssd1306_buffer bench) /\
  (~ in_bounds 10 20 ->
   ssd1306_buffer (exec sp bench) = ssd1306_buffer bench) /\
  exec sp (exec sp bench) = exec sp bench.
Proof.
  apply (set_pixel_frame bench 10 20 1 0). vm_compute. discriminate.
Defined.

Lemma draw_string_layout_and_clipping_witness :
  exec (SSD1306.ssd1306_draw_string block_font 0 64 "A") bench = bench /\
  layout 3 3 8 "Hi" = row_cells 3 8 "Hi".
Proof.
  destruct (draw_string_layout_and_clipping block_font 0 64 "A" bench)
    as (_ & _ & _ & Hbelow).
  destruct (draw_string_layout_and_clipping block_font 3 8 "Hi" bench)
    as (_ & Hrow & _ & _).
  split.
  - apply Hbelow. unfold SSD1306.SSD1306_HEIGHT. lia.
  - apply Hrow; [|unfold SSD1306.SSD1306_WIDTH; cbn; lia].
    cbn. unfold plain_char. cbn. repeat split; discriminate.
Defined.

Lemma i2c_delay_cycles_value_witness :
  let m := power_on device_present in
  let standard := {| I2C.scl_pin := 7; I2C.sda_pin := 6;
                     I2C.freq_hz := 100000 |} in
  i2c_delay_cycles (exec (I2C.i2c_init standard) m) = 400 /\
  i2c_delay_cycles (exec (SSD1306.ssd1306_init oled_config) m) = 100.
Proof.
  cbv zeta.
  destruct (i2c_delay_cycles_value
              {| I2C.scl_pin := 7; I2C.sda_pin := 6; I2C.freq_hz := 100000 |}
              oled_config (power_on device_present))
    as (Hd & _ & _ & _ & Hinit).
  - cbn. lia.
  - split; [exact Hd | exact Hinit].
Defined.

(** *** The board with any device *)

Lemma board_valid_pins inp : valid_pins (settled oled_config (power_on inp)).
Proof. unfold valid_pins. rewrite settled_eq. cbn. lia. Qed.

Lemma board_bus_idle inp : bus_idle (settled oled_config (power_on inp)).
Proof. apply settled_bus_idle; cbn; lia. Qed.

Lemma board_sda inp : sda_gpio (settled oled_config (power_on inp)) = 6.
Proof. by rewrite settled_eq. Qed.

Lemma board_gpio_in inp : gpio_in (settled oled_config (power_on inp)) = inp.
Proof. by rewrite settled_eq. Qed.

Lemma board_in_count inp : in_count (settled oled_config (power_on inp)) = 0%nat.
Proof. by rewrite settled_in_count. Qed.

Lemma in_bounds_intro x y : 0 <= x < 128 -> 0 <= y < 64 -> in_bounds x y.
Proof. unfold in_bounds, SSD1306.SSD1306_WIDTH, SSD1306.SSD1306_HEIGHT. lia. Qed.

(** *** Further instances *)

Lemma i2c_write_stops_at_first_nack_witness :
  let m := settled oled_config (power_on nack_second) in
  let bs := u8 (Z.shiftl 0x3C 1) :: payload [0xAE; 0x55] 0 2 in
  let c := I2C.i2c_write 0x3C [0xAE; 0x55] 2 in
  eval c m = false /\
  frames_of m (emitted m (exec c m)) =
    FStart :: map (fun b => FByte b true) (take 1 bs)
           ++ [FByte (nth 1 bs 0) false; FStop] /\
  in_count (exec c m) = (in_count m + 1 + 1)%nat /\
  bus_idle (exec c m).
Proof.
  apply (i2c_write_stops_at_first_nack
           (settled oled_config (power_on nack_second)) 0x3C [0xAE; 0x55] 2 1).
  - apply board_valid_pins.
  - apply board_bus_idle.
  - repeat constructor; unfold is_byte; lia.
  - lia.
  - intros j Hj. rewrite board_sda, board_gpio_in, board_in_count.
    destruct j; [reflexivity | lia].
  - rewrite board_sda, board_gpio_in, board_in_count. reflexivity.
Defined.

Lemma i2c_init_prepares_bus_witness :
  let cfg := {| I2C.scl_pin := 7; I2C.sda_pin := 6; I2C.freq_hz := 400000 |} in
  let m := power_on device_present in
  let m' := exec (I2C.i2c_init cfg) m in
  scl_gpio m' = 7 /\ sda_gpio m' = 6 /\
  in_count m' = in_count m /\
  ssd1306_buffer m' = ssd1306_buffer m /\
  ssd1306_i2c_addr m' = ssd1306_i2c_addr m /\
  bus_idle m' /\
  closed_transaction (I2C.i2c_write 0x3C [0x80; 0xAF] 2) m'.
Proof.
  apply (i2c_init_prepares_bus
           {| I2C.scl_pin := 7; I2C.sda_pin := 6; I2C.freq_hz := 400000 |}
           (power_on device_present) 0x3C [0x80; 0xAF] 2).
  - cbn; lia.
  - cbn; lia.
  - cbn; lia.
  - repeat constructor; unfold is_byte; lia.
Defined.

Lemma set_pixel_changes_one_pixel_witness :
  let m' := exec (SSD1306.ssd1306_set_pixel 10 20 1) bench in
  get_pixel (ssd1306_buffer m') 10 21 =
    (if bool_decide (10 = 10 /\ 21 = 20) then lit 1
     else get_pixel (ssd1306_buffer bench) 10 21) /\
  length (ssd1306_buffer m') = length (ssd1306_buffer bench) /\
  m' = with_buffer (ssd1306_buffer m') bench.
Proof.
  apply (set_pixel_changes_one_pixel bench 10 20 1 10 21).
  - exact bench_buffer_length.
  - apply in_bounds_intro; lia.
Defined.

Lemma fill_rect_pixels_witness :
  let m' := exec (SSD1306.ssd1306_fill_rect 120 60 16 8 1) bench in
  get_pixel (ssd1306_buffer m') 127 63 =
    (if bool_decide (120 <= 127 < 120 + 16 /\ 60 <= 63 < 60 + 8) then lit 1
     else get_pixel (ssd1306_buffer bench) 127 63) /\
  length (ssd1306_buffer m') = length (ssd1306_buffer bench) /\
  m' = with_buffer (ssd1306_buffer m') bench.
Proof.
  apply (fill_rect_pixels bench 120 60 16 8 1 127 63).
  - exact bench_buffer_length.
  - apply in_bounds_intro; lia.
Defined.

Lemma draw_char_pixels_witness :
  let m' := exec (SSD1306.ssd1306_draw_char block_font 3 8 65) bench in
  get_pixel (ssd1306_buffer m') 5 10 =
    get_pixel (ssd1306_buffer bench) 5 10
    || ((0 <=? 5 - 3) && (5 - 3 <? 5) && (0 <=? 10 - 8) && (10 - 8 <? 7)
        && Z.testbit (block_font (printable 65 - 32) (5 - 3)) (10 - 8)) /\
  (~ 32 <= 65 <= 126 ->
   m' = exec (SSD1306.ssd1306_draw_char block_font 3 8 32) bench) /\
  length (ssd1306_buffer m') = length (ssd1306_buffer bench) /\
  m' = with_buffer (ssd1306_buffer m') bench.
Proof.
  apply (draw_char_pixels block_font bench 3 8 65 5 10).
  - exact bench_buffer_length.
  - apply in_bounds_intro; lia.
Defined.

Lemma draw_string_pixels_witness :
  let m' := exec (SSD1306.ssd1306_draw_string block_font 3 8 "Hi") bench in
  get_pixel (ssd1306_buffer m') 9 10 =
    get_pixel (ssd1306_buffer bench) 9 10
    || cells_pixel block_font (row_cells 3 8 "Hi") 9 10.
Proof.
  destruct (draw_string_pixels block_font bench 3 8 "Hi" 9 10) as (_ & Hrow & _).
  - exact bench_buffer_length.
  - apply in_bounds_intro; lia.
  - apply Hrow; [|unfold SSD1306.SSD1306_WIDTH; cbn; lia].
    cbn. unfold plain_char. cbn. repeat split; discriminate.
Defined.

Lemma clear_then_draw_string_witness :
  let mc := exec SSD1306.ssd1306_clear bench in
  let m' := exec (SSD1306.ssd1306_clear;;
                  SSD1306.ssd1306_draw_string block_font 3 8 "Hi") bench in
  (forall qx qy, get_pixel (ssd1306_buffer mc) qx qy = false) /\
  length (ssd1306_buffer mc) = Z.to_nat SSD1306.BUFFER_SIZE /\
  mc = with_buffer blank bench /\
  get_pixel (ssd1306_buffer m') 9 10 =
    cells_pixel block_font (layout 3 3 8 "Hi") 9 10.
Proof.
  apply (clear_then_draw_string block_font bench 3 8 "Hi" 9 10).
  apply in_bounds_intro; lia.
Defined.

Lemma control_commands_on_the_wire_witness :
  let sent c := frames_of bench (emitted bench (exec c bench)) in
  sent (SSD1306.ssd1306_set_contrast 0x7F) =
    command_txn (ssd1306_i2c_addr bench) 0x81
    ++ command_txn (ssd1306_i2c_addr bench) 0x7F /\
  sent (SSD1306.ssd1306_display_on false) =
    command_txn (ssd1306_i2c_addr bench) 0xAE /\
  sent (SSD1306.ssd1306_invert_display true) =
    command_txn (ssd1306_i2c_addr bench) 0xA7.
Proof.
  destruct (control_commands_on_the_wire bench 0x7F false true)
    as (Hc & Hon & Hinv & _).
  - exact bench_valid_pins.
  - exact bench_bus_idle.
  - exact bench_always_acks.
  - unfold is_byte; lia.
  - cbv zeta. split; [exact Hc | split; [exact Hon | exact Hinv]].
Defined.

Lemma ssd1306_init_without_device_witness :
  let m := power_on device_absent in
  let ms := settled oled_config m in
  eval (SSD1306.ssd1306_send_command 0xAF) ms = false /\
  frames_of ms (emitted ms (exec (SSD1306.ssd1306_send_command 0xAF) ms)) =
    aborted_txn 0x3C /\
  eval (SSD1306.ssd1306_init oled_config) m = true /\
  frames_of ms (emitted ms (exec (SSD1306.ssd1306_init oled_config) m)) =
    concat (replicate 32 (aborted_txn 0x3C)).
Proof.
  apply (ssd1306_init_without_device oled_config (power_on device_absent) 0xAF).
  - cbn; lia.
  - cbn; lia.
  - cbn; lia.
  - unfold is_byte; lia.
  - intros k. reflexivity.
Defined.

Lemma ssd1306_display_closes_transactions_witness :
  let m := settled oled_config (power_on nack_second) in
  let m' := exec SSD1306.ssd1306_display m in
  (exists txns,
     frames_of m (emitted m m') = concat txns /\
     length txns = 7%nat /\ Forall closed_txn txns) /\
  bus_idle m' /\
  ssd1306_buffer m' = ssd1306_buffer m.
Proof.
  apply (ssd1306_display_closes_transactions
           (settled oled_config (power_on nack_second))).
  - apply board_valid_pins.
  - apply board_bus_idle.
  - rewrite settled_eq. apply blank_bytes.
Defined.

(** * The console *)

Lemma sys_bind_run {A B} (c : Sys A) (f : A -> Sys B) s :
  (c ≫= f) s = let (a, s') := c s in f a s'.
Proof. reflexivity. Qed.

(** Running the reads and writes of the system's variables. *)
Ltac sys_simpl :=
  repeat first
    [ rewrite sys_bind_run
    | progress cbn [gets set_buffer set_buffer_pos set_input_buffer
                    set_input_pos set_display_lines set_current_line
                    set_args_buffer mret Sys_ret
                    console_state with_mach with_lines
                    mach buffer buffer_pos input_buffer input_pos
                    display_lines current_line args_buffer] ].

Lemma with_mach_same s : with_mach (mach s) s = s.
Proof. by destruct s. Qed.

Lemma lift_emits {A} (c : M A) s a w :
  emits c (mach s) a w -> lift c s = (a, with_mach (after (mach s) w) s).
Proof. unfold lift, emits. by intros ->. Qed.

Lemma u32_byte b : is_byte b -> u32 b = b.
Proof. unfold is_byte, u32. intros H. apply Z.mod_small. lia. Qed.

Lemma flush_loop_run n : forall k s,
  sys_for (Z.of_nat k) n (fun i =>
    buf ← gets buffer;
    lift (REG_WRITE Console.USB_SERIAL_JTAG_EP1_REG
            (u32 (nth (Z.to_nat i) buf 0)))) s =
  (tt, with_mach
         (after (mach s)
            (map (fun j => fifo_write (u32 (nth j (buffer s) 0))) (seq k n)))
         s).
Proof.
  induction n as [|n IH]; intros k s; cbn [sys_for seq map].
  - by rewrite after_nil, with_mach_same.
  - rewrite sys_bind_run.
    rewrite sys_bind_run. cbn [gets].
    rewrite (lift_emits _ s tt _ (emits_REG_WRITE _ _ _)).
    replace (Z.of_nat k + 1) with (Z.of_nat (S k)) by lia.
    rewrite IH. cbn [with_mach console_state mach buffer buffer_pos
                     input_buffer input_pos display_lines current_line
                     args_buffer].
    rewrite after_after, Nat2Z.id. reflexivity.
Qed.

Lemma map_nth_seq (l : list Z) n :
  (n <= length l)%nat -> map (fun j => nth j l 0) (seq 0 n) = take n l.
Proof.
  intros Hn. apply nth_ext with (d := 0) (d' := 0).
  - rewrite length_map, length_seq, length_take. lia.
  - intros i Hi. rewrite length_map, length_seq in Hi.
    rewrite (nth_indep _ 0 (nth 0 l 0)) by (by rewrite length_map, length_seq).
    rewrite (map_nth (fun j => nth j l 0)), seq_nth by done.
    cbn. by rewrite !nth_lookup, lookup_take_lt by lia.
Qed.

Lemma map_u32_bytes (l : list Z) : Forall is_byte l -> map u32 l = l.
Proof.
  induction 1 as [|b l Hb _ IH]; [done|]. cbn. by rewrite u32_byte, IH.
Qed.

Lemma flush_wave_cons c chars :
  flush_wave (c :: chars) =
  map fifo_write (c :: chars)
  ++ [MmioWrite Console.USB_SERIAL_JTAG_EP1_CONF_REG
                Console.USB_SERIAL_JTAG_WR_DONE; BusyWait 10000].
Proof. reflexivity. Qed.

(** [flush_buffer] sends what waits and empties the buffer. *)
Lemma flush_buffer_run s :
  0 <= buffer_pos s <= Console.BUFFER_SIZE ->
  length (buffer s) = Z.to_nat Console.BUFFER_SIZE ->
  Forall is_byte (buffer s) ->
  Console.flush_buffer s =
  (tt, console_state (after (mach s) (flush_wave (pending s))) (buffer s) 0 s).
Proof.
  intros Hpos Hlen Hbytes. unfold Console.flush_buffer.
  rewrite sys_bind_run. cbn [gets].
  destruct (buffer_pos s =? 0) eqn:Hz.
  - apply Z.eqb_eq in Hz. unfold pending. rewrite Hz. cbn [Z.to_nat take flush_wave].
    rewrite after_nil. destruct s; cbn in *. by subst.
  - apply Z.eqb_neq in Hz.
    rewrite sys_bind_run.
    pose proof (flush_loop_run (Z.to_nat (buffer_pos s)) 0 s) as Hloop.
    change (Z.of_nat 0) with 0 in Hloop. rewrite Hloop. clear Hloop.
    rewrite sys_bind_run.
    rewrite (lift_emits _ _ tt _ (emits_REG_WRITE _ _ _)).
    rewrite sys_bind_run. cbn [set_buffer_pos].
    rewrite (lift_emits _ _ tt _ (emits_busy_wait _ _)).
    cbn [with_mach console_state mach buffer buffer_pos
         input_buffer input_pos display_lines current_line args_buffer].
    rewrite !after_after.
    assert (Hn : (Z.to_nat (buffer_pos s) <= length (buffer s))%nat).
    { rewrite Hlen. unfold Console.BUFFER_SIZE in *. lia. }
    assert (Hw : map (fun j => fifo_write (u32 (nth j (buffer s) 0)))
                     (seq 0 (Z.to_nat (buffer_pos s)))
                 = map fifo_write (pending s)).
    { unfold pending. rewrite <- (map_nth_seq _ _ Hn).
      rewrite <- (map_u32_bytes (map _ (seq 0 _))).
      - by rewrite !map_map.
      - rewrite (map_nth_seq _ _ Hn). by apply Forall_take. }
    rewrite Hw.
    assert (Hne : pending s <> []).
    { intros He. apply (f_equal length) in He. unfold pending in He.
      rewrite length_take in He. cbn in He. lia. }
    destruct (pending s) as [|c chars]; [done|].
    rewrite flush_wave_cons. reflexivity.
Qed.

(** *** Handing characters to the console *)

Lemma console_state_same s : console_state (mach s) (buffer s) (buffer_pos s) s = s.
Proof. by destruct s. Qed.

Lemma console_writes_ret : console_writes (mret tt) [].
Proof.
  intros s Hs. exists [], (buffer s), (buffer_pos s). cbn [flat_map concat].
  rewrite after_nil, console_state_same, app_nil_r.
  split; [reflexivity|]. split; [exact Hs|]. split; [constructor|reflexivity].
Qed.

Lemma console_writes_bind (c1 c2 : Sys unit) chars1 chars2 :
  console_writes c1 chars1 -> console_writes c2 chars2 ->
  console_writes (c1;; c2) (chars1 ++ chars2).
Proof.
  intros H1 H2 s Hs.
  destruct (H1 s Hs) as (full1 & buf1 & pos1 & E1 & Hok1 & Hfull1 & Hcat1).
  set (s1 := console_state (after (mach s) (flat_map flush_wave full1))
                           buf1 pos1 s) in *.
  assert (Hs1 : console_ok s1) by exact Hok1.
  destruct (H2 s1 Hs1) as (full2 & buf2 & pos2 & E2 & Hok2 & Hfull2 & Hcat2).
  exists (full1 ++ full2), buf2, pos2.
  split; [|split; [|split]].
  - rewrite sys_bind_run, E1, E2. unfold s1.
    cbn [console_state mach buffer buffer_pos input_buffer input_pos
         display_lines current_line args_buffer].
    by rewrite after_after, flat_map_app.
  - exact Hok2.
  - by apply Forall_app.
  - rewrite concat_app, <- app_assoc, Hcat2.
    unfold pending, s1. cbn [console_state buffer buffer_pos].
    fold (pending s). by rewrite app_assoc, Hcat1, app_assoc.
Qed.

Lemma console_writes_ext (c : Sys unit) chars chars' :
  chars = chars' -> console_writes c chars -> console_writes c chars'.
Proof. by intros ->. Qed.

Lemma take_insert_here (l : list Z) n c :
  (n < length l)%nat -> take (S n) (<[n := c]> l) = take n l ++ [c].
Proof.
  intros Hn.
  rewrite (take_S_r _ _ c) by (by apply list_lookup_insert_eq).
  by rewrite take_insert_ge by lia.
Qed.

Lemma console_putc_run s c :
  console_ok s -> is_byte c ->
  let buf' := <[Z.to_nat (buffer_pos s) := c]> (buffer s) in
  take (Z.to_nat (buffer_pos s + 1)) buf' = pending s ++ [c] /\
  length buf' = Z.to_nat Console.BUFFER_SIZE /\
  Forall is_byte buf' /\
  Console.console_putc c s =
  (tt, if buffer_pos s + 1 >=? Console.BUFFER_SIZE
       then console_state (after (mach s) (flush_wave (pending s ++ [c])))
                          buf' 0 s
       else console_state (mach s) buf' (buffer_pos s + 1) s).
Proof.
  intros (Hpos & Hlen & Hbytes) Hc. cbn zeta.
  set (buf' := <[Z.to_nat (buffer_pos s) := c]> (buffer s)).
  assert (Htake : take (Z.to_nat (buffer_pos s + 1)) buf' = pending s ++ [c]).
  { replace (Z.to_nat (buffer_pos s + 1)) with (S (Z.to_nat (buffer_pos s)))
      by lia.
    apply take_insert_here. rewrite Hlen. unfold Console.BUFFER_SIZE in *. lia. }
  assert (Hlen' : length buf' = Z.to_nat Console.BUFFER_SIZE).
  { unfold buf'. by rewrite length_insert. }
  assert (Hbytes' : Forall is_byte buf').
  { unfold buf'. by apply Forall_insert. }
  split; [exact Htake|]. split; [exact Hlen'|]. split; [exact Hbytes'|].
  unfold Console.console_putc. sys_simpl. fold buf'.
  destruct (buffer_pos s + 1 >=? Console.BUFFER_SIZE) eqn:Hfull.
  - rewrite flush_buffer_run; cbn [buffer buffer_pos mach];
      [|unfold Console.BUFFER_SIZE in *; lia|exact Hlen'|exact Hbytes'].
    unfold pending at 1. cbn [buffer buffer_pos]. rewrite Htake.
    reflexivity.
  - reflexivity.
Qed.

Lemma console_writes_putc c : is_byte c -> console_writes (Console.console_putc c) [c].
Proof.
  intros Hc s Hs.
  destruct (console_putc_run s c Hs Hc) as (Htake & Hlen & Hbytes & Hrun).
  destruct Hs as (Hpos & Hlen0 & Hbytes0).
  set (buf' := <[Z.to_nat (buffer_pos s) := c]> (buffer s)) in *.
  rewrite Hrun.
  destruct (buffer_pos s + 1 >=? Console.BUFFER_SIZE) eqn:Hfull.
  - exists [pending s ++ [c]], buf', 0.
    cbn [flat_map concat]. rewrite !app_nil_r.
    split; [reflexivity|]. split; [|split].
    + split; [unfold Console.BUFFER_SIZE; cbn; lia|by split].
    + constructor; [|constructor].
      rewrite <- Htake, length_take, Hlen.
      unfold Console.BUFFER_SIZE in *. lia.
    + reflexivity.
  - exists [], buf', (buffer_pos s + 1).
    cbn [flat_map concat app]. rewrite after_nil.
    split; [reflexivity|]. split; [|split].
    + split; [unfold Console.BUFFER_SIZE in *; cbn; lia|by split].
    + constructor.
    + exact Htake.
Qed.

Lemma console_writes_puts_loop str :
  Forall is_byte str ->
  console_writes (Console.console_puts_loop str) (crlf (cstr str)).
Proof.
  induction 1 as [|c str Hc _ IH]; cbn [Console.console_puts_loop cstr].
  - apply console_writes_ret.
  - destruct (c =? 0) eqn:Hz; [apply console_writes_ret|].
    unfold crlf. cbn [flat_map]. fold (crlf (cstr str)).
    destruct (c =? 10) eqn:Hnl.
    + apply Z.eqb_eq in Hnl. subst c.
      apply (console_writes_bind _ _ [13] ([10] ++ crlf (cstr str))).
      { apply console_writes_putc. unfold is_byte. lia. }
      apply console_writes_bind; [by apply console_writes_putc | exact IH].
    + apply (console_writes_bind _ _ [] ([c] ++ crlf (cstr str)));
        [apply console_writes_ret|].
      apply console_writes_bind; [by apply console_writes_putc | exact IH].
Qed.

Lemma fifo_bytes_app w1 w2 : fifo_bytes (w1 ++ w2) = fifo_bytes w1 ++ fifo_bytes w2.
Proof. apply flat_map_app. Qed.

Lemma fifo_bytes_flush chars : fifo_bytes (flush_wave chars) = chars.
Proof.
  destruct chars as [|c chars]; [done|].
  rewrite flush_wave_cons, fifo_bytes_app.
  change (fifo_bytes [_; _]) with (@nil Z). rewrite app_nil_r.
  generalize (c :: chars). intros l.
  induction l as [|x l IH]; [done|]. cbn [map].
  change (fifo_bytes (fifo_write x :: map fifo_write l))
    with (x :: fifo_bytes (map fifo_write l)).
  by rewrite IH.
Qed.

Lemma fifo_bytes_flushes full :
  fifo_bytes (flat_map flush_wave full) = concat full.
Proof.
  induction full as [|ch full IH]; [done|].
  cbn [flat_map concat]. by rewrite fifo_bytes_app, fifo_bytes_flush, IH.
Qed.

(** [console_puts], as the shell uses it. *)
Lemma console_puts_run s str :
  console_ok s -> Forall is_byte str ->
  exists full last buf,
    Console.console_puts str s =
      (tt, console_state
             (after (mach s) (flat_map flush_wave full ++ flush_wave last))
             buf 0 s) /\
    length buf = Z.to_nat Console.BUFFER_SIZE /\ Forall is_byte buf /\
    Forall (fun ch => length ch = Z.to_nat Console.BUFFER_SIZE) full /\
    (length last < Z.to_nat Console.BUFFER_SIZE)%nat /\
    concat full ++ last = pending s ++ crlf (cstr str).
Proof.
  intros Hs Hstr.
  destruct (console_writes_puts_loop str Hstr s Hs)
    as (full & buf & pos & E & (Hpos & Hlen & Hbytes) & Hfull & Hcat).
  cbn [console_state buffer buffer_pos] in Hpos, Hlen, Hbytes.
  exists full, (take (Z.to_nat pos) buf), buf.
  split; [|split; [exact Hlen|split; [exact Hbytes|split; [exact Hfull|split]]]].
  - unfold Console.console_puts. rewrite sys_bind_run, E.
    rewrite flush_buffer_run;
      cbn [console_state mach buffer buffer_pos input_buffer input_pos
           display_lines current_line args_buffer]; [|lia|exact Hlen|exact Hbytes].
    unfold pending. cbn [console_state buffer buffer_pos].
    by rewrite after_after.
  - rewrite length_take, Hlen. unfold Console.BUFFER_SIZE in *. lia.
  - exact Hcat.
Qed.

(** X15. [console_putc] on a sound console (a 64-byte buffer, a position
    below 64) stores the character at the position, inside the array, and
    leaves a sound console.  Below position 63 it only appends: nothing
    reaches the hardware.  At position 63 the buffer is full and is
    flushed at once: its 64 characters go to the transmit FIFO in order,
    followed by the write-done bit and the pause, and the buffer is empty
    again.  Nothing else in the system changes. *)
Theorem console_putc_buffers (s : system) (c : Z) :
  console_ok s -> is_byte c ->
  let s' := sys_exec (Console.console_putc c) s in
  let w := sys_emitted s s' in
  console_ok s' /\
  (buffer_pos s < 63 -> w = [] /\ pending s' = pending s ++ [c]) /\
  (buffer_pos s = 63 ->
   w = flush_wave (pending s ++ [c]) /\
   fifo_bytes w = pending s ++ [c] /\
   length (fifo_bytes w) = 64%nat /\
   pending s' = []) /\
  s' = console_state (after (mach s) w) (buffer s') (buffer_pos s') s.
Proof.
  intros Hs Hc. cbn zeta. unfold sys_exec, sys_emitted.
  destruct (console_putc_run s c Hs Hc) as (Htake & Hlen & Hbytes & Hrun).
  destruct Hs as (Hpos & Hlen0 & Hbytes0). unfold Console.BUFFER_SIZE in *.
  rewrite Hrun. cbn [snd].
  destruct (buffer_pos s + 1 >=? 64) eqn:Hfull;
    cbn [console_state mach buffer buffer_pos].
  - rewrite emitted_after.
    split; [unfold console_ok, Console.BUFFER_SIZE;
            cbn [console_state buffer buffer_pos]; split; [lia|by split]|].
    split; [intros; lia|]. split; [|reflexivity].
    intros _. split; [reflexivity|]. rewrite fifo_bytes_flush.
    split; [reflexivity|]. split; [|reflexivity].
    rewrite <- Htake, length_take, Hlen. lia.
  - pose proof (emitted_after (mach s) []) as He. rewrite after_nil in He.
    rewrite He, after_nil.
    split; [unfold console_ok, Console.BUFFER_SIZE;
            cbn [console_state buffer buffer_pos]; split; [lia|by split]|].
    split; [|split; [intros; lia|reflexivity]].
    intros _. split; [reflexivity|].
    unfold pending at 1. cbn [buffer buffer_pos]. exact Htake.
Qed.

(** X16. [console_puts] on a sound console sends the characters that
    were waiting, then the characters of the string up to its terminator
    with every line feed preceded by a carriage return: exactly these
    values are stored to the transmit FIFO, in this order.  They go out
    in flushes of 64 characters and a last, shorter one (none when nothing
    is left), each flush ending with the write-done bit and the pause.
    The buffer is empty afterwards and nothing else in the system
    changes. *)
Theorem console_puts_stream (s : system) (str : list Z) :
  console_ok s -> Forall is_byte str ->
  let s' := sys_exec (Console.console_puts str) s in
  let w := sys_emitted s s' in
  fifo_bytes w = pending s ++ crlf (cstr str) /\
  (exists full last,
     w = flat_map flush_wave full ++ flush_wave last /\
     Forall (fun ch => length ch = 64%nat) full /\
     (length last < 64)%nat) /\
  buffer_pos s' = 0 /\
  console_ok s' /\
  s' = console_state (after (mach s) w) (buffer s') 0 s.
Proof.
  intros Hs Hstr. cbn zeta. unfold sys_exec, sys_emitted.
  destruct (console_puts_run s str Hs Hstr)
    as (full & last & buf & E & Hlen & Hbytes & Hfull & Hlast & Hcat).
  rewrite E. cbn [snd console_state mach buffer buffer_pos].
  rewrite emitted_after.
  split; [|split; [|split; [reflexivity|split; [|reflexivity]]]].
  - by rewrite fifo_bytes_app, fifo_bytes_flushes, fifo_bytes_flush.
  - exists full, last. split; [reflexivity|]. split; [exact Hfull|exact Hlast].
  - unfold console_ok, Console.BUFFER_SIZE.
    cbn [console_state buffer buffer_pos]. split; [lia|by split].
Qed.

(** * The shell *)

(** ** String utilities *)

Lemma cstr_length_le s : (length (cstr s) <= length s)%nat.
Proof.
  induction s as [|c s IH]; cbn [cstr length]; [lia|].
  destruct (c =? 0); cbn [length]; lia.
Qed.

Lemma cstr_nonzero s : Forall (fun c => c <> 0) (cstr s).
Proof.
  induction s as [|c s IH]; cbn [cstr]; [constructor|].
  destruct (c =? 0) eqn:Hc; [constructor|].
  apply Z.eqb_neq in Hc. by constructor.
Qed.

Lemma cstr_app_nul l rest : Forall (fun c => c <> 0) l -> cstr (l ++ 0 :: rest) = l.
Proof.
  induction 1 as [|c l Hc _ IH]; cbn [app cstr]; [done|].
  apply Z.eqb_neq in Hc. by rewrite Hc, IH.
Qed.

Lemma cstr_nonzero_id l : Forall (fun c => c <> 0) l -> cstr l = l.
Proof.
  induction 1 as [|c l Hc _ IH]; cbn [cstr]; [done|].
  apply Z.eqb_neq in Hc. by rewrite Hc, IH.
Qed.

Lemma cstr_idem s : cstr (cstr s) = cstr s.
Proof. apply cstr_nonzero_id, cstr_nonzero. Qed.

(** *** [str_len] *)

Lemma str_len_loop_shift fuel : forall a s len,
  Shell.str_len_loop fuel (a :: s) (S len) = S (Shell.str_len_loop fuel s len).
Proof.
  induction fuel as [|fuel IH]; intros a s len; cbn [Shell.str_len_loop nth];
    [done|].
  destruct (negb (nth len s 0 =? 0)); [apply IH|done].
Qed.

Lemma str_len_loop_cstr s : forall fuel,
  (length s <= fuel)%nat ->
  Shell.str_len_loop fuel s 0 = length (cstr s).
Proof.
  induction s as [|c s IH]; intros fuel Hfuel.
  - destruct fuel; reflexivity.
  - destruct fuel as [|fuel]; [cbn in Hfuel; lia|].
    cbn [Shell.str_len_loop nth cstr].
    destruct (c =? 0); cbn [negb length]; [done|].
    rewrite str_len_loop_shift, IH; [done|]. cbn in Hfuel. lia.
Qed.

(** *** [str_equals] *)

Lemma str_equals_loop_shift fuel : forall a b s1 s2 i,
  Shell.str_equals_loop fuel (a :: s1) (b :: s2) (S i) =
  Shell.str_equals_loop fuel s1 s2 i.
Proof.
  induction fuel as [|fuel IH]; intros a b s1 s2 i;
    cbn [Shell.str_equals_loop nth]; [done|].
  by rewrite IH.
Qed.

Lemma str_equals_loop_cstr s1 : forall s2 fuel,
  (length s1 <= fuel)%nat ->
  Shell.str_equals_loop fuel s1 s2 0 = bool_decide (cstr s1 = cstr s2).
Proof.
  induction s1 as [|a s1 IH]; intros s2 fuel Hfuel.
  - assert (E : Shell.str_equals_loop fuel [] s2 0 = (0 =? nth 0 s2 0)).
    { destruct fuel; reflexivity. }
    rewrite E. destruct s2 as [|b s2]; cbn [nth cstr]; [done|].
    destruct (b =? 0) eqn:Hb.
    + apply Z.eqb_eq in Hb. by subst b.
    + apply Z.eqb_neq in Hb. rewrite bool_decide_eq_false_2 by done.
      apply Z.eqb_neq. lia.
  - destruct fuel as [|fuel]; [cbn in Hfuel; lia|].
    cbn [Shell.str_equals_loop nth cstr].
    destruct s2 as [|b s2]; cbn [nth cstr].
    + change (0 =? 0) with true. rewrite andb_false_r.
      destruct (a =? 0); [done|]. by rewrite bool_decide_eq_false_2.
    + destruct (a =? 0) eqn:Ha; cbn [negb andb].
      { apply Z.eqb_eq in Ha. subst a.
        destruct (b =? 0) eqn:Hb.
        - apply Z.eqb_eq in Hb. by subst b.
        - rewrite bool_decide_eq_false_2 by done.
          apply Z.eqb_neq in Hb. apply Z.eqb_neq. lia. }
      destruct (b =? 0) eqn:Hb; cbn [negb].
      { apply Z.eqb_eq in Hb. subst b. rewrite Ha.
        by rewrite bool_decide_eq_false_2. }
      destruct (a =? b) eqn:Hab; cbn [negb].
      * apply Z.eqb_eq in Hab. subst b.
        rewrite str_equals_loop_shift, IH by (cbn in Hfuel; lia).
        destruct (decide (cstr s1 = cstr s2)) as [E|NE].
        -- rewrite E. by rewrite !bool_decide_eq_true_2.
        -- rewrite !bool_decide_eq_false_2; [done| |done].
           intros [=]. done.
      * apply Z.eqb_neq in Hab.
        rewrite bool_decide_eq_false_2; [done|]. intros [=]. done.
Qed.

(** *** [str_copy] *)

Lemma str_copy_loop_shift fuel : forall d a dest src i max_len,
  Shell.str_copy_loop fuel (S i) (d :: dest) (a :: src) max_len =
  d :: Shell.str_copy_loop fuel i dest src (max_len - 1).
Proof.
  induction fuel as [|fuel IH]; intros d a dest src i max_len;
    cbn [Shell.str_copy_loop nth]; [done|].
  replace (Z.of_nat (S i) <? max_len - 1) with (Z.of_nat i <? max_len - 1 - 1)
    by (destruct (Z.ltb_spec (Z.of_nat (S i)) (max_len - 1));
        destruct (Z.ltb_spec (Z.of_nat i) (max_len - 1 - 1)); lia).
  destruct (negb (nth i src 0 =? 0) && (Z.of_nat i <? max_len - 1 - 1));
    [|done].
  change (<[S i := nth i src 0]> (d :: dest)) with (d :: <[i := nth i src 0]> dest).
  apply IH.
Qed.

Lemma str_copy_loop_spec fuel : forall dest src max_len,
  let n := (length (cstr src) `min` Z.to_nat (max_len - 1))%nat in
  (n <= fuel)%nat -> (n < length dest)%nat ->
  Shell.str_copy_loop fuel 0 dest src max_len =
  take n (cstr src) ++ 0 :: drop (S n) dest.
Proof.
  induction fuel as [|fuel IH]; intros dest src max_len n Hfuel Hdest.
  - assert (n = 0%nat) as -> by lia.
    destruct dest as [|d dest]; [cbn in Hdest; lia|]. reflexivity.
  - cbn [Shell.str_copy_loop nth].
    destruct dest as [|d dest]; [cbn in Hdest; lia|].
    destruct src as [|a src].
    { subst n. cbn [nth cstr length]. cbn. reflexivity. }
    cbn [nth cstr] in *.
    destruct (a =? 0) eqn:Ha; cbn [negb andb].
    { subst n. reflexivity. }
    change (Z.of_nat 0) with 0.
    destruct (0 <? max_len - 1) eqn:Hmax.
    + apply Z.ltb_lt in Hmax.
      change (<[0%nat := a]> (d :: dest)) with (a :: dest).
      rewrite str_copy_loop_shift.
      cbn [length] in n.
      assert (Hn : n = S (length (cstr src) `min` Z.to_nat (max_len - 1 - 1))%nat)
        by (subst n; lia).
      rewrite IH.
      * rewrite Hn. reflexivity.
      * lia.
      * cbn [length] in Hdest. lia.
    + apply Z.ltb_ge in Hmax.
      assert (n = 0%nat) as -> by (subst n; lia). reflexivity.
Qed.

Lemma str_copy_run dest src max_len :
  let n := (length (cstr src) `min` Z.to_nat (max_len - 1))%nat in
  (n < length dest)%nat ->
  Shell.str_copy dest src max_len = take n (cstr src) ++ 0 :: drop (S n) dest.
Proof.
  cbn zeta. intros Hn. unfold Shell.str_copy.
  apply str_copy_loop_spec; [lia|exact Hn].
Qed.

Lemma str_copy_cstr dest src max_len :
  let n := (length (cstr src) `min` Z.to_nat (max_len - 1))%nat in
  (n < length dest)%nat ->
  cstr (Shell.str_copy dest src max_len) = take n (cstr src).
Proof.
  cbn zeta. intros Hn. rewrite str_copy_run by exact Hn.
  apply cstr_app_nul, Forall_take, cstr_nonzero.
Qed.

Lemma str_copy_length dest src max_len :
  let n := (length (cstr src) `min` Z.to_nat (max_len - 1))%nat in
  (n < length dest)%nat ->
  length (Shell.str_copy dest src max_len) = length dest.
Proof.
  cbn zeta. intros Hn. rewrite str_copy_run by exact Hn.
  pose proof (cstr_length_le src).
  rewrite length_app, length_take. cbn [length]. rewrite length_drop. lia.
Qed.

(** X17. [str_copy(dest, src, max_len)] into an array of at least
    [max_len] characters, [max_len] being positive, copies the string in
    [src] cut to [max_len - 1] characters and terminates it: [dest] then
    holds these characters, a 0, and from there on what it held before.
    It stores nothing at index [max_len] or beyond, and a string shorter
    than [max_len] is copied whole.  With [max_len] zero or negative it
    still stores the terminator into [dest[0]]. *)
Theorem str_copy_truncates (dest src : list Z) (max_len : Z) :
  let r := Shell.str_copy dest src max_len in
  let n := (length (cstr src) `min` Z.to_nat (max_len - 1))%nat in
  (0 < max_len <= Z.of_nat (length dest) ->
   r = take n (cstr src) ++ 0 :: drop (S n) dest /\
   cstr r = take n (cstr src) /\
   length r = length dest /\
   (forall i, (Z.to_nat max_len <= i)%nat -> nth i r 0 = nth i dest 0) /\
   (Z.of_nat (length (cstr src)) < max_len -> cstr r = cstr src)) /\
  (max_len <= 0 -> r = <[0%nat := 0]> dest).
Proof.
  cbn zeta. split.
  - intros Hmax.
    set (n := (length (cstr src) `min` Z.to_nat (max_len - 1))%nat).
    assert (Hn : (n < length dest)%nat) by (subst n; lia).
    split; [by apply str_copy_run|].
    split; [by apply str_copy_cstr|].
    split; [by apply str_copy_length|].
    split.
    + intros i Hi. rewrite str_copy_run by exact Hn. fold n.
      pose proof (cstr_length_le src) as Hle.
      assert (Hlen : length (take n (cstr src)) = n)
        by (rewrite length_take; subst n; lia).
      rewrite app_nth2 by lia. rewrite Hlen.
      destruct (i - n)%nat as [|k] eqn:Hk; [lia|]. cbn [nth].
      rewrite !nth_lookup, lookup_drop. do 2 f_equal. lia.
    + intros Hshort. rewrite str_copy_cstr by exact Hn. fold n.
      apply take_ge. subst n. lia.
  - intros Hmax. unfold Shell.str_copy.
    replace (Z.to_nat max_len) with 0%nat by lia. reflexivity.
Qed.

(** X18. [str_equals] returns true exactly when its two arguments hold
    the same string, that is the same characters up to their first 0;
    what follows the terminators plays no part.  [str_len] is the number
    of characters before the first 0. *)
Theorem str_equals_compares (s1 s2 : list Z) :
  (Shell.str_equals s1 s2 = true <-> cstr s1 = cstr s2) /\
  Shell.str_len s1 = Z.of_nat (length (cstr s1)) /\
  0 <= Shell.str_len s1 <= Z.of_nat (length s1).
Proof.
  assert (Hlen : Shell.str_len s1 = Z.of_nat (length (cstr s1))).
  { unfold Shell.str_len. by rewrite str_len_loop_cstr. }
  split; [|split; [exact Hlen|]].
  - unfold Shell.str_equals. rewrite str_equals_loop_cstr by done.
    apply bool_decide_eq_true.
  - rewrite Hlen. pose proof (cstr_length_le s1). lia.
Qed.

(** ** The shell's screen *)

Lemma lift_bind {A B} (c : M A) (f : A -> M B) s :
  lift (c ≫= f) s = (lift c ≫= fun a => lift (f a)) s.
Proof.
  rewrite sys_bind_run. unfold lift at 1 2.
  unfold mbind at 1, M_bind. destruct (c (mach s)) as [a m']. reflexivity.
Qed.

Lemma lift_ret {A} (a : A) s : lift (mret a) s = (a, s).
Proof. unfold lift. cbn. by destruct s. Qed.

Lemma lift_run {A} (c : M A) s :
  lift c s = (eval c (mach s), with_mach (exec c (mach s)) s).
Proof. unfold lift, eval, exec. by destruct (c (mach s)). Qed.

Section ShellScreen.
Variable font : Z -> Z -> Z.

Lemma refresh_loop_run n : forall i s,
  sys_for i n (fun i =>
    lines ← gets display_lines;
    let line := nth (Z.to_nat i) lines [] in
    if negb (nth 0 line 0 =? 0) then
      lift (SSD1306.ssd1306_draw_string font 0 (i * 8) (string_of_codes line))
    else mret tt) s =
  lift (SSD1306.for_range i n (fun i =>
    let line := nth (Z.to_nat i) (display_lines s) [] in
    if negb (nth 0 line 0 =? 0) then
      SSD1306.ssd1306_draw_string font 0 (i * 8) (string_of_codes line)
    else mret tt)) s.
Proof.
  induction n as [|n IH]; intros i s; cbn [sys_for SSD1306.for_range].
  - by rewrite lift_ret.
  - rewrite lift_bind, !sys_bind_run. cbn [gets]. cbn zeta.
    destruct (negb (nth 0 (nth (Z.to_nat i) (display_lines s) []) 0 =? 0)).
    + rewrite lift_run. rewrite IH. reflexivity.
    + rewrite lift_ret. cbn [mret Sys_ret]. apply IH.
Qed.

Lemma shell_refresh_display_run s :
  Shell.shell_refresh_display font s =
  (tt, with_mach
         (exec (SSD1306.ssd1306_clear;;
                draw_lines font (display_lines s);;
                SSD1306.ssd1306_display) (mach s)) s).
Proof.
  unfold Shell.shell_refresh_display.
  rewrite sys_bind_run, lift_run.
  rewrite sys_bind_run, refresh_loop_run, lift_run.
  rewrite lift_run.
  cbn [with_mach console_state mach buffer buffer_pos input_buffer input_pos
       display_lines current_line args_buffer].
  rewrite !exec_bind. f_equal. by destruct (eval _ _).
Qed.

(** *** What the drawing loop draws *)

Lemma renders_eq (c c' : M unit) f :
  (forall m, c m = c' m) -> renders c' f -> renders c f.
Proof. intros E H m Hlen. rewrite E. by apply H. Qed.

Lemma cells_pixel_app cells1 cells2 px py :
  cells_pixel font (cells1 ++ cells2) px py =
  cells_pixel font cells1 px py || cells_pixel font cells2 px py.
Proof. unfold cells_pixel. apply existsb_app. Qed.

Lemma line_cells_empty i line : nth 0 line 0 = 0 -> line_cells i line = [].
Proof.
  unfold line_cells. destruct line as [|c rest]; [done|].
  cbn [nth]. intros ->. reflexivity.
Qed.

Lemma renders_draw_string x y str :
  renders (SSD1306.ssd1306_draw_string font x y str)
          (fun px py b => b || cells_pixel font (layout x x y str) px py).
Proof.
  eapply renders_eq; [|apply renders_draw_cells].
  intros m. apply draw_string_loop_layout.
Qed.

Lemma renders_lines_loop lines n : forall i,
  renders
    (SSD1306.for_range i n (fun i =>
       let line := nth (Z.to_nat i) lines [] in
       if negb (nth 0 line 0 =? 0) then
         SSD1306.ssd1306_draw_string font 0 (i * 8) (string_of_codes line)
       else mret tt))
    (fun px py b => b || cells_pixel font (lines_cells i n lines) px py).
Proof.
  induction n as [|n IH]; intros i; cbn [SSD1306.for_range lines_cells].
  - eapply renders_ext; [apply renders_ret|].
    intros px py b _. cbn. by rewrite orb_false_r.
  - eapply renders_ext.
    + apply (renders_bind _ _
               (fun px py b =>
                  b || cells_pixel font
                         (line_cells i (nth (Z.to_nat i) lines [])) px py));
        [|apply IH].
      cbn zeta.
      destruct (nth 0 (nth (Z.to_nat i) lines []) 0 =? 0) eqn:Hz; cbn [negb].
      * apply Z.eqb_eq in Hz. rewrite line_cells_empty by exact Hz.
        eapply renders_ext; [apply renders_ret|].
        intros px py b _. cbn. by rewrite orb_false_r.
      * apply renders_draw_string.
    + intros px py b _. cbv beta. by rewrite cells_pixel_app, orb_assoc.
Qed.

Lemma renders_draw_lines lines :
  renders (draw_lines font lines)
          (fun px py b => b || cells_pixel font (screen_cells lines) px py).
Proof. apply renders_lines_loop. Qed.

(** *** Only bytes are stored *)

Lemma keeps_bytes_ret : keeps_bytes (mret tt).
Proof. by intros m H. Qed.

Lemma keeps_bytes_bind (c k : M unit) :
  keeps_bytes c -> keeps_bytes k -> keeps_bytes (c;; k).
Proof. intros Hc Hk m H. rewrite exec_bind. by apply Hk, Hc. Qed.

Lemma keeps_bytes_for_range body n : forall lo,
  (forall i, keeps_bytes (body i)) -> keeps_bytes (SSD1306.for_range lo n body).
Proof.
  induction n as [|n IH]; intros lo Hbody; cbn [SSD1306.for_range].
  - apply keeps_bytes_ret.
  - apply keeps_bytes_bind; [apply Hbody | by apply IH].
Qed.

Lemma keeps_bytes_set_pixel x y color :
  keeps_bytes (SSD1306.ssd1306_set_pixel x y color).
Proof.
  intros m H. unfold exec. rewrite set_pixel_run. cbn [snd].
  case_bool_decide; [|done].
  unfold with_buffer. cbn [exec snd set_ssd1306_buffer ssd1306_buffer].
  apply Forall_insert; [done|].
  unfold pixel_byte, is_byte, u8. destruct (lit color); apply Z.mod_pos_bound; lia.
Qed.

Lemma keeps_bytes_draw_char x y c :
  keeps_bytes (SSD1306.ssd1306_draw_char font x y c).
Proof.
  unfold SSD1306.ssd1306_draw_char. cbn zeta.
  apply keeps_bytes_for_range. intros i.
  apply keeps_bytes_for_range. intros j.
  destruct (negb _); [apply keeps_bytes_set_pixel | apply keeps_bytes_ret].
Qed.

Lemma keeps_bytes_draw_string x y str :
  keeps_bytes (SSD1306.ssd1306_draw_string font x y str).
Proof.
  intros m H. unfold exec, SSD1306.ssd1306_draw_string.
  rewrite draw_string_loop_layout.
  revert m H. induction (layout x x y str) as [|[[cx cy] c] rest IH];
    intros m H; cbn [draw_cells]; [done|].
  rewrite bind_run. apply IH. by apply keeps_bytes_draw_char.
Qed.

Lemma keeps_bytes_draw_lines lines : keeps_bytes (draw_lines font lines).
Proof.
  apply keeps_bytes_for_range. intros i. cbn zeta.
  destruct (negb _); [apply keeps_bytes_draw_string | apply keeps_bytes_ret].
Qed.

(** The framebuffer [shell_refresh_display] builds and sends. *)
Lemma refresh_framebuffer lines m :
  exists fb,
    exec (SSD1306.ssd1306_clear;; draw_lines font lines) m = with_buffer fb m /\
    length fb = Z.to_nat SSD1306.BUFFER_SIZE /\
    Forall is_byte fb /\
    forall px py, in_bounds px py ->
      get_pixel fb px py = cells_pixel font (screen_cells lines) px py.
Proof.
  assert (Hblank : length (ssd1306_buffer (with_buffer blank m))
                   = Z.to_nat SSD1306.BUFFER_SIZE) by apply blank_length.
  destruct (renders_draw_lines lines (with_buffer blank m) Hblank)
    as (fb & Hrun & Hlen & Hpix).
  exists fb.
  assert (E : exec (SSD1306.ssd1306_clear;; draw_lines font lines) m
              = with_buffer fb m).
  { rewrite exec_bind. change (exec SSD1306.ssd1306_clear m) with (with_buffer blank m).
    unfold exec. rewrite Hrun. reflexivity. }
  split; [exact E|]. split; [exact Hlen|]. split.
  - pose proof (keeps_bytes_bind _ _
                  (fun m0 _ => blank_bytes : Forall is_byte
                     (ssd1306_buffer (exec SSD1306.ssd1306_clear m0)))
                  (keeps_bytes_draw_lines lines)) as Hb.
    specialize (Hb (with_buffer blank m) blank_bytes).
    rewrite exec_bind in Hb.
    change (exec SSD1306.ssd1306_clear (with_buffer blank m))
      with (with_buffer blank m) in Hb.
    unfold exec in Hb. rewrite Hrun in Hb. exact Hb.
  - intros px py Hp. rewrite Hpix by done.
    unfold get_pixel, with_buffer.
    cbn [exec snd set_ssd1306_buffer ssd1306_buffer].
    rewrite nth_lookup. unfold blank.
    destruct (replicate _ _ !! _) as [b|] eqn:Hb; cbn [default];
      [apply lookup_replicate in Hb as [-> _]|]; by rewrite Z.bits_0.
Qed.

(** *** A line on its row *)

Lemma char_code_of_code c :
  is_byte c -> char_code (Ascii.ascii_of_nat (Z.to_nat c)) = c.
Proof.
  intros Hc. unfold char_code, is_byte in *.
  rewrite Ascii.nat_ascii_embedding by lia. lia.
Qed.

Lemma layout_cstr line : forall x cx y,
  Forall is_byte line ->
  layout x cx y (string_of_codes line) = layout x cx y (string_of_codes (cstr line)).
Proof.
  induction line as [|c line IH]; intros x cx y Hb; [done|].
  apply Forall_cons in Hb as [Hc Hb].
  cbn [string_of_codes cstr layout]. rewrite char_code_of_code by done.
  destruct (c =? 0) eqn:Hz; [done|].
  cbn [string_of_codes layout]. rewrite char_code_of_code, Hz by done.
  destruct (c =? 10); [by apply IH|].
  f_equal. destruct (cx + 6 >=? SSD1306.SSD1306_WIDTH); by apply IH.
Qed.

Lemma string_of_codes_length l : String.length (string_of_codes l) = length l.
Proof. induction l as [|c l IH]; cbn; [done|]. by rewrite IH. Qed.

Lemma string_of_codes_plain l :
  Forall is_byte l -> Forall (fun c => c <> 0) l -> 10 ∉ l ->
  plain (string_of_codes l).
Proof.
  induction l as [|c l IH]; intros Hb Hnz Hnl; cbn [string_of_codes plain]; [done|].
  apply Forall_cons in Hb as [Hc Hb]. apply Forall_cons in Hnz as [Hc0 Hnz].
  apply not_elem_of_cons in Hnl as [Hc10 Hnl].
  split; [|by apply IH].
  unfold plain_char. rewrite char_code_of_code by done. by split.
Qed.

Lemma cstr_bytes l : Forall is_byte l -> Forall is_byte (cstr l).
Proof.
  induction 1 as [|c l Hc _ IH]; cbn [cstr]; [constructor|].
  destruct (c =? 0); by constructor.
Qed.

Lemma line_cells_row i line :
  line_ok line -> 10 ∉ cstr line ->
  line_cells i line = row_cells 0 (i * 8) (string_of_codes (cstr line)).
Proof.
  intros (Hlen & Hstr & Hb) Hnl. unfold line_cells.
  rewrite layout_cstr by exact Hb.
  apply layout_one_row.
  - apply string_of_codes_plain; [by apply cstr_bytes|apply cstr_nonzero|done].
  - rewrite string_of_codes_length. unfold SSD1306.SSD1306_WIDTH. lia.
Qed.

Lemma frames_of_with_buffer fb m w :
  frames_of (with_buffer fb m) w = frames_of m w.
Proof. reflexivity. Qed.

(** X19. [shell_refresh_display] rebuilds the framebuffer from the eight
    display lines and sends it: afterwards an in-bounds pixel is lit
    exactly when the glyph of a character of one of the lines covers it,
    line [i] being laid out from column 0 of row [8 i]; whatever the
    framebuffer showed before is gone.  A line of at most 21 characters
    without a line feed stays on its own row, its characters at columns
    0, 6, 12, ...: it never wraps.  With a display that acknowledges on
    an idle bus, the wire carries the six range commands and then this
    very framebuffer, all 1024 bytes, as one data transaction.  The
    variables of the shell and of the console are left as they were. *)
Theorem shell_refresh_display_shows (s : system) (px py : Z) :
  valid_pins (mach s) -> bus_idle (mach s) -> always_acks (mach s) ->
  in_bounds px py ->
  let s' := sys_exec (Shell.shell_refresh_display font) s in
  let fb := ssd1306_buffer (mach s') in
  let a := ssd1306_i2c_addr (mach s) in
  get_pixel fb px py = cells_pixel font (screen_cells (display_lines s)) px py /\
  (forall i line, line_ok line -> 10 ∉ cstr line ->
     line_cells i line = row_cells 0 (i * 8) (string_of_codes (cstr line))) /\
  length fb = 1024%nat /\
  frames_of (mach s) (sys_emitted s s') =
    flat_map (command_txn a) window_commands ++ data_txn a fb /\
  s' = with_mach (mach s') s.
Proof.
  intros Hpins Hidle Hacks Hp. cbn zeta. unfold sys_exec, sys_emitted.
  rewrite shell_refresh_display_run. cbn [snd with_mach console_state mach].
  destruct (refresh_framebuffer (display_lines s) (mach s))
    as (fb & Hrun & Hlen & Hbytes & Hpix).
  assert (E : exec (SSD1306.ssd1306_clear;;
                    draw_lines font (display_lines s);;
                    SSD1306.ssd1306_display) (mach s)
              = exec SSD1306.ssd1306_display (with_buffer fb (mach s))).
  { rewrite !exec_bind. rewrite <- Hrun. by rewrite exec_bind. }
  rewrite E.
  pose proof (emits_ssd1306_display (with_buffer fb (mach s))) as Hd.
  pose proof (exec_emits _ _ _ _ Hd) as Hexec.
  assert (Hfb : ssd1306_buffer (exec SSD1306.ssd1306_display
                                  (with_buffer fb (mach s))) = fb).
  { by rewrite Hexec. }
  rewrite Hfb.
  split; [by apply Hpix|]. split; [intros i line; apply line_cells_row|].
  split; [exact Hlen|]. split; [|reflexivity].
  pose proof (display_frames (with_buffer fb (mach s))) as Hfr.
  change (ssd1306_buffer (with_buffer fb (mach s))) with fb in Hfr.
  rewrite <- Hlen, payload_all in Hfr.
  apply Hfr; done.
Qed.

End ShellScreen.

(** ** Printing a line *)

Lemma with_lines_same s : with_lines (display_lines s) (current_line s) s = s.
Proof. by destruct s. Qed.

Lemma scroll_loop_run n : forall k s,
  sys_for (Z.of_nat k) n (fun i =>
    lines ← gets display_lines;
    let k := Z.to_nat i in
    set_display_lines
      (<[k := Shell.str_copy (nth k lines []) (nth (S k) lines []) 22]> lines)) s =
  (tt, with_lines (scroll_loop k n (display_lines s)) (current_line s) s).
Proof.
  induction n as [|n IH]; intros k s; cbn [sys_for scroll_loop].
  - by rewrite with_lines_same.
  - sys_simpl. replace (Z.of_nat k + 1) with (Z.of_nat (S k)) by lia.
    rewrite IH, Nat2Z.id. reflexivity.
Qed.

Lemma clear_loop_run n : forall k s,
  sys_for (Z.of_nat k) n (fun i =>
    lines ← gets display_lines;
    let k := Z.to_nat i in
    set_display_lines (<[k := <[0%nat := 0]> (nth k lines [])]> lines)) s =
  (tt, with_lines (clear_loop k n (display_lines s)) (current_line s) s).
Proof.
  induction n as [|n IH]; intros k s; cbn [sys_for clear_loop].
  - by rewrite with_lines_same.
  - sys_simpl. replace (Z.of_nat k + 1) with (Z.of_nat (S k)) by lia.
    rewrite IH, Nat2Z.id. reflexivity.
Qed.

(** *** The display lines *)

Lemma str_copy_line_ok l src :
  line_ok l -> Forall is_byte src ->
  line_ok (Shell.str_copy l src 22) /\
  cstr (Shell.str_copy l src 22) = take 21 (cstr src).
Proof.
  intros (Hlen & Hstr & Hb) Hsrc.
  set (n := (length (cstr src) `min` Z.to_nat (22 - 1))%nat).
  assert (Hn : (n < length l)%nat) by (subst n; lia).
  assert (Hc : cstr (Shell.str_copy l src 22) = take 21 (cstr src)).
  { rewrite str_copy_cstr by exact Hn. fold n.
    destruct (Nat.le_gt_cases (length (cstr src)) 21) as [Hle|Hgt].
    - rewrite !take_ge by (subst n; lia). reflexivity.
    - f_equal. subst n. lia. }
  split; [|exact Hc]. split; [|split].
  - rewrite str_copy_length by exact Hn. exact Hlen.
  - rewrite Hc, length_take. lia.
  - rewrite str_copy_run by exact Hn. fold n.
    apply Forall_app. split; [by apply Forall_take, cstr_bytes|].
    constructor; [unfold is_byte; lia|by apply Forall_drop].
Qed.

Lemma line_ok_copy_exact l src :
  line_ok l -> line_ok src -> cstr (Shell.str_copy l src 22) = cstr src.
Proof.
  intros Hl (Hlen & Hstr & Hb).
  destruct (str_copy_line_ok l src Hl Hb) as [_ ->]. by apply take_ge.
Qed.

Lemma take_insert_last {A} (l : list A) n x :
  (n < length l)%nat -> take (S n) (<[n := x]> l) = take n l ++ [x].
Proof.
  intros Hn.
  rewrite (take_S_r _ _ x) by (by apply list_lookup_insert_eq).
  by rewrite take_insert_ge by lia.
Qed.

Lemma nth_line_ok lines i :
  Forall line_ok lines -> (i < length lines)%nat -> line_ok (nth i lines []).
Proof.
  intros Hall Hi. rewrite Forall_lookup in Hall.
  destruct (lookup_lt_is_Some_2 lines i Hi) as [l Hl].
  rewrite (nth_lookup_Some _ _ _ _ Hl). by apply (Hall i).
Qed.

Lemma print_lines_spec text lines cur :
  lines_ok lines cur -> Forall is_byte text ->
  let lc := print_lines text lines cur in
  lines_ok (fst lc) (snd lc) /\
  map cstr (take (Z.to_nat (snd lc)) (fst lc)) =
    last_n 8 (map cstr (take (Z.to_nat cur) lines) ++ [take 21 (cstr text)]).
Proof.
  intros (Hlen & Hall & Hcur & Hrest) Htext. cbn zeta.
  unfold print_lines, Shell.MAX_LINES in *.
  destruct (cur >=? 8) eqn:Hfull.
  - assert (cur = 8) as -> by lia. clear Hfull Hcur.
    destruct lines as [|l0 [|l1 [|l2 [|l3 [|l4 [|l5 [|l6 [|l7 [|l8 rest]]]]]]]]];
      try discriminate Hlen.
    apply Forall_cons in Hall as [H0 Hall].
    apply Forall_cons in Hall as [H1 Hall].
    apply Forall_cons in Hall as [H2 Hall].
    apply Forall_cons in Hall as [H3 Hall].
    apply Forall_cons in Hall as [H4 Hall].
    apply Forall_cons in Hall as [H5 Hall].
    apply Forall_cons in Hall as [H6 Hall].
    apply Forall_cons in Hall as [H7 _].
    change (Z.to_nat (8 - 1)) with 7%nat.
    change (u8 (8 - 1)) with 7. change (Z.to_nat 7) with 7%nat.
    change (u8 (7 + 1)) with 8. change (Z.to_nat 8) with 8%nat.
    cbn [scroll_loop nth list_insert insert fst snd take map].
    assert (Hb : forall l, line_ok l -> Forall is_byte l) by (by intros l (_ & _ & Hb)).
    destruct (str_copy_line_ok l0 l1 H0 (Hb _ H1)) as [K0 _].
    destruct (str_copy_line_ok l1 l2 H1 (Hb _ H2)) as [K1 _].
    destruct (str_copy_line_ok l2 l3 H2 (Hb _ H3)) as [K2 _].
    destruct (str_copy_line_ok l3 l4 H3 (Hb _ H4)) as [K3 _].
    destruct (str_copy_line_ok l4 l5 H4 (Hb _ H5)) as [K4 _].
    destruct (str_copy_line_ok l5 l6 H5 (Hb _ H6)) as [K5 _].
    destruct (str_copy_line_ok l6 l7 H6 (Hb _ H7)) as [K6 _].
    destruct (str_copy_line_ok l7 text H7 Htext) as [K7 E7].
    split.
    + split; [reflexivity|]. split; [|split; [unfold Shell.MAX_LINES; lia|]].
      * repeat (apply Forall_cons; split; [assumption|]). constructor.
      * intros i Hi. do 8 (destruct i as [|i]; [lia|]). by destruct i.
    + change (Z.to_nat 8) with 8%nat. cbn [take map].
      rewrite !line_ok_copy_exact by assumption. rewrite E7. reflexivity.
  - assert (Hk : (Z.to_nat cur < length lines)%nat) by lia.
    assert (Hu : u8 (cur + 1) = cur + 1) by (unfold u8; apply Z.mod_small; lia).
    rewrite Hu. cbn [fst snd].
    destruct (str_copy_line_ok (nth (Z.to_nat cur) lines []) text
                (nth_line_ok _ _ Hall Hk) Htext) as [Kc Ec].
    split.
    + split; [by rewrite length_insert|]. split; [by apply Forall_insert|].
      split; [unfold Shell.MAX_LINES; lia|].
      intros i Hi. rewrite nth_lookup, list_lookup_insert_ne by lia.
      rewrite <- nth_lookup. apply Hrest. lia.
    + replace (Z.to_nat (cur + 1)) with (S (Z.to_nat cur)) by lia.
      rewrite take_insert_last by exact Hk.
      rewrite map_app. cbn [map]. rewrite Ec.
      unfold last_n. rewrite length_app, length_map, length_take. cbn [length].
      replace (_ - 8)%nat with 0%nat by lia. reflexivity.
Qed.

Section ShellPrint.
Variable font : Z -> Z -> Z.

(** [shell_print] step by step: the text and a line feed to the console,
    the lines moved, the display refreshed. *)
Lemma shell_print_run s text :
  console_ok s -> Forall is_byte text ->
  exists w buf,
    let lc := print_lines text (display_lines s) (current_line s) in
    Shell.shell_print font text s =
    (tt, mkSystem (refreshed font (fst lc) (after (mach s) w)) buf 0
                  (input_buffer s) (input_pos s) (fst lc) (snd lc)
                  (args_buffer s)) /\
    fifo_bytes w = pending s ++ crlf (cstr text) ++ [13; 10] /\
    length buf = Z.to_nat Console.BUFFER_SIZE /\ Forall is_byte buf.
Proof.
  intros Hs Htext.
  destruct (console_puts_run s text Hs Htext)
    as (full1 & last1 & buf1 & E1 & Hlen1 & Hbytes1 & _ & _ & Hcat1).
  set (w1 := flat_map flush_wave full1 ++ flush_wave last1) in *.
  set (s1 := console_state (after (mach s) w1) buf1 0 s) in *.
  assert (Hs1 : console_ok s1).
  { unfold console_ok, s1, Console.BUFFER_SIZE.
    cbn [console_state buffer buffer_pos]. split; [lia|by split]. }
  assert (Hnl : Forall is_byte [10]) by (repeat constructor; unfold is_byte; lia).
  destruct (console_puts_run s1 [10] Hs1 Hnl)
    as (full2 & last2 & buf2 & E2 & Hlen2 & Hbytes2 & _ & _ & Hcat2).
  set (w2 := flat_map flush_wave full2 ++ flush_wave last2) in *.
  exists (w1 ++ w2), buf2. cbn zeta.
  split; [|split; [|by split]].
  - unfold Shell.shell_print. rewrite sys_bind_run, E1, sys_bind_run, E2.
    unfold print_lines, s1. sys_simpl. rewrite after_after.
    destruct (current_line s >=? Shell.MAX_LINES) eqn:Hcur.
    + rewrite sys_bind_run.
      pose proof (scroll_loop_run (Z.to_nat (Shell.MAX_LINES - 1)) 0) as Hl.
      change (Z.of_nat 0) with 0 in Hl. rewrite Hl. clear Hl.
      sys_simpl. rewrite shell_refresh_display_run.
      reflexivity.
    + sys_simpl. rewrite shell_refresh_display_run. reflexivity.
  - rewrite fifo_bytes_app. unfold w1, w2.
    rewrite !fifo_bytes_app, !fifo_bytes_flushes, !fifo_bytes_flush.
    rewrite Hcat1, Hcat2. unfold pending, s1.
    cbn [console_state buffer buffer_pos Z.to_nat take app].
    by rewrite <- app_assoc.
Qed.

(** *** The display traffic is not console traffic *)

Lemma fifo_bytes_bits_wave scl sda d data n :
  fifo_bytes (bits_wave scl sda d data n) = [].
Proof.
  induction n as [|n IH]; [done|]. cbn [bits_wave].
  rewrite fifo_bytes_app, IH. by destruct (Z.testbit data (Z.of_nat n)).
Qed.

Lemma fifo_bytes_byte_wave scl sda d b v :
  fifo_bytes (byte_wave scl sda d b v) = [].
Proof.
  unfold byte_wave. by rewrite fifo_bytes_app, fifo_bytes_bits_wave.
Qed.

Lemma fifo_bytes_bytes_wave scl sda d bs inp : forall k,
  fifo_bytes (fst (bytes_wave scl sda d bs inp k)) = [].
Proof.
  induction bs as [|b bs IH]; intros k; [done|]. cbn [bytes_wave].
  destruct (acked sda (inp k)).
  - specialize (IH (S k)). destruct (bytes_wave scl sda d bs inp (S k)) as [w ok].
    cbn [fst] in *. by rewrite fifo_bytes_app, fifo_bytes_byte_wave, IH.
  - apply fifo_bytes_byte_wave.
Qed.

Lemma fifo_bytes_transaction_wave scl sda d bs inp k :
  fifo_bytes (transaction_wave scl sda d bs inp k) = [].
Proof.
  unfold transaction_wave.
  by rewrite !fifo_bytes_app, fifo_bytes_bytes_wave.
Qed.

Lemma fifo_bytes_commands_wave scl sda d addr cmds inp : forall k,
  fifo_bytes (commands_wave scl sda d addr cmds inp k) = [].
Proof.
  induction cmds as [|c cmds IH]; intros k; [done|]. cbn [commands_wave].
  cbn zeta. rewrite fifo_bytes_app, IH. unfold command_wave.
  by rewrite fifo_bytes_transaction_wave.
Qed.

Lemma fifo_bytes_display_wave scl sda d addr fb inp k :
  fifo_bytes (display_wave scl sda d addr fb inp k) = [].
Proof.
  unfold display_wave. cbn zeta.
  rewrite fifo_bytes_app, fifo_bytes_commands_wave. unfold data_wave.
  by rewrite fifo_bytes_transaction_wave.
Qed.

(** One refresh: the framebuffer rebuilt from the lines, then sent. *)
Lemma refreshed_spec lines m :
  exists fb,
    refreshed font lines m =
      after (with_buffer fb m)
            (display_wave (scl_gpio m) (sda_gpio m) (i2c_delay_cycles m)
                          (ssd1306_i2c_addr m) fb (gpio_in m) (in_count m)) /\
    length fb = Z.to_nat SSD1306.BUFFER_SIZE /\
    Forall is_byte fb /\
    forall px py, in_bounds px py ->
      get_pixel fb px py = cells_pixel font (screen_cells lines) px py.
Proof.
  destruct (refresh_framebuffer font lines m) as (fb & Hrun & Hlen & Hb & Hpix).
  exists fb. split; [|by split].
  unfold refreshed.
  assert (E : exec (SSD1306.ssd1306_clear;; draw_lines font lines;;
                    SSD1306.ssd1306_display) m
              = exec SSD1306.ssd1306_display (with_buffer fb m)).
  { rewrite !exec_bind. rewrite <- Hrun. by rewrite exec_bind. }
  rewrite E.
  apply (exec_emits _ _ _ _ (emits_ssd1306_display (with_buffer fb m))).
Qed.

(** What [shell_print] does, for the proofs about the shell. *)
Lemma shell_print_spec s text :
  shell_ok s -> Forall is_byte text ->
  exists s' w,
    Shell.shell_print font text s = (tt, s') /\
    shell_ok s' /\
    shown s' = last_n 8 (shown s ++ [take 21 (cstr text)]) /\
    trace (mach s') = trace (mach s) ++ w /\
    fifo_bytes w = pending s ++ crlf (cstr text) ++ [13; 10] /\
    buffer_pos s' = 0 /\
    screen_shows font s' /\
    input_buffer s' = input_buffer s /\
    input_pos s' = input_pos s /\
    args_buffer s' = args_buffer s.
Proof.
  intros (Hcon & Hlines) Htext.
  destruct (shell_print_run s text Hcon Htext) as (w & buf & Hrun & Hfifo & Hlen & Hb).
  cbn zeta in Hrun.
  destruct (print_lines_spec text (display_lines s) (current_line s) Hlines Htext)
    as (Hok & Hshown).
  set (lc := print_lines text (display_lines s) (current_line s)) in *.
  destruct (refreshed_spec (fst lc) (after (mach s) w))
    as (fb & Hfb & Hfblen & Hfbb & Hpix).
  eexists. eexists (w ++ _). split; [exact Hrun|].
  cbn [mach buffer buffer_pos input_buffer input_pos display_lines
       current_line args_buffer].
  split; [|split; [exact Hshown|split; [|split; [|split;
    [reflexivity|split; [|by repeat split]]]]]].
  - split; [|exact Hok].
    unfold console_ok, Console.BUFFER_SIZE. cbn [buffer buffer_pos].
    split; [lia|by split].
  - rewrite Hfb. cbn [after trace with_buffer exec snd set_ssd1306_buffer].
    by rewrite app_assoc.
  - by rewrite fifo_bytes_app, fifo_bytes_display_wave, app_nil_r.
  - unfold screen_shows. cbn [mach display_lines]. rewrite Hfb.
    cbn [after ssd1306_buffer with_buffer exec snd set_ssd1306_buffer].
    by split.
Qed.

(** X20. [shell_print text] on a sound shell (eight terminated display
    lines, [current_line] at most 8, the lines from [current_line] on
    empty) adds the text, cut to its first 21 characters, below the lines
    shown; when all eight lines are in use the top line is dropped and
    the others move up, so the display always shows the last eight lines
    printed.  The console receives what was waiting, the whole text and a
    carriage return and line feed.  Afterwards the shell is sound again,
    the framebuffer shows exactly the glyphs of the lines, and the input
    line is untouched. *)
Theorem shell_print_scrolls (s : system) (text : list Z) :
  shell_ok s -> Forall is_byte text ->
  let s' := sys_exec (Shell.shell_print font text) s in
  shell_ok s' /\
  shown s' = last_n 8 (shown s ++ [take 21 (cstr text)]) /\
  fifo_bytes (sys_emitted s s') = pending s ++ crlf (cstr text) ++ [13; 10] /\
  buffer_pos s' = 0 /\
  screen_shows font s' /\
  input_buffer s' = input_buffer s /\ input_pos s' = input_pos s.
Proof.
  intros Hs Htext. cbn zeta. unfold sys_exec, sys_emitted.
  destruct (shell_print_spec s text Hs Htext)
    as (s' & w & Hrun & Hok & Hshown & Htrace & Hfifo & Hpos & Hscr & Hin & Hip & _).
  rewrite Hrun. cbn [snd].
  split; [exact Hok|]. split; [exact Hshown|].
  split; [|split; [exact Hpos|split; [exact Hscr|split; [exact Hin|exact Hip]]]].
  unfold emitted. rewrite Htrace, drop_app_length. exact Hfifo.
Qed.

(** *** Clearing the screen *)

Lemma clear_loop_lines lines :
  lines_shape lines ->
  clear_loop 0 8 lines = map (fun l => <[0%nat := 0]> l) lines /\
  lines_ok (clear_loop 0 8 lines) 0 /\
  screen_cells (clear_loop 0 8 lines) = [].
Proof.
  intros (Hlen & Hall).
  destruct lines as [|l0 [|l1 [|l2 [|l3 [|l4 [|l5 [|l6 [|l7 [|l8 rest]]]]]]]]];
    try discriminate Hlen.
  assert (Hone : forall l, length l = 22%nat /\ Forall is_byte l ->
                 line_ok (<[0%nat := 0]> l) /\ nth 0 (<[0%nat := 0]> l) 0 = 0).
  { intros [|c l] [Hl Hb]; [discriminate Hl|].
    apply Forall_cons in Hb as [_ Hb].
    split; [|reflexivity]. split; [exact Hl|]. split; [cbn; lia|].
    constructor; [unfold is_byte; lia|exact Hb]. }
  apply Forall_cons in Hall as [H0 Hall]. apply Hone in H0 as [K0 Z0].
  apply Forall_cons in Hall as [H1 Hall]. apply Hone in H1 as [K1 Z1].
  apply Forall_cons in Hall as [H2 Hall]. apply Hone in H2 as [K2 Z2].
  apply Forall_cons in Hall as [H3 Hall]. apply Hone in H3 as [K3 Z3].
  apply Forall_cons in Hall as [H4 Hall]. apply Hone in H4 as [K4 Z4].
  apply Forall_cons in Hall as [H5 Hall]. apply Hone in H5 as [K5 Z5].
  apply Forall_cons in Hall as [H6 Hall]. apply Hone in H6 as [K6 Z6].
  apply Forall_cons in Hall as [H7 _]. apply Hone in H7 as [K7 Z7].
  cbn [clear_loop nth list_insert insert map].
  split; [reflexivity|]. split.
  - split; [reflexivity|]. split.
    + repeat (apply Forall_cons; split; [assumption|]). constructor.
    + split; [unfold Shell.MAX_LINES; lia|].
      intros i _.
      assert (Hc : forall l, nth 0 l 0 = 0 -> cstr l = []).
      { intros [|c l]; [done|]. cbn [nth cstr]. by intros ->. }
      do 8 (destruct i as [|i]; [by apply Hc|]). by destruct i.
  - unfold screen_cells.
    change (Z.to_nat Shell.MAX_LINES) with 8%nat.
    cbn [lines_cells Z.add Z.to_nat Pos.to_nat Pos.iter_op Nat.add
         Pos.add Pos.succ nth].
    by rewrite !line_cells_empty by assumption.
Qed.

Lemma shell_clear_run s :
  let lines := clear_loop 0 8 (display_lines s) in
  Shell.shell_clear font s =
  (tt, mkSystem (refreshed font lines (mach s)) (buffer s) (buffer_pos s)
                (input_buffer s) (input_pos s) lines 0 (args_buffer s)).
Proof.
  cbn zeta. unfold Shell.shell_clear. rewrite sys_bind_run.
  pose proof (clear_loop_run (Z.to_nat Shell.MAX_LINES) 0) as Hl.
  change (Z.of_nat 0) with 0 in Hl. rewrite Hl. clear Hl.
  sys_simpl. rewrite shell_refresh_display_run. reflexivity.
Qed.

Lemma shell_clear_spec s :
  console_ok s -> lines_shape (display_lines s) ->
  exists s' w,
    Shell.shell_clear font s = (tt, s') /\
    shell_ok s' /\
    shown s' = [] /\
    display_lines s' = map (fun l => <[0%nat := 0]> l) (display_lines s) /\
    trace (mach s') = trace (mach s) ++ w /\
    fifo_bytes w = [] /\
    buffer s' = buffer s /\ buffer_pos s' = buffer_pos s /\
    screen_shows font s' /\
    (forall px py, in_bounds px py ->
       get_pixel (ssd1306_buffer (mach s')) px py = false) /\
    input_buffer s' = input_buffer s /\
    input_pos s' = input_pos s /\
    args_buffer s' = args_buffer s.
Proof.
  intros Hcon Hshape.
  destruct (clear_loop_lines _ Hshape) as (Hmap & Hok & Hcells).
  destruct (refreshed_spec (clear_loop 0 8 (display_lines s)) (mach s))
    as (fb & Hfb & Hfblen & Hfbb & Hpix).
  pose proof (shell_clear_run s) as Hrun. cbn zeta in Hrun.
  eexists. eexists. split; [exact Hrun|].
  cbn [mach buffer buffer_pos input_buffer input_pos display_lines
       current_line args_buffer].
  split; [split; [exact Hcon|exact Hok]|].
  split; [reflexivity|]. split; [exact Hmap|].
  rewrite Hfb. cbn [after trace ssd1306_buffer with_buffer exec snd
                    set_ssd1306_buffer].
  split; [reflexivity|]. split; [apply fifo_bytes_display_wave|].
  split; [reflexivity|]. split; [reflexivity|].
  split; [|split; [|by repeat split]].
  - unfold screen_shows.
    cbn [mach display_lines after ssd1306_buffer with_buffer exec snd
         set_ssd1306_buffer].
    by split.
  - intros px py Hp. rewrite Hpix by done. by rewrite Hcells.
Qed.

(** X21. [shell_clear] empties the screen: it stores a terminator at
    the start of each of the eight display lines and nothing else in
    them, sets [current_line] to 0 and refreshes the display, so that the
    shell shows no line and every pixel of the framebuffer is off.  It
    needs no more than eight arrays of 22 bytes to start from, and leaves
    a sound shell.  Nothing goes to the console, and the console buffer
    and the input line are untouched. *)
Theorem shell_clear_empties (s : system) :
  console_ok s -> lines_shape (display_lines s) ->
  let s' := sys_exec (Shell.shell_clear font) s in
  shell_ok s' /\
  shown s' = [] /\ current_line s' = 0 /\
  display_lines s' = map (fun l => <[0%nat := 0]> l) (display_lines s) /\
  (forall px py, in_bounds px py ->
     get_pixel (ssd1306_buffer (mach s')) px py = false) /\
  fifo_bytes (sys_emitted s s') = [] /\
  buffer s' = buffer s /\ buffer_pos s' = buffer_pos s /\
  input_buffer s' = input_buffer s /\ input_pos s' = input_pos s.
Proof.
  intros Hcon Hshape. cbn zeta. unfold sys_exec, sys_emitted.
  destruct (shell_clear_spec s Hcon Hshape)
    as (s' & w & Hrun & Hok & Hshown & Hlines & Htrace & Hfifo & Hbuf & Hpos
        & _ & Hoff & Hin & Hip & _).
  pose proof (shell_clear_run s) as Hcur. cbn zeta in Hcur.
  rewrite Hrun in Hcur. injection Hcur as Hs'.
  rewrite Hrun. cbn [snd].
  split; [exact Hok|]. split; [exact Hshown|].
  split; [by rewrite Hs'|]. split; [exact Hlines|]. split; [exact Hoff|].
  split; [|by repeat split].
  unfold emitted. rewrite Htrace, drop_app_length. exact Hfifo.
Qed.

(** *** Start-up *)

Lemma pending_empty s : buffer_pos s = 0 -> pending s = [].
Proof. unfold pending. by intros ->. Qed.

(** X22. [shell_init], started on a sound console and on eight arrays
    of 22 bytes holding anything, empties the lines and the input
    position and prints its three welcome lines: the shell is sound
    afterwards, shows exactly "RISC-V Shell v1.0", "Type 'help'" and ">",
    with [current_line] 3, and the framebuffer shows their glyphs.  The
    console receives what was waiting and then the three lines, each
    followed by a carriage return and a line feed. *)
Theorem shell_init_welcome (s : system) :
  console_ok s -> lines_shape (display_lines s) ->
  let s' := sys_exec (Shell.shell_init font) s in
  shell_ok s' /\
  shown s' = [codes "RISC-V Shell v1.0"; codes "Type 'help'"; codes ">"] /\
  current_line s' = 3 /\ input_pos s' = 0 /\
  screen_shows font s' /\
  fifo_bytes (sys_emitted s s') =
    pending s ++ codes "RISC-V Shell v1.0" ++ [13; 10]
              ++ codes "Type 'help'" ++ [13; 10] ++ codes ">" ++ [13; 10] /\
  buffer_pos s' = 0 /\
  input_buffer s' = input_buffer s.
Proof.
  intros Hcon Hshape. cbn zeta. unfold sys_exec, sys_emitted.
  destruct (clear_loop_lines _ Hshape) as (_ & Hok0 & _).
  set (s0 := mkSystem (mach s) (buffer s) (buffer_pos s) (input_buffer s) 0
                      (clear_loop 0 8 (display_lines s)) 0 (args_buffer s)).
  assert (Hs0 : shell_ok s0) by (split; [exact Hcon|exact Hok0]).
  assert (Hbytes : forall str, Forall is_byte (codes str)).
  { induction str as [|ch str IH]; cbn [codes]; constructor; [|exact IH].
    unfold is_byte. pose proof (Ascii.nat_ascii_bounded ch). lia. }
  destruct (shell_print_spec s0 (codes "RISC-V Shell v1.0") Hs0 (Hbytes _))
    as (s1 & w1 & E1 & Hs1 & Hsh1 & Ht1 & Hf1 & Hp1 & _ & Hi1 & Hip1 & _).
  destruct (shell_print_spec s1 (codes "Type 'help'") Hs1 (Hbytes _))
    as (s2 & w2 & E2 & Hs2 & Hsh2 & Ht2 & Hf2 & Hp2 & _ & Hi2 & Hip2 & _).
  destruct (shell_print_spec s2 (codes ">") Hs2 (Hbytes _))
    as (s3 & w3 & E3 & Hs3 & Hsh3 & Ht3 & Hf3 & Hp3 & Hscr3 & Hi3 & Hip3 & _).
  assert (Hrun : Shell.shell_init font s = (tt, s3)).
  { unfold Shell.shell_init. sys_simpl.
    pose proof (clear_loop_run (Z.to_nat Shell.MAX_LINES) 0) as Hl.
    change (Z.of_nat 0) with 0 in Hl. rewrite Hl. clear Hl.
    sys_simpl. change (Z.to_nat Shell.MAX_LINES) with 8%nat.
    change (with_lines _ _ _) with s0.
    by rewrite E1, sys_bind_run, E2. }
  rewrite Hrun. cbn [snd].
  assert (Hcur : current_line s3 = Z.of_nat (length (shown s3))).
  { destruct Hs3 as (_ & Hlen & _ & Hc & _). unfold shown.
    rewrite length_map, length_take, Hlen. unfold Shell.MAX_LINES in Hc. lia. }
  rewrite Hsh3, Hsh2, Hsh1 in *.
  split; [exact Hs3|]. split; [reflexivity|]. split; [exact Hcur|].
  split; [by rewrite Hip3, Hip2, Hip1|]. split; [exact Hscr3|].
  split; [|split; [exact Hp3|by rewrite Hi3, Hi2, Hi1]].
  unfold emitted. rewrite Ht3, Ht2, Ht1. cbn [s0 mach].
  rewrite <- !app_assoc, drop_app_length, !fifo_bytes_app, Hf1, Hf2, Hf3.
  rewrite (pending_empty s1 Hp1), (pending_empty s2 Hp2).
  unfold s0, pending. cbn [buffer buffer_pos app]. fold (pending s).
  by rewrite <- !app_assoc.
Qed.

End ShellPrint.

(** ** Cutting a command line into arguments *)

Lemma drop_cons_nth (buf : list Z) p :
  (p < length buf)%nat -> drop p buf = nth p buf 0 :: drop (S p) buf.
Proof.
  intros Hp. destruct (lookup_lt_is_Some_2 buf p Hp) as [c Hc].
  rewrite (nth_lookup_Some _ _ _ _ Hc). by apply drop_S.
Qed.

Lemma drop_nth_cases (buf : list Z) p :
  drop p buf = nth p buf 0 :: drop (S p) buf \/
  (drop p buf = [] /\ nth p buf 0 = 0).
Proof.
  destruct (Nat.lt_ge_cases p (length buf)) as [Hlt|Hge].
  - left. by apply drop_cons_nth.
  - right. split; [by apply drop_ge|by apply nth_overflow].
Qed.

Lemma skip_spaces_spec fuel : forall buf p,
  (blanks (drop p buf) <= fuel)%nat ->
  Shell.skip_spaces fuel buf p = (p + blanks (drop p buf))%nat.
Proof.
  induction fuel as [|fuel IH]; intros buf p Hfuel.
  - cbn [Shell.skip_spaces]. lia.
  - cbn [Shell.skip_spaces].
    destruct (drop_nth_cases buf p) as [E|[E Hz]]; rewrite E in *.
    + cbn [blanks] in *. destruct (nth p buf 0 =? 32).
      * rewrite IH by lia. lia.
      * lia.
    + rewrite Hz. cbn. lia.
Qed.

Lemma blanks_le l : (blanks l <= length l)%nat.
Proof.
  induction l as [|c l IH]; cbn [blanks length]; [lia|].
  destruct (c =? 32); lia.
Qed.

Lemma word_len_le l : (word_len l <= length l)%nat.
Proof.
  induction l as [|c l IH]; cbn [word_len length]; [lia|].
  destruct (negb (c =? 0) && negb (c =? 32)); lia.
Qed.

Lemma find_end_spec fuel : forall buf p,
  (word_len (drop p buf) <= fuel)%nat ->
  Shell.find_end fuel buf p = (p + word_len (drop p buf))%nat.
Proof.
  induction fuel as [|fuel IH]; intros buf p Hfuel.
  - cbn [Shell.find_end]. lia.
  - cbn [Shell.find_end].
    destruct (drop_nth_cases buf p) as [E|[E Hz]]; rewrite E in *.
    + cbn [word_len] in *.
      destruct (negb (nth p buf 0 =? 0) && negb (nth p buf 0 =? 32)).
      * rewrite IH by lia. lia.
      * lia.
    + rewrite Hz. cbn. lia.
Qed.

Lemma skip_spaces_run buf p :
  Shell.skip_spaces (length buf) buf p = (p + blanks (drop p buf))%nat.
Proof.
  apply skip_spaces_spec. pose proof (blanks_le (drop p buf)).
  rewrite length_drop in *. lia.
Qed.

Lemma find_end_run buf p :
  Shell.find_end (length buf) buf p = (p + word_len (drop p buf))%nat.
Proof.
  apply find_end_spec. pose proof (word_len_le (drop p buf)).
  rewrite length_drop in *. lia.
Qed.

(** *** Words *)

Lemma words_blank l : words (32 :: l) = words l.
Proof. reflexivity. Qed.

Lemma words_cstr_blanks t : words (cstr (drop (blanks t) t)) = words (cstr t).
Proof.
  induction t as [|c t IH]; [done|]. cbn [blanks].
  destruct (c =? 32) eqn:Hc; [|done].
  apply Z.eqb_eq in Hc. subst c. cbn [drop cstr]. change (32 =? 0) with false.
  cbv iota. by rewrite words_blank.
Qed.

Lemma nth_blanks t : nth (blanks t) t 0 <> 32.
Proof.
  induction t as [|c t IH]; cbn [blanks]; [cbn; lia|].
  destruct (c =? 32) eqn:Hc; [exact IH|]. apply Z.eqb_neq in Hc. exact Hc.
Qed.

Lemma words_cons c l :
  c <> 32 ->
  words (c :: l) =
  match l with
  | [] => [[c]]
  | c' :: _ =>
      if c' =? 32 then [c] :: words l
      else match words l with
           | w :: ws => (c :: w) :: ws
           | [] => [[c]]
           end
  end.
Proof. intros Hc. apply Z.eqb_neq in Hc. cbn [words]. by rewrite Hc. Qed.

(** A line that starts with an argument: the argument is its first word. *)
Lemma words_cstr_word t :
  (0 < word_len t)%nat ->
  words (cstr t) = take (word_len t) t :: words (cstr (drop (word_len t) t)).
Proof.
  induction t as [|c t IH]; [cbn; lia|]. intros Hpos.
  cbn [word_len] in *.
  destruct (c =? 0) eqn:H0; [cbn in Hpos; lia|].
  destruct (c =? 32) eqn:H32; [cbn in Hpos; lia|].
  cbn [negb andb take drop cstr]. rewrite H0.
  apply Z.eqb_neq in H32. rewrite words_cons by exact H32.
  destruct t as [|c' t']; [reflexivity|].
  cbn [word_len] in *. cbn [cstr] in *.
  destruct (c' =? 0) eqn:H0'.
  { cbn [negb andb take drop cstr]. by rewrite H0'. }
  destruct (c' =? 32) eqn:H32'.
  { cbn [negb andb take drop cstr]. by rewrite H0'. }
  cbn [negb andb] in *. rewrite IH by lia. reflexivity.
Qed.

Lemma nth_drop_at (buf : list Z) p k : nth k (drop p buf) 0 = nth (p + k) buf 0.
Proof. by rewrite !nth_lookup, lookup_drop. Qed.

Lemma cstr_drop_nul (buf : list Z) q : nth q buf 0 = 0 -> cstr (drop q buf) = [].
Proof.
  intros Hq. destruct (drop_nth_cases buf q) as [E|[E _]]; rewrite E; [|done].
  cbn [cstr]. by rewrite Hq.
Qed.

Lemma cstr_drop_cons (buf : list Z) q :
  nth q buf 0 <> 0 ->
  (q < length buf)%nat /\
  cstr (drop q buf) = nth q buf 0 :: cstr (drop (S q) buf).
Proof.
  intros Hq. destruct (drop_nth_cases buf q) as [E|[_ E]]; [|done].
  split.
  - destruct (Nat.lt_ge_cases q (length buf)) as [H|H]; [done|].
    by rewrite nth_overflow in Hq.
  - rewrite E. cbn [cstr]. apply Z.eqb_neq in Hq. by rewrite Hq.
Qed.

Lemma word_len_pos t : nth 0 t 0 <> 0 -> nth 0 t 0 <> 32 -> (0 < word_len t)%nat.
Proof.
  destruct t as [|c t]; cbn [nth word_len]; [done|]. intros H0 H32.
  apply Z.eqb_neq in H0, H32. rewrite H0, H32. cbn. lia.
Qed.

Lemma nth_word_len t : nth (word_len t) t 0 = 0 \/ nth (word_len t) t 0 = 32.
Proof.
  induction t as [|c t IH]; cbn [word_len]; [by left|].
  destruct (c =? 0) eqn:H0; cbn [negb andb nth].
  { apply Z.eqb_eq in H0. by left. }
  destruct (c =? 32) eqn:H32; cbn [negb nth]; [|exact IH].
  apply Z.eqb_eq in H32. by right.
Qed.

Lemma word_chars t :
  Forall (fun c => c <> 0 /\ c <> 32) (take (word_len t) t).
Proof.
  induction t as [|c t IH]; cbn [word_len]; [constructor|].
  destruct (c =? 0) eqn:H0; cbn [negb andb take]; [constructor|].
  destruct (c =? 32) eqn:H32; cbn [negb take]; [constructor|].
  apply Z.eqb_neq in H0, H32. by constructor.
Qed.

Lemma cstr_insert_after t : forall k,
  (length (cstr t) <= k)%nat -> cstr (<[k := 0]> t) = cstr t.
Proof.
  induction t as [|c t IH]; intros k Hk; [done|].
  cbn [cstr] in *. destruct (c =? 0) eqn:H0.
  - destruct k as [|k]; cbn [list_insert insert cstr]; [done|].
    cbn. by rewrite H0.
  - cbn [length] in Hk. destruct k as [|k]; [lia|].
    change (<[S k := 0]> (c :: t)) with (c :: <[k := 0]> t).
    cbn [cstr]. rewrite H0. f_equal. apply IH. lia.
Qed.

Lemma cstr_insert_word t :
  (word_len t < length t)%nat ->
  cstr (<[word_len t := 0]> t) = take (word_len t) t.
Proof.
  induction t as [|c t IH]; intros Hlen; [cbn in Hlen; lia|].
  cbn [word_len] in *.
  destruct (c =? 0) eqn:H0; cbn [negb andb take] in *; [done|].
  destruct (c =? 32) eqn:H32; cbn [negb take] in *; [done|].
  change (<[S (word_len t) := 0]> (c :: t)) with (c :: <[word_len t := 0]> t).
  cbn [cstr]. rewrite H0. f_equal. apply IH. cbn [length] in Hlen. lia.
Qed.

Lemma cstr_word_end t :
  nth (word_len t) t 0 = 0 -> cstr t = take (word_len t) t.
Proof.
  induction t as [|c t IH]; intros Hend; [done|].
  cbn [word_len cstr] in *.
  destruct (c =? 0) eqn:H0; cbn [negb andb take nth] in *; [done|].
  destruct (c =? 32) eqn:H32; cbn [negb take nth] in *.
  - apply Z.eqb_eq in H32. lia.
  - f_equal. by apply IH.
Qed.

Lemma cstr_drop_insert_after (buf : list Z) off q :
  (off + length (cstr (drop off buf)) <= q)%nat ->
  cstr (drop off (<[q := 0]> buf)) = cstr (drop off buf).
Proof.
  intros Hq. rewrite drop_insert_ge by lia. apply cstr_insert_after. lia.
Qed.

Lemma parse_args_stop fuel buf p argv :
  nth p buf 0 = 0 -> Shell.parse_args fuel buf p argv = (buf, argv).
Proof.
  intros Hp. destruct fuel; cbn [Shell.parse_args]; [done|].
  rewrite Hp. reflexivity.
Qed.

Lemma map_cstr_insert_after (buf : list Z) q argv :
  Forall (fun off => (off + length (cstr (drop off buf)) <= q)%nat) argv ->
  map (fun off => cstr (drop off (<[q := 0]> buf))) argv =
  map (fun off => cstr (drop off buf)) argv.
Proof.
  induction 1 as [|off argv Hoff _ IH]; [done|]. cbn [map].
  by rewrite cstr_drop_insert_after, IH.
Qed.

(** ** The input line *)

Lemma cstr_take_nul (l : list Z) n :
  Forall (fun c => c <> 0) (take n l) -> nth n l 0 = 0 -> cstr l = take n l.
Proof.
  revert n. induction l as [|c l IH]; intros n Hnz Hend.
  - by rewrite take_nil.
  - destruct n as [|n]; cbn [take nth cstr] in *.
    + by rewrite Hend.
    + apply Forall_cons in Hnz as [Hc Hnz]. apply Z.eqb_neq in Hc.
      rewrite Hc. f_equal. by apply IH.
Qed.

Lemma take_take_le {A} (l : list A) n m :
  (n <= m)%nat -> take n (take m l) = take n l.
Proof. intros H. rewrite take_take. f_equal. lia. Qed.

Lemma input_ok_cstr s : input_ok s -> cstr (input_buffer s) = typed s.
Proof.
  intros (_ & _ & _ & Hend & Hp). apply cstr_take_nul; [|exact Hend].
  eapply Forall_impl; [exact Hp|]. cbn. lia.
Qed.

Section ShellInput.
Variable font : Z -> Z -> Z.
Variables prompt_line0 message0 err_msg0 : list Z.

Local Abbreviation process_char :=
  (Shell.shell_process_char font prompt_line0 message0 err_msg0).

(** X23. A key other than the line end, on a sound input line (at most
    63 printable characters typed, terminated, in the 64-byte buffer)
    and a sound console.  Backspace and DEL take the last character of
    the line away and hand backspace, blank, backspace to the console;
    on an empty line they do nothing.  A printable character (32..126)
    is appended and echoed while fewer than 63 characters are typed; once
    63 are typed it is dropped without an echo, so the buffer never
    overflows.  Any other code is ignored.  The line stays terminated and
    sound, the console is only handed the echo, and the display lines,
    the framebuffer and the argument buffer are untouched. *)
Theorem shell_process_char_edits (s : system) (c : Z) :
  input_ok s -> console_ok s -> is_byte c -> c <> 10 -> c <> 13 ->
  let s' := sys_exec (process_char c) s in
  let erase := bool_decide (c = 8 \/ c = 127) in
  let room := bool_decide (32 <= c <= 126 /\ input_pos s < 63) in
  let echo :=
    if erase then (if bool_decide (0 < input_pos s) then [8; 32; 8] else [])
    else if room then [c] else [] in
  input_ok s' /\ console_ok s' /\
  typed s' =
    (if erase then take (Z.to_nat (input_pos s) - 1) (typed s)
     else if room then typed s ++ [c] else typed s) /\
  cstr (input_buffer s') = typed s' /\
  (exists full,
     sys_emitted s s' = flat_map flush_wave full /\
     Forall (fun ch => length ch = 64%nat) full /\
     concat full ++ pending s' = pending s ++ echo) /\
  display_lines s' = display_lines s /\
  current_line s' = current_line s /\
  ssd1306_buffer (mach s') = ssd1306_buffer (mach s) /\
  args_buffer s' = args_buffer s.
Proof.
  intros Hin Hcon Hc H10 H13. cbn zeta.
  assert (Hgoal : forall s',
    input_ok s' -> console_ok s' ->
    typed s' =
      (if bool_decide (c = 8 \/ c = 127)
       then take (Z.to_nat (input_pos s) - 1) (typed s)
       else if bool_decide (32 <= c <= 126 /\ input_pos s < 63)
            then typed s ++ [c] else typed s) ->
    (exists full,
       sys_emitted s s' = flat_map flush_wave full /\
       Forall (fun ch => length ch = 64%nat) full /\
       concat full ++ pending s' =
       pending s ++
         (if bool_decide (c = 8 \/ c = 127)
          then (if bool_decide (0 < input_pos s) then [8; 32; 8] else [])
          else if bool_decide (32 <= c <= 126 /\ input_pos s < 63)
               then [c] else [])) ->
    display_lines s' = display_lines s ->
    current_line s' = current_line s ->
    ssd1306_buffer (mach s') = ssd1306_buffer (mach s) ->
    args_buffer s' = args_buffer s ->
    process_char c s = (tt, s') ->
    let s'' := sys_exec (process_char c) s in
    input_ok s'' /\ console_ok s'' /\
    typed s'' =
      (if bool_decide (c = 8 \/ c = 127)
       then take (Z.to_nat (input_pos s) - 1) (typed s)
       else if bool_decide (32 <= c <= 126 /\ input_pos s < 63)
            then typed s ++ [c] else typed s) /\
    cstr (input_buffer s'') = typed s'' /\
    (exists full,
       sys_emitted s s'' = flat_map flush_wave full /\
       Forall (fun ch => length ch = 64%nat) full /\
       concat full ++ pending s'' =
       pending s ++
         (if bool_decide (c = 8 \/ c = 127)
          then (if bool_decide (0 < input_pos s) then [8; 32; 8] else [])
          else if bool_decide (32 <= c <= 126 /\ input_pos s < 63)
               then [c] else [])) /\
    display_lines s'' = display_lines s /\
    current_line s'' = current_line s /\
    ssd1306_buffer (mach s'') = ssd1306_buffer (mach s) /\
    args_buffer s'' = args_buffer s).
  { intros s' K1 K2 K3 K4 K5 K6 K7 K8 Hrun. cbn zeta. unfold sys_exec.
    rewrite Hrun. cbn [snd].
    split; [exact K1|]. split; [exact K2|]. split; [exact K3|].
    split; [by apply input_ok_cstr|]. split; [exact K4|].
    split; [exact K5|]. split; [exact K6|]. split; [exact K7|exact K8]. }
  assert (Hnothing : forall s0, s0 = s ->
    (exists full,
       sys_emitted s s0 = flat_map flush_wave full /\
       Forall (fun ch => length ch = 64%nat) full /\
       concat full ++ pending s0 = pending s ++ [])).
  { intros s0 ->. exists []. cbn [flat_map concat app].
    unfold sys_emitted, emitted. rewrite drop_all, app_nil_r. by split. }
  destruct Hin as (Hpos & Hlen & Hbytes & Hend & Hprint).
  pose proof Hcon as (Hcpos & Hclen & Hcbytes).
  unfold Shell.SHELL_MAX_LINE_LENGTH in *.
  assert (Hsame : forall s0 : system, (tt, s0) = (tt, s0)) by reflexivity.
  destruct ((c =? 8) || (c =? 127)) eqn:Herase.
  - (* backspace *)
    assert (He : c = 8 \/ c = 127).
    { apply orb_true_iff in Herase as [H|H]; apply Z.eqb_eq in H; tauto. }
    rewrite (bool_decide_eq_true_2 _ He) in Hgoal |- *.
    destruct (input_pos s >? 0) eqn:Hgt.
    + pose proof Hgt as Hgt'. apply Z.gtb_lt in Hgt.
      rewrite (bool_decide_eq_true_2 (0 < input_pos s) Hgt) in Hgoal |- *.
      assert (Hu : u8 (input_pos s - 1) = input_pos s - 1)
        by (unfold u8; apply Z.mod_small; lia).
      set (buf' := <[Z.to_nat (input_pos s - 1) := 0]> (input_buffer s)).
      set (s1 := mkSystem (mach s) (buffer s) (buffer_pos s) buf'
                          (input_pos s - 1) (display_lines s)
                          (current_line s) (args_buffer s)).
      assert (Hcon1 : console_ok s1) by exact Hcon.
      assert (Hb : forall b, In b [8; 32; 8] -> is_byte b).
      { intros b Hb. unfold is_byte. cbn in Hb. lia. }
      destruct (console_writes_bind _ _ [8] [32; 8]
                  (console_writes_putc 8 (Hb 8 ltac:(cbn; tauto)))
                  (console_writes_bind _ _ [32] [8]
                     (console_writes_putc 32 (Hb 32 ltac:(cbn; tauto)))
                     (console_writes_putc 8 (Hb 8 ltac:(cbn; tauto))))
                  s1 Hcon1)
        as (full & buf & pos & E & Hok & Hfull & Hcat).
      eapply Hgoal;
        [| | | | | | |
         |unfold Shell.shell_process_char; rewrite Herase; sys_simpl;
          rewrite Hgt'; sys_simpl; rewrite Hu; exact E];
        unfold s1;
        cbn [console_state mach buffer buffer_pos input_buffer input_pos
             display_lines current_line args_buffer after ssd1306_buffer];
        try reflexivity.
      * unfold input_ok, typed, Shell.SHELL_MAX_LINE_LENGTH.
        cbn [console_state input_buffer input_pos].
        split; [lia|]. split; [by unfold buf'; rewrite length_insert|].
        split; [apply Forall_insert; [exact Hbytes|unfold is_byte; lia]|].
        split.
        -- unfold buf'. rewrite nth_lookup, list_lookup_insert_eq by lia. done.
        -- unfold buf'. rewrite take_insert_ge by lia.
           unfold typed in Hprint.
           replace (Z.to_nat (input_pos s - 1))
             with (Z.to_nat (input_pos s) - 1)%nat by lia.
           rewrite <- (take_take_le _ (Z.to_nat (input_pos s) - 1)
                          (Z.to_nat (input_pos s))) by lia.
           by apply Forall_take.
      * exact Hok.
      * unfold typed. cbn [console_state input_buffer input_pos].
        unfold buf'. rewrite take_insert_ge by lia.
        replace (Z.to_nat (input_pos s - 1))
          with (Z.to_nat (input_pos s) - 1)%nat by lia.
        by rewrite take_take_le by lia.
      * exists full. unfold sys_emitted.
        cbn [console_state mach]. rewrite emitted_after.
        split; [reflexivity|]. split; [exact Hfull|]. exact Hcat.
    + assert (Hz : ~ 0 < input_pos s) by (rewrite Z.gtb_ltb in Hgt; apply Z.ltb_ge in Hgt; lia).
      rewrite (bool_decide_eq_false_2 _ Hz) in Hgoal |- *.
      apply (Hgoal s);
        [| | | | | | |
         |unfold Shell.shell_process_char; rewrite Herase; sys_simpl;
          rewrite Hgt; reflexivity];
        try reflexivity.
      * by split.
      * exact Hcon.
      * assert (input_pos s = 0) as Hp0 by lia.
        unfold typed. rewrite Hp0. reflexivity.
      * by apply Hnothing.
  - assert (He : ~ (c = 8 \/ c = 127)).
    { apply orb_false_iff in Herase as [H1 H2].
      apply Z.eqb_neq in H1, H2. tauto. }
    rewrite (bool_decide_eq_false_2 _ He) in Hgoal |- *.
    assert (Hnl : (c =? 10) || (c =? 13) = false).
    { apply orb_false_iff. split; by apply Z.eqb_neq. }
    destruct ((c >=? 32) && (c <=? 126)) eqn:Hpr.
    + pose proof Hpr as Hpr'.
      apply andb_true_iff in Hpr as [Hlo Hhi].
      rewrite Z.geb_leb in Hlo. apply Z.leb_le in Hlo, Hhi.
      destruct (input_pos s <? 64 - 1) eqn:Hroom.
      * pose proof Hroom as Hroom'. apply Z.ltb_lt in Hroom.
        rewrite (bool_decide_eq_true_2 (32 <= c <= 126 /\ input_pos s < 63))
          in Hgoal |- * by lia.
        assert (Hu : u8 (input_pos s + 1) = input_pos s + 1)
          by (unfold u8; apply Z.mod_small; lia).
        set (buf1 := <[Z.to_nat (input_pos s) := c]> (input_buffer s)).
        set (buf2 := <[Z.to_nat (input_pos s + 1) := 0]> buf1).
        set (s1 := mkSystem (mach s) (buffer s) (buffer_pos s) buf2
                            (input_pos s + 1) (display_lines s)
                            (current_line s) (args_buffer s)).
        assert (Hcon1 : console_ok s1) by exact Hcon.
        destruct (console_writes_putc c Hc s1 Hcon1)
          as (full & buf & pos & E & Hok & Hfull & Hcat).
        assert (Htake : take (Z.to_nat (input_pos s + 1)) buf2
                        = typed s ++ [c]).
        { unfold buf2. rewrite take_insert_ge by lia.
          replace (Z.to_nat (input_pos s + 1))
            with (S (Z.to_nat (input_pos s))) by lia.
          unfold buf1, typed. apply take_insert_last. lia. }
        eapply Hgoal;
          [| | | | | | |
           |unfold Shell.shell_process_char, Shell.SHELL_MAX_LINE_LENGTH;
            rewrite Herase, Hnl, Hpr'; sys_simpl;
            rewrite Hroom'; sys_simpl; rewrite Hu; exact E];
          unfold s1;
          cbn [console_state mach buffer buffer_pos input_buffer input_pos
               display_lines current_line args_buffer after ssd1306_buffer];
          try reflexivity.
        -- unfold input_ok, typed, Shell.SHELL_MAX_LINE_LENGTH.
           cbn [console_state input_buffer input_pos].
           split; [lia|].
           split; [by unfold buf2, buf1; rewrite !length_insert|].
           split; [unfold buf2, buf1;
                   apply Forall_insert;
                     [by apply Forall_insert|unfold is_byte; lia]|].
           split.
           ++ unfold buf2. rewrite nth_lookup, list_lookup_insert_eq; [done|].
              unfold buf1. rewrite length_insert. lia.
           ++ rewrite Htake. apply Forall_app. split; [exact Hprint|].
              constructor; [lia|constructor].
        -- exact Hok.
        -- unfold typed at 1. cbn [console_state input_buffer input_pos].
           exact Htake.
        -- exists full. unfold sys_emitted.
           cbn [console_state mach]. rewrite emitted_after.
           split; [reflexivity|]. split; [exact Hfull|]. exact Hcat.
      * pose proof Hroom as Hroom'. apply Z.ltb_ge in Hroom.
        rewrite (bool_decide_eq_false_2 (32 <= c <= 126 /\ input_pos s < 63))
          in Hgoal |- * by lia.
        apply (Hgoal s);
          [| | | | | | |
           |unfold Shell.shell_process_char, Shell.SHELL_MAX_LINE_LENGTH;
            rewrite Herase, Hnl, Hpr'; sys_simpl;
            rewrite Hroom'; reflexivity];
          try reflexivity; [by split|exact Hcon|by apply Hnothing].
    + assert (Hno : ~ (32 <= c <= 126 /\ input_pos s < 63)).
      { apply andb_false_iff in Hpr as [H|H].
        - rewrite Z.geb_leb in H. apply Z.leb_gt in H. lia.
        - apply Z.leb_gt in H. lia. }
      rewrite (bool_decide_eq_false_2 _ Hno) in Hgoal |- *.
      apply (Hgoal s);
        [| | | | | | |
         |unfold Shell.shell_process_char;
          rewrite Herase, Hnl, Hpr; reflexivity];
        try reflexivity; [by split|exact Hcon|by apply Hnothing].
Qed.

End ShellInput.

(** *** The system of [app_main] *)

Lemma zeros_bytes n : Forall is_byte (replicate n 0).
Proof. apply Forall_replicate. unfold is_byte. lia. Qed.

Lemma boot_console_ok : console_ok boot.
Proof.
  unfold console_ok, boot, Console.BUFFER_SIZE. cbn [buffer buffer_pos].
  split; [lia|]. split; [reflexivity|apply zeros_bytes].
Qed.

Lemma boot_lines_shape : lines_shape (display_lines boot).
Proof.
  split; [reflexivity|]. apply Forall_replicate.
  split; [reflexivity|apply zeros_bytes].
Qed.

Lemma boot_shell_ok : shell_ok boot.
Proof.
  split; [exact boot_console_ok|]. split; [reflexivity|]. split; [|split].
  - apply Forall_replicate. split; [reflexivity|].
    split; [cbn; lia|apply zeros_bytes].
  - unfold Shell.MAX_LINES. cbn. lia.
  - intros i _. cbn [boot display_lines].
    do 8 (destruct i as [|i]; [reflexivity|]). by destruct i.
Qed.

Lemma codes_bytes str : Forall is_byte (codes str).
Proof.
  induction str as [|ch str IH]; cbn [codes]; constructor; [|exact IH].
  unfold is_byte. pose proof (Ascii.nat_ascii_bounded ch). lia.
Qed.

(** *** Instances for the console and the shell *)

Lemma console_putc_buffers_witness :
  let s' := sys_exec (Console.console_putc 65) boot in
  let w := sys_emitted boot s' in
  console_ok s' /\
  (buffer_pos boot < 63 -> w = [] /\ pending s' = pending boot ++ [65]) /\
  (buffer_pos boot = 63 ->
   w = flush_wave (pending boot ++ [65]) /\
   fifo_bytes w = pending boot ++ [65] /\
   length (fifo_bytes w) = 64%nat /\
   pending s' = []) /\
  s' = console_state (after (mach boot) w) (buffer s') (buffer_pos s') boot.
Proof.
  apply (console_putc_buffers boot 65).
  - exact boot_console_ok.
  - unfold is_byte. lia.
Defined.

Lemma console_puts_stream_witness :
  let str := codes "ok" ++ [10; 0; 33] in
  let s' := sys_exec (Console.console_puts str) boot in
  fifo_bytes (sys_emitted boot s') = pending boot ++ crlf (cstr str) /\
  crlf (cstr str) = codes "ok" ++ [13; 10] /\
  buffer_pos s' = 0.
Proof.
  destruct (console_puts_stream boot (codes "ok" ++ [10; 0; 33]))
    as (Hfifo & _ & Hpos & _).
  - exact boot_console_ok.
  - apply Forall_app. split; [apply codes_bytes|].
    repeat constructor; unfold is_byte; lia.
  - cbv zeta. split; [exact Hfifo|]. split; [reflexivity|exact Hpos].
Defined.

Lemma str_copy_truncates_witness :
  cstr (Shell.str_copy (replicate 8 7) (codes "display") 4) = codes "dis" /\
  Shell.str_copy (replicate 8 7) (codes "display") 4 =
    codes "dis" ++ [0; 7; 7; 7; 7] /\
  Shell.str_copy (replicate 8 7) (codes "display") 0 = 0 :: replicate 7 7.
Proof.
  destruct (str_copy_truncates (replicate 8 7) (codes "display") 4)
    as [Hpos _].
  destruct (str_copy_truncates (replicate 8 7) (codes "display") 0)
    as [_ Hzero].
  destruct Hpos as (Hr & Hc & _); [cbn; lia|].
  split; [exact Hc|]. split; [exact Hr|]. apply Hzero. lia.
Defined.

Lemma shell_refresh_display_shows_witness :
  let s' := sys_exec (Shell.shell_refresh_display block_font) boot in
  let fb := ssd1306_buffer (mach s') in
  get_pixel fb 3 9 =
    cells_pixel block_font (screen_cells (display_lines boot)) 3 9 /\
  length fb = 1024%nat /\
  frames_of (mach boot) (sys_emitted boot s') =
    flat_map (command_txn (ssd1306_i2c_addr (mach boot))) window_commands
    ++ data_txn (ssd1306_i2c_addr (mach boot)) fb.
Proof.
  destruct (shell_refresh_display_shows block_font boot 3 9)
    as (Hpix & _ & Hlen & Hfr & _).
  - exact bench_valid_pins.
  - exact bench_bus_idle.
  - exact bench_always_acks.
  - apply in_bounds_intro; lia.
  - cbv zeta. split; [exact Hpix|]. split; [exact Hlen|exact Hfr].
Defined.

Lemma shell_print_scrolls_witness :
  let s' := sys_exec (Shell.shell_print block_font (codes "hello")) boot in
  shell_ok s' /\
  shown s' = last_n 8 (shown boot ++ [take 21 (cstr (codes "hello"))]) /\
  fifo_bytes (sys_emitted boot s') =
    pending boot ++ crlf (cstr (codes "hello")) ++ [13; 10] /\
  buffer_pos s' = 0 /\
  screen_shows block_font s' /\
  input_buffer s' = input_buffer boot /\ input_pos s' = input_pos boot.
Proof.
  apply (shell_print_scrolls block_font boot (codes "hello")).
  - exact boot_shell_ok.
  - apply codes_bytes.
Defined.

Lemma shell_clear_empties_witness :
  let s' := sys_exec (Shell.shell_clear block_font) boot in
  shell_ok s' /\
  shown s' = [] /\ current_line s' = 0 /\
  display_lines s' = map (fun l => <[0%nat := 0]> l) (display_lines boot) /\
  (forall px py, in_bounds px py ->
     get_pixel (ssd1306_buffer (mach s')) px py = false) /\
  fifo_bytes (sys_emitted boot s') = [] /\
  buffer s' = buffer boot /\ buffer_pos s' = buffer_pos boot /\
  input_buffer s' = input_buffer boot /\ input_pos s' = input_pos boot.
Proof.
  apply (shell_clear_empties block_font boot).
  - exact boot_console_ok.
  - exact boot_lines_shape.
Defined.

Lemma shell_init_welcome_witness :
  let s' := sys_exec (Shell.shell_init block_font) boot in
  shell_ok s' /\
  shown s' = [codes "RISC-V Shell v1.0"; codes "Type 'help'"; codes ">"] /\
  current_line s' = 3 /\ input_pos s' = 0 /\
  screen_shows block_font s' /\
  fifo_bytes (sys_emitted boot s') =
    pending boot ++ codes "RISC-V Shell v1.0" ++ [13; 10]
                 ++ codes "Type 'help'" ++ [13; 10] ++ codes ">" ++ [13; 10] /\
  buffer_pos s' = 0 /\
  input_buffer s' = input_buffer boot.
Proof.
  apply (shell_init_welcome block_font boot).
  - exact boot_console_ok.
  - exact boot_lines_shape.
Defined.

Lemma boot_input_ok : input_ok boot.
Proof.
  unfold input_ok, typed, boot, Shell.SHELL_MAX_LINE_LENGTH.
  cbn [input_pos input_buffer].
  split; [lia|]. split; [reflexivity|]. split; [apply zeros_bytes|].
  split; [reflexivity|constructor].
Qed.

Lemma shell_process_char_edits_witness :
  let s' := sys_exec (Shell.shell_process_char block_font [] [] [] 65) boot in
  input_ok s' /\ typed s' = [65] /\ cstr (input_buffer s') = [65] /\
  display_lines s' = display_lines boot.
Proof.
  destruct (shell_process_char_edits block_font [] [] [] boot 65)
    as (Hok & _ & Ht & Hc & _ & Hl & _).
  - exact boot_input_ok.
  - exact boot_console_ok.
  - unfold is_byte. lia.
  - lia.
  - lia.
  - cbv zeta. split; [exact Hok|]. rewrite Hc.
    split; [exact Ht|]. split; [exact Ht|exact Hl].
Defined.
